(** * Cloudronix agent: the signed playbook execution engine

    A shallow embedding of package [playbook] (verifier, parser, variable
    resolver, condition evaluator, executor) and of the [command] action
    handler, together with the properties the specification states about
    them.

    Conventions of the embedding.
    - A Go [string] is a byte sequence; it is a Rocq [string] here and the
      functions of package [strings] are defined on its list of bytes.
    - A Go [map] with string keys is a [gmap string _]; the heterogeneous
      [map[string]interface{}] of task parameters is an association list,
      whose order stands for the iteration order of one run.
    - A function returning [(T, error)] returns an [outcome T]; a run-time
      panic is the third constructor.
    - The executor threads an explicit state: the host (file system,
      environment, clock) and the trace of the calls it makes into injected
      code (progress callback, action handlers).
    - Wall-clock fields ([StartTime], [EndTime], [Duration], [VerifiedAt])
      are not represented. *)

From Stdlib Require Import ZArith NArith Ascii String List Bool Lia.
From Stdlib Require Import Floats.SpecFloat DecimalString.
From stdpp Require Import base option list gmap strings.

Set Warnings "-register-all".

Local Open Scope Z_scope.
Local Open Scope list_scope.
Local Open Scope stdpp_scope.

(* ===================================================================== *)
(** * Package [strings] of the Go standard library *)
(* ===================================================================== *)

Module GoStrings.

Abbreviation bytes := (list ascii).

Definition bytesOf (s : string) : bytes := list_ascii_of_string s.
Definition ofBytes (l : bytes) : string := string_of_list_ascii l.

Definition code (c : ascii) : N := N_of_ascii c.

(** [asciiSpace] of strings.go: tab, LF, VT, FF, CR, space. *)
Definition asciiSpace (c : ascii) : bool :=
  match code c with
  | 9 | 10 | 11 | 12 | 13 | 32 => true
  | _ => false
  end%N.

(** UTF-8 encodings of the non-ASCII runes for which [unicode.IsSpace]
    holds: U+0085, U+00A0 (two bytes); U+1680, U+2000..U+200A, U+2028,
    U+2029, U+202F, U+205F, U+3000 (three bytes). *)
Definition spaceRune2 (a b : N) : bool :=
  ((a =? 0xC2) && ((b =? 0x85) || (b =? 0xA0)))%N.

Definition spaceRune3 (a b c : N) : bool :=
  (((a =? 0xE1) && (b =? 0x9A) && (c =? 0x80))
   || ((a =? 0xE2) && (b =? 0x80)
       && (((0x80 <=? c) && (c <=? 0x8A)) || (c =? 0xA8) || (c =? 0xA9) || (c =? 0xAF)))
   || ((a =? 0xE2) && (b =? 0x81) && (c =? 0x9F))
   || ((a =? 0xE3) && (b =? 0x80) && (c =? 0x80)))%N.

(** Width in bytes of the white-space rune that starts [l]; 0 if [l] starts
    with anything else (an invalid encoding decodes to U+FFFD, no space). *)
Definition leadSpace (l : bytes) : nat :=
  match l with
  | [] => 0
  | a :: r =>
      if asciiSpace a then 1
      else match r with
           | [] => 0
           | b :: r' =>
               if spaceRune2 (code a) (code b) then 2
               else match r' with
                    | [] => 0
                    | c :: _ => if spaceRune3 (code a) (code b) (code c) then 3 else 0
                    end
           end
  end%nat.

(** Width of the white-space rune that ends [l]. *)
Definition trailSpace (l : bytes) : nat :=
  match rev l with
  | [] => 0
  | c :: r =>
      if asciiSpace c then 1
      else match r with
           | [] => 0
           | b :: r' =>
               if spaceRune2 (code b) (code c) then 2
               else match r' with
                    | [] => 0
                    | a :: _ => if spaceRune3 (code a) (code b) (code c) then 3 else 0
                    end
           end
  end%nat.

Fixpoint trimLeft (fuel : nat) (l : bytes) : bytes :=
  match fuel with
  | O => l
  | S f => match leadSpace l with
           | O => l
           | w => trimLeft f (drop w l)
           end
  end.

Fixpoint trimRight (fuel : nat) (l : bytes) : bytes :=
  match fuel with
  | O => l
  | S f => match trailSpace l with
           | O => l
           | w => trimRight f (take (length l - w) l)
           end
  end.

Definition trimSpace (l : bytes) : bytes :=
  let l1 := trimLeft (length l) l in trimRight (length l1) l1.

Fixpoint isPrefix (p l : bytes) : bool :=
  match p, l with
  | [], _ => true
  | _ :: _, [] => false
  | a :: p', b :: l' => Ascii.eqb a b && isPrefix p' l'
  end.

Definition isSuffix (p l : bytes) : bool := isPrefix (rev p) (rev l).

(** [strings.Cut]: the text before and after the first occurrence of
    [sep]. *)
Fixpoint cut (sep l : bytes) {struct l} : option (bytes * bytes) :=
  if isPrefix sep l then Some ([], drop (length sep) l)
  else match l with
       | [] => None
       | c :: l' =>
           match cut sep l' with
           | Some (b, a) => Some (c :: b, a)
           | None => None
           end
       end.

Fixpoint splitAll (fuel : nat) (sep l : bytes) : list bytes :=
  match cut sep l with
  | None => [l]
  | Some (b, a) =>
      match fuel with
      | O => [l]
      | S f => b :: splitAll f sep a
      end
  end.

Fixpoint countAll (fuel : nat) (sep l : bytes) : nat :=
  match cut sep l with
  | None => 0
  | Some (_, a) =>
      match fuel with
      | O => 0
      | S f => S (countAll f sep a)
      end
  end.

Definition lowerByte (c : ascii) : ascii :=
  if ((65 <=? code c) && (code c <=? 90))%N then ascii_of_N (code c + 32) else c.

Definition isASCII (l : bytes) : bool := forallb (fun c => (code c <? 128)%N) l.

(** ** The exported functions, on strings *)

Definition TrimSpace (s : string) : string := ofBytes (trimSpace (bytesOf s)).

Definition HasPrefix (s p : string) : bool := isPrefix (bytesOf p) (bytesOf s).

Definition HasSuffix (s p : string) : bool := isSuffix (bytesOf p) (bytesOf s).

Definition TrimPrefix (s p : string) : string :=
  if HasPrefix s p then ofBytes (drop (String.length p) (bytesOf s)) else s.

Definition Contains (s sub : string) : bool :=
  match cut (bytesOf sub) (bytesOf s) with Some _ => true | None => false end.

(** [strings.Split s sep] for a non-empty [sep]. Go splits after each UTF-8
    sequence when [sep] is empty; every separator in this program is a
    non-empty literal, and that case is given as no split. *)
Definition Split (s sep : string) : list string :=
  match bytesOf sep with
  | [] => [s]
  | sp => map ofBytes (splitAll (String.length s) sp (bytesOf s))
  end.

(** [strings.SplitN s sep 2] for a non-empty [sep]: at most one cut, at the
    first occurrence. *)
Definition SplitN2 (s sep : string) : list string :=
  match cut (bytesOf sep) (bytesOf s) with
  | None => [s]
  | Some (b, a) => [ofBytes b; ofBytes a]
  end.

(** [strings.Count s sub] for a non-empty [sub]: the number of
    non-overlapping occurrences. *)
Definition Count (s sub : string) : nat :=
  match bytesOf sub with
  | [] => S (String.length s)
  | sp => countAll (String.length s) sp (bytesOf s)
  end.

(** [s[i:j]]; [None] is the run-time panic of an out-of-range slice. *)
Definition slice (s : string) (i j : nat) : option string :=
  if ((i <=? j) && (j <=? String.length s))%nat
  then Some (ofBytes (take (j - i) (drop i (bytesOf s))))
  else None.

Section ToLower.
(** [strings.Map(unicode.ToLower, s)], which [ToLower] falls back to when
    [s] has a byte outside ASCII. *)
Variable mapUnicodeLower : string -> string.

Definition ToLower (s : string) : string :=
  if isASCII (bytesOf s) then ofBytes (map lowerByte (bytesOf s))
  else mapUnicodeLower s.
End ToLower.

End GoStrings.

Import GoStrings.

(* ===================================================================== *)
(** * Results of Go calls *)
(* ===================================================================== *)

(** Errors of package [playbook] (errors.go, verify.go) and the ones built
    with [fmt.Errorf]; [Error_text] is their [Error()] method. *)
Inductive Error : Type :=
| ErrHashMismatch
| ErrInvalidSignature
| ErrNotApproved
| ErrEmptyContent
| ErrMissingHash
| ErrMissingSignature
| ErrInvalidPublicKey
| ErrPlatformMismatch
| ErrVariableNotFound
| ErrInvalidYAML
| ErrContext
| ParseError (Message : string) (Cause : Error)
| ValidationError (Field Message : string)
| VariableError (VariableName : string) (Cause : Error)
| Errorf (text : string).

Fixpoint Error_text (e : Error) : string :=
  match e with
  | ErrHashMismatch =>
      "SECURITY VIOLATION: playbook hash mismatch - content may have been tampered"
  | ErrInvalidSignature =>
      "SECURITY VIOLATION: invalid signature - playbook not authenticated"
  | ErrNotApproved =>
      "SECURITY VIOLATION: playbook not approved - requires human review"
  | ErrEmptyContent => "SECURITY VIOLATION: empty playbook content"
  | ErrMissingHash => "SECURITY VIOLATION: missing playbook hash"
  | ErrMissingSignature => "SECURITY VIOLATION: missing playbook signature"
  | ErrInvalidPublicKey => "SECURITY VIOLATION: invalid server public key"
  | ErrPlatformMismatch => "playbook does not support this platform"
  | ErrVariableNotFound => "variable not found"
  | ErrInvalidYAML => "invalid YAML syntax"
  | ErrContext => "context canceled"
  | ParseError m _ => "parse error: " +:+ m
  | ValidationError f m => "validation error in '" +:+ f +:+ "': " +:+ m
  | VariableError n c => "variable '{{ " +:+ n +:+ " }}' error: " +:+ Error_text c
  | Errorf t => t
  end.

(** A call that returns [(T, error)]: a value, an error, or a panic. *)
Inductive outcome (A : Type) : Type :=
| Val (a : A)
| Fail (e : Error)
| Panic.
Arguments Val {A} a.
Arguments Fail {A} e.
Arguments Panic {A}.

Definition obind {A B} (x : outcome A) (k : A -> outcome B) : outcome B :=
  match x with
  | Val a => k a
  | Fail e => Fail e
  | Panic => Panic
  end.

(** [strconv.Itoa]. *)
Definition Itoa (z : Z) : string :=
  NilZero.string_of_int (Z.to_int z).

(* ===================================================================== *)
(** * Data model (types.go) *)
(* ===================================================================== *)

Definition SchemaVersion : string := "1.0".

Definition ActionCommand : string := "command".
Definition ActionFile : string := "file".
Definition ActionLineinfile : string := "lineinfile".
Definition ActionEnv : string := "env".
Definition ActionService : string := "service".
Definition ActionRegistry : string := "registry".
Definition ActionSysctl : string := "sysctl".
Definition ActionDefaults : string := "defaults".
Definition ActionSettings : string := "settings".
Definition ActionPackage : string := "package".

Definition PlatformWindows : string := "windows".
Definition PlatformLinux : string := "linux".
Definition PlatformDarwin : string := "darwin".
Definition PlatformAndroid : string := "android".

Definition StatusPending : string := "pending".
Definition StatusApproved : string := "approved".
Definition StatusRejected : string := "rejected".
Definition StatusDeprecated : string := "deprecated".
Definition StatusTest : string := "test".

(** [type TaskStatus string] with its five constants. *)
Inductive TaskStatus : Type :=
| TaskStatusPending
| TaskStatusRunning
| TaskStatusCompleted
| TaskStatusFailed
| TaskStatusSkipped.

Definition TaskStatus_string (s : TaskStatus) : string :=
  match s with
  | TaskStatusPending => "pending"
  | TaskStatusRunning => "running"
  | TaskStatusCompleted => "completed"
  | TaskStatusFailed => "failed"
  | TaskStatusSkipped => "skipped"
  end.

Global Instance TaskStatus_eq_dec : EqDecision TaskStatus.
Proof. solve_decision. Defined.

(** A value of [map[string]interface{}] as the YAML decoder builds it. *)
Inductive Value : Type :=
| VNil
| VString (s : string)
| VBool (b : bool)
| VInt (i : Z)
| VFloat (f : spec_float)
| VList (l : list Value)
| VMap (m : list (string * Value)).

Abbreviation ParamMap := (list (string * Value)).

(** [v, ok := params[key]]. *)
Fixpoint param (m : ParamMap) (key : string) : option Value :=
  match m with
  | [] => None
  | (k, v) :: m' => if String.eqb k key then Some v else param m' key
  end.

(** [s, ok := params[key].(string)]. *)
Definition paramString (m : ParamMap) (key : string) : option string :=
  match param m key with Some (VString s) => Some s | _ => None end.

Module ResultDefinition.
Record t : Type := mk { Label : string; Type_ : string; Extract : string }.
End ResultDefinition.

Module Task.
Inductive t : Type := mk {
  Name : string;
  ID : string;
  Platform : string;
  When : string;
  Action : string;
  Params : ParamMap;
  Register : string;
  Result : option ResultDefinition.t;
  IgnoreErrors : bool;
  Retries : Z;
  RetryDelay : Z;
  Notify : list string;
  Rollback : option t
}.
End Task.

Module ErrorHandler.
Record t : Type := mk { Strategy : string; NotifyServer : bool; Message : string }.
End ErrorHandler.

Module CompletionHandler.
Record t : Type := mk { RebootPrompt : bool; Message : string }.
End CompletionHandler.

Module Playbook.
Record t : Type := mk {
  Version : string;
  Name : string;
  Description : string;
  Author : string;
  Platforms : list string;
  MinAgentVersion : string;
  RequiresReboot : bool;
  RequiresAdmin : bool;
  Variables : list (string * string);
  Tasks : list Task.t;
  Handlers : list Task.t;
  OnError : option ErrorHandler.t;
  OnComplete : option CompletionHandler.t
}.

Definition with_Version (pb : t) (v : string) : t :=
  mk v (Name pb) (Description pb) (Author pb) (Platforms pb) (MinAgentVersion pb)
     (RequiresReboot pb) (RequiresAdmin pb) (Variables pb) (Tasks pb) (Handlers pb)
     (OnError pb) (OnComplete pb).
End Playbook.

Module SignedPlaybook.
Record t : Type := mk {
  Content : string;
  SHA256Hash : string;
  Signature : bytes;
  Status : string;
  PlaybookID : string;
  ApprovedBy : string
}.
End SignedPlaybook.

Module TaskResult.
Record t : Type := mk {
  TaskName : string;
  TaskID : string;
  Status : TaskStatus;
  Changed : bool;
  Stdout : string;
  Stderr : string;
  ExitCode : Z;
  Error : string;
  Message : string;
  ResultMeta : option ResultDefinition.t
}.

(** The zero value of the struct. *)
Definition zero : t := mk "" "" TaskStatusPending false "" "" 0 "" "" None.

Definition with_Status (r : t) (s : TaskStatus) : t :=
  mk (TaskName r) (TaskID r) s (Changed r) (Stdout r) (Stderr r) (ExitCode r)
     (Error r) (Message r) (ResultMeta r).
Definition with_Changed (r : t) (c : bool) : t :=
  mk (TaskName r) (TaskID r) (Status r) c (Stdout r) (Stderr r) (ExitCode r)
     (Error r) (Message r) (ResultMeta r).
Definition with_Output (r : t) (out err : string) (code : Z) : t :=
  mk (TaskName r) (TaskID r) (Status r) (Changed r) out err code
     (Error r) (Message r) (ResultMeta r).
Definition with_Error (r : t) (e : string) : t :=
  mk (TaskName r) (TaskID r) (Status r) (Changed r) (Stdout r) (Stderr r) (ExitCode r)
     e (Message r) (ResultMeta r).
Definition with_Message (r : t) (m : string) : t :=
  mk (TaskName r) (TaskID r) (Status r) (Changed r) (Stdout r) (Stderr r) (ExitCode r)
     (Error r) m (ResultMeta r).
End TaskResult.

Module VerificationRecord.
Record t : Type := mk {
  ExpectedHash : string;
  CalculatedHash : string;
  HashVerified : bool;
  SignatureVerified : bool;
  ApprovalStatus : string;
  ApprovalVerified : bool;
  AllChecksPass : bool;
  FailureReason : string
}.

Definition zero : t := mk "" "" false false "" false false "".
End VerificationRecord.

Module ExecutionReport.
Record t : Type := mk {
  PlaybookID : string;
  PlaybookName : string;
  DeviceID : string;
  Verification : VerificationRecord.t;
  Status : string;
  TasksTotal : Z;
  TasksCompleted : Z;
  TasksFailed : Z;
  TasksSkipped : Z;
  TaskResults : list TaskResult.t;
  ErrorMessage : string;
  RebootRequired : bool
}.

(** Assignments to the fields of a report. *)
Definition setOutcome (r : t) (status errorMessage : string) : t :=
  mk (PlaybookID r) (PlaybookName r) (DeviceID r) (Verification r) status
     (TasksTotal r) (TasksCompleted r) (TasksFailed r) (TasksSkipped r) (TaskResults r)
     errorMessage (RebootRequired r).

Definition setStatus (r : t) (status : string) : t := setOutcome r status (ErrorMessage r).

Definition setPlaybookName (r : t) (name : string) : t :=
  mk (PlaybookID r) name (DeviceID r) (Verification r) (Status r)
     (TasksTotal r) (TasksCompleted r) (TasksFailed r) (TasksSkipped r) (TaskResults r)
     (ErrorMessage r) (RebootRequired r).

Definition setTasksTotal (r : t) (total : Z) : t :=
  mk (PlaybookID r) (PlaybookName r) (DeviceID r) (Verification r) (Status r)
     total (TasksCompleted r) (TasksFailed r) (TasksSkipped r) (TaskResults r)
     (ErrorMessage r) (RebootRequired r).

Definition setCounters (r : t) (completed failed skipped : Z) : t :=
  mk (PlaybookID r) (PlaybookName r) (DeviceID r) (Verification r) (Status r)
     (TasksTotal r) completed failed skipped (TaskResults r)
     (ErrorMessage r) (RebootRequired r).

Definition appendResult (r : t) (result : TaskResult.t) : t :=
  mk (PlaybookID r) (PlaybookName r) (DeviceID r) (Verification r) (Status r)
     (TasksTotal r) (TasksCompleted r) (TasksFailed r) (TasksSkipped r)
     (TaskResults r ++ [result]) (ErrorMessage r) (RebootRequired r).

Definition setRebootRequired (r : t) (reboot : bool) : t :=
  mk (PlaybookID r) (PlaybookName r) (DeviceID r) (Verification r) (Status r)
     (TasksTotal r) (TasksCompleted r) (TasksFailed r) (TasksSkipped r) (TaskResults r)
     (ErrorMessage r) reboot.
End ExecutionReport.

(* ===================================================================== *)
(** * The host: what the engine takes from outside package [playbook] *)
(* ===================================================================== *)

(** A [time.Duration] as [CommandHandler] computes it: five minutes, or the
    [timeout] parameter in seconds. *)
Inductive Duration : Type :=
| FiveMinutes
| SecondsInt (t : Z)
| SecondsFloat (t : spec_float).

(** An [exec.Cmd] and what running it gives. *)
Module Process.
Record t : Type := mk {
  Path : string;
  Args : list string;
  Dir : string;
  Timeout : option Duration
}.

Inductive RunError : Type :=
| ExitError (code : Z)
| OtherError.

Record Finished : Type := mkFinished {
  Stdout : string;
  Stderr : string;
  Err : option RunError;
  DeadlineExceeded : bool
}.
End Process.

(** The Go runtime and standard library, the third-party YAML decoder and the
    operating system. [World] is the state of the machine the agent runs on;
    what the engine reads from it is a function of the current world. *)
Class Host : Type := {
  World : Type;
  (** [runtime.GOOS], [runtime.GOARCH] *)
  GOOS : string;
  GOARCH : string;
  (** [strconv.ParseFloat(s, 64)]: [Some f] when [err == nil] *)
  ParseFloat : string -> option spec_float;
  (** [strings.Map(unicode.ToLower, s)] *)
  mapUnicodeLower : string -> string;
  (** [sha256.Sum256], the 32 raw digest bytes *)
  Sum256 : string -> bytes;
  (** [ed25519.Verify publicKey message sig] *)
  ed25519Verify : bytes -> bytes -> bytes -> bool;
  (** [yaml.Unmarshal] into a [Playbook]: the error text or the document *)
  yamlUnmarshal : string -> string + Playbook.t;
  (** [os.Getenv], [os.Hostname], [os.TempDir] *)
  Getenv : World -> string -> string;
  Hostname : World -> option string;
  TempDir : World -> string;
  (** [filepath.Separator], [filepath.Join] *)
  Separator : string;
  Join : list string -> string;
  (** [select] between [ctx.Done()] and [time.After(d seconds)]: whether the
      cancellation won, and the world after the wait *)
  waitOrDone : (World -> bool) -> Z -> World -> bool * World;
  (** [cmd.Run()] of an [exec.CommandContext]: what the process leaves on its
      output streams, its error, and whether the deadline of its context
      passed *)
  runProcess : (World -> bool) -> Process.t -> World -> Process.Finished * World;
  (** [fmt.Sprintf("%v", d)] of a duration *)
  formatDuration : Duration -> string
}.

(** A [context.Context], observed through [Done()]. *)
Definition Context `{Host} : Type := World -> bool.

(** [hex.EncodeToString]. *)
Definition hexDigit (n : N) : ascii :=
  if (n <? 10)%N then ascii_of_N (48 + n) else ascii_of_N (87 + n).

Definition EncodeToString (src : bytes) : string :=
  ofBytes (flat_map (fun c => [hexDigit (code c / 16); hexDigit (code c mod 16)]) src).

(* ===================================================================== *)
(** * Verifier (verify.go) *)
(* ===================================================================== *)

Module Verifier.
Import SignedPlaybook.

Record t : Type := mk { serverPublicKey : bytes }.

(** [ed25519.PublicKeySize] *)
Definition PublicKeySize : nat := 32.

Definition NewVerifier (publicKey : bytes) : outcome t :=
  if Nat.eqb (length publicKey) PublicKeySize then Val (mk publicKey)
  else Fail ErrInvalidPublicKey.

Section Verify.
Context `{Host}.

Definition Verify (v : t) (sp : SignedPlaybook.t)
  : VerificationRecord.t * option Error :=
  let record (calc : string) (hashOk sigOk apprOk all : bool) (reason : string) :=
    VerificationRecord.mk (SHA256Hash sp) calc hashOk sigOk (Status sp) apprOk all reason in
  (* STEP 1: input validation *)
  if String.eqb (Content sp) "" then
    (record "" false false false false "empty playbook content", Some ErrEmptyContent)
  else if String.eqb (SHA256Hash sp) "" then
    (record "" false false false false "missing playbook hash", Some ErrMissingHash)
  else if Nat.eqb (length (Signature sp)) 0 then
    (record "" false false false false "missing playbook signature",
     Some ErrMissingSignature)
  else
    (* STEP 2: SHA256 of the content *)
    let hashBytes := Sum256 (Content sp) in
    let calculatedHash := EncodeToString hashBytes in
    (* STEP 3: compare the hex strings *)
    if negb (String.eqb calculatedHash (SHA256Hash sp)) then
      (record calculatedHash false false false false
         ("hash mismatch: expected " +:+ SHA256Hash sp +:+ ", got " +:+ calculatedHash),
       Some ErrHashMismatch)
    (* STEP 4: the signature is over the raw hash bytes *)
    else if negb (ed25519Verify (serverPublicKey v) hashBytes (Signature sp)) then
      (record calculatedHash true false false false "signature verification failed",
       Some ErrInvalidSignature)
    (* STEP 5: approval status *)
    else if negb (String.eqb (Status sp) StatusApproved)
            && negb (String.eqb (Status sp) StatusTest) then
      (record calculatedHash true true false false
         ("playbook status is '" +:+ Status sp +:+ "', expected 'approved' or 'test'"),
       Some ErrNotApproved)
    else
      (record calculatedHash true true true true "", None).

(** [CalculateHash]: the hexadecimal SHA-256 of the content. *)
Definition CalculateHash (content : string) : string :=
  EncodeToString (Sum256 content).

(** [VerifyHashOnly]: whether the hash is the expected one, and the hash. *)
Definition VerifyHashOnly (content expectedHash : string) : bool * string :=
  let calculated := CalculateHash content in
  (String.eqb calculated expectedHash, calculated).
End Verify.
End Verifier.

(* ===================================================================== *)
(** * Variable resolver (variables.go) *)
(* ===================================================================== *)

Module Variables.

(** ** The two regular expressions

    [varPattern]: two opening braces, white space, an identifier that may
    contain dots (the submatch), white space, two closing braces.
    [envPattern]: a dollar sign, an opening brace, an identifier without
    dots (the submatch), a closing brace. Each is matched by a
    deterministic scan: the character classes that follow one another are
    disjoint, so the greedy choice is the only one. *)

Definition isLetter (c : ascii) : bool :=
  (((65 <=? code c) && (code c <=? 90)) || ((97 <=? code c) && (code c <=? 122)))%N.
Definition isDigit (c : ascii) : bool := ((48 <=? code c) && (code c <=? 57))%N.
Definition identStart (c : ascii) : bool := isLetter c || Ascii.eqb c "_".
Definition identChar (c : ascii) : bool := identStart c || isDigit c.
Definition varChar (c : ascii) : bool := identChar c || Ascii.eqb c ".".
(** [\s] of RE2: tab, LF, FF, CR, space. *)
Definition reSpace (c : ascii) : bool :=
  match code c with 9 | 10 | 12 | 13 | 32 => true | _ => false end%N.

Fixpoint spanWhile (p : ascii -> bool) (l : bytes) : bytes * bytes :=
  match l with
  | [] => ([], [])
  | c :: l' =>
      if p c then let '(a, b) := spanWhile p l' in (c :: a, b) else ([], l)
  end.

(** A match of the pattern at the head of [l]: the submatch and the text
    after the match. *)
Definition matchEnvPattern (l : bytes) : option (bytes * bytes) :=
  match l with
  | d :: o :: c :: r =>
      if Ascii.eqb d "$" && Ascii.eqb o "{" && identStart c then
        let '(nm, r1) := spanWhile identChar r in
        match r1 with
        | cl :: r2 => if Ascii.eqb cl "}" then Some (c :: nm, r2) else None
        | [] => None
        end
      else None
  | _ => None
  end.

Definition matchVarPattern (l : bytes) : option (bytes * bytes) :=
  match l with
  | o1 :: o2 :: r =>
      if Ascii.eqb o1 "{" && Ascii.eqb o2 "{" then
        let '(_, r1) := spanWhile reSpace r in
        match r1 with
        | c :: r2 =>
            if identStart c then
              let '(nm, r3) := spanWhile varChar r2 in
              let '(_, r4) := spanWhile reSpace r3 in
              match r4 with
              | c1 :: c2 :: r5 =>
                  if Ascii.eqb c1 "}" && Ascii.eqb c2 "}" then Some (c :: nm, r5)
                  else None
              | _ => None
              end
            else None
        | [] => None
        end
      else None
  | _ => None
  end.

(** [ReplaceAllStringFunc]: the leftmost matches, left to right, without
    overlap. [repl] gets the match and its submatch; the error it reports
    last is the one kept, like the [lastErr] the closure assigns. *)
Fixpoint replaceAll (fuel : nat) (pat : bytes -> option (bytes * bytes))
    (repl : string -> string -> string * option Error)
    (l : bytes) (lastErr : option Error) : bytes * option Error :=
  match fuel with
  | O => (l, lastErr)
  | S f =>
      match pat l with
      | Some (name, rest) =>
          let matched := take (length l - length rest) l in
          let '(out, err) := repl (ofBytes matched) (ofBytes name) in
          let lastErr' := match err with Some e => Some e | None => lastErr end in
          let '(tl, e') := replaceAll f pat repl rest lastErr' in
          (bytesOf out ++ tl, e')
      | None =>
          match l with
          | [] => ([], lastErr)
          | c :: l' =>
              let '(tl, e') := replaceAll f pat repl l' lastErr in (c :: tl, e')
          end
      end
  end.

Definition ReplaceAllStringFunc (pat : bytes -> option (bytes * bytes))
    (repl : string -> string -> string * option Error) (input : string)
  : string * option Error :=
  let '(out, err) := replaceAll (S (String.length input)) pat repl (bytesOf input) None in
  (ofBytes out, err).

(** ** The variable context *)

Record t : Type := mk {
  userVars : gmap string string;
  taskResults : gmap string TaskResult.t;
  builtins : gmap string string
}.

Section WithHost.
Context `{Host}.

Definition nonEmpty (s : string) : bool := negb (String.eqb s "").

Definition getUserHome (w : World) : string :=
  if nonEmpty (Getenv w "HOME") then Getenv w "HOME"
  else if nonEmpty (Getenv w "USERPROFILE") then Getenv w "USERPROFILE"
  else "".

Definition getUserConfig (w : World) : string :=
  if String.eqb GOOS "windows" then
    if nonEmpty (Getenv w "APPDATA") then Getenv w "APPDATA"
    else Join [getUserHome w; "AppData"; "Roaming"]
  else if String.eqb GOOS "darwin" then
    Join [getUserHome w; "Library"; "Application Support"]
  else if nonEmpty (Getenv w "XDG_CONFIG_HOME") then Getenv w "XDG_CONFIG_HOME"
  else Join [getUserHome w; ".config"].

Definition getUserCache (w : World) : string :=
  if String.eqb GOOS "windows" then
    if nonEmpty (Getenv w "LOCALAPPDATA") then Join [Getenv w "LOCALAPPDATA"; "cache"]
    else Join [getUserHome w; "AppData"; "Local"; "cache"]
  else if String.eqb GOOS "darwin" then
    Join [getUserHome w; "Library"; "Caches"]
  else if nonEmpty (Getenv w "XDG_CACHE_HOME") then Getenv w "XDG_CACHE_HOME"
  else Join [getUserHome w; ".cache"].

Definition getSystemConfig (w : World) : string :=
  if String.eqb GOOS "windows" then
    if nonEmpty (Getenv w "ProgramData") then Getenv w "ProgramData"
    else "C:\ProgramData"
  else "/etc".

(** Every branch of the switch returns [runtime.GOOS]. *)
Definition getOSFamily : string :=
  if String.eqb GOOS "windows" then "windows"
  else if String.eqb GOOS "darwin" then "darwin"
  else if String.eqb GOOS "linux" then "linux"
  else if String.eqb GOOS "android" then "android"
  else GOOS.

Definition initBuiltins (w : World) : gmap string string :=
  let b : gmap string string := ∅ in
  let b := <["platform" := GOOS]> b in
  let b := <["arch" := GOARCH]> b in
  let b := <["os_family" := getOSFamily]> b in
  let b := match Hostname w with
           | Some hostname => <["hostname" := hostname]> b
           | None => b
           end in
  let b := <["user_home" := getUserHome w]> b in
  let b := <["user_config" := getUserConfig w]> b in
  let b := <["user_cache" := getUserCache w]> b in
  let b := <["system_config" := getSystemConfig w]> b in
  let b := <["temp_dir" := TempDir w]> b in
  <["path_sep" := Separator]> b.

Definition NewVariables (w : World) : t := mk ∅ ∅ (initBuiltins w).

(** [resolveEnvVars]: [${NAME}] becomes the value of NAME when that is
    not empty. *)
Definition resolveEnvVars (w : World) (input : string) : string :=
  fst (ReplaceAllStringFunc matchEnvPattern
         (fun matched envName =>
            if nonEmpty (Getenv w envName) then (Getenv w envName, None)
            else (matched, None))
         input).

Definition SetUserVars (v : t) (w : World) (vars : list (string * string)) : t :=
  mk (fold_left (fun m kv => <[fst kv := resolveEnvVars w (snd kv)]> m) vars (userVars v))
     (taskResults v) (builtins v).

Definition SetTaskResult (v : t) (name : string) (result : TaskResult.t) : t :=
  mk (userVars v) (<[name := result]> (taskResults v)) (builtins v).

Definition Set_ (v : t) (name value : string) : t :=
  mk (<[name := value]> (userVars v)) (taskResults v) (builtins v).

Definition Get (v : t) (name : string) : option string :=
  match userVars v !! name with
  | Some val => Some val
  | None => builtins v !! name
  end.

Definition GetTaskResult (v : t) (name : string) : option TaskResult.t :=
  taskResults v !! name.

Definition FormatBool (b : bool) : string := if b then "true" else "false".

Definition getTaskResultProperty (result : TaskResult.t) (property : string)
  : outcome string :=
  if String.eqb property "stdout" then Val (TaskResult.Stdout result)
  else if String.eqb property "stderr" then Val (TaskResult.Stderr result)
  else if String.eqb property "exit_code" then Val (Itoa (TaskResult.ExitCode result))
  else if String.eqb property "status" then
    Val (TaskStatus_string (TaskResult.Status result))
  else if String.eqb property "changed" then Val (FormatBool (TaskResult.Changed result))
  else Fail (Errorf ("unknown property '" +:+ property +:+ "'")).

(** The closure [Substitute] passes to [ReplaceAllStringFunc]. *)
Definition substituteMatch (v : t) (w : World) (matched varName : string)
  : string * option Error :=
  if HasPrefix varName "env." then
    let envName := TrimPrefix varName "env." in
    if nonEmpty (Getenv w envName) then (Getenv w envName, None)
    else (matched, None)
  else
    let lookup :=
      match Get v varName with
      | Some val => (val, None)
      | None => (matched, Some (VariableError varName ErrVariableNotFound))
      end in
    if Contains varName "." then
      match SplitN2 varName "." with
      | [name; property] =>
          match taskResults v !! name with
          | Some result =>
              match getTaskResultProperty result property with
              | Val val => (val, None)
              | Fail err => (matched, Some err)
              | Panic => (matched, None)
              end
          | None => lookup
          end
      | _ => lookup
      end
    else lookup.

Definition Substitute (v : t) (w : World) (input : string) : string * option Error :=
  let result := resolveEnvVars w input in
  ReplaceAllStringFunc matchVarPattern (substituteMatch v w) result.

(** [SubstituteMap] and [substituteSlice]. A string is substituted, a
    mapping is walked; a sequence is walked when it is the value of a
    key, and copied as it is when it is an element of a sequence. *)
Fixpoint substituteValue (v : t) (w : World) (value : Value) {struct value}
  : outcome Value :=
  let walkMap :=
    fix walkMap (m : list (string * Value)) : outcome (list (string * Value)) :=
      match m with
      | [] => Val []
      | (key, x) :: m' =>
          match substituteValue v w x with
          | Val x' =>
              match walkMap m' with
              | Val r => Val ((key, x') :: r)
              | Fail e => Fail e
              | Panic => Panic
              end
          | Fail e => Fail e
          | Panic => Panic
          end
      end in
  match value with
  | VString val =>
      match Substitute v w val with
      | (resolved, None) => Val (VString resolved)
      | (_, Some err) => Fail err
      end
  | VMap m =>
      match walkMap m with
      | Val r => Val (VMap r)
      | Fail e => Fail e
      | Panic => Panic
      end
  | VList items =>
      let walkSlice :=
        fix walkSlice (l : list Value) : outcome (list Value) :=
          match l with
          | [] => Val []
          | item :: l' =>
              let first :=
                match item with
                | VString val =>
                    match Substitute v w val with
                    | (resolved, None) => Val (VString resolved)
                    | (_, Some err) => Fail err
                    end
                | VMap m =>
                    match walkMap m with
                    | Val r => Val (VMap r)
                    | Fail e => Fail e
                    | Panic => Panic
                    end
                | _ => Val item
                end in
              match first with
              | Val x' =>
                  match walkSlice l' with
                  | Val r => Val (x' :: r)
                  | Fail e => Fail e
                  | Panic => Panic
                  end
              | Fail e => Fail e
              | Panic => Panic
              end
          end in
      match walkSlice items with
      | Val r => Val (VList r)
      | Fail e => Fail e
      | Panic => Panic
      end
  | _ => Val value
  end.

Definition SubstituteMap (v : t) (w : World) (params : ParamMap) : outcome ParamMap :=
  match substituteValue v w (VMap params) with
  | Val (VMap r) => Val r
  | Val _ => Val []
  | Fail e => Fail e
  | Panic => Panic
  end.
End WithHost.
End Variables.

(* ===================================================================== *)
(** * Condition evaluator (condition.go) *)
(* ===================================================================== *)

(** The one-byte strings holding a double and a single quote. *)
Definition dquote : string := String (ascii_of_nat 34) EmptyString.
Definition squote : string := String (ascii_of_nat 39) EmptyString.

Module Condition.
Definition isSome {A} (o : option A) : bool :=
  match o with Some _ => true | None => false end.

Section WithHost.
Context `{Host}.

(** The loop of [splitOnOperator] over the tokens after the first:
    [parts], [current] and [depth] are its three variables. *)
Fixpoint splitLoop (op : string) (tokens : list string)
    (parts : list string) (current : string) (depth : nat)
  : list string * string * nat :=
  match tokens with
  | [] => (parts, current, depth)
  | token :: rest =>
      let openCount := Count current "(" in
      let closeCount := Count current ")" in
      if (closeCount <? openCount)%nat then
        splitLoop op rest parts (current +:+ op +:+ token) (openCount - closeCount)%nat
      else
        splitLoop op rest (parts ++ [TrimSpace current]) token 0%nat
  end.

(** A [nil] result is the empty list. *)
Definition splitOnOperator (expr op : string) : list string :=
  match Split expr op with
  | [] => []
  | token :: rest =>
      let '(parts, current, depth) := splitLoop op rest [] token 0%nat in
      let parts :=
        if (0 <? String.length current)%nat then parts ++ [TrimSpace current]
        else parts in
      if (length parts <=? 1)%nat && Nat.eqb depth 0 then [] else parts
  end.

Definition isTruthy (val : string) : bool :=
  let val := TrimSpace (ToLower mapUnicodeLower val) in
  if String.eqb val "" then false
  else if String.eqb val "false" then false
  else if String.eqb val "0" then false
  else if String.eqb val "no" then false
  else if String.eqb val "off" then false
  else if String.eqb val "null" then false
  else if String.eqb val "nil" then false
  else if String.eqb val "none" then false
  else true.

Definition isQuoted (ref : string) : bool :=
  (HasPrefix ref dquote && HasSuffix ref dquote)
  || (HasPrefix ref squote && HasSuffix ref squote).

Definition resolveValue (c : Variables.t) (w : World) (ref : string) : outcome string :=
  let ref := TrimSpace ref in
  (* string literal (quoted) *)
  if isQuoted ref then
    match slice ref 1 (String.length ref - 1) with
    | Some lit => Val lit
    | None => Panic
    end
  (* numeric literal *)
  else if isSome (ParseFloat ref) then Val ref
  else if String.eqb ref "platform" then Val GOOS
  else if String.eqb ref "arch" then Val GOARCH
  (* environment variable: env.VAR_NAME *)
  else if HasPrefix ref "env." then
    let envName := TrimPrefix ref "env." in
    match Variables.Get c ("env." +:+ envName) with
    | Some val => Val val
    | None =>
        let '(val, _) := Variables.Substitute c w ("{{ env." +:+ envName +:+ " }}") in
        if negb (String.eqb val ("{{ env." +:+ envName +:+ " }}")) then Val val
        else Val ""
    end
  else
    (* regular variable lookup; an unknown reference is the empty string *)
    let lookup :=
      match Variables.Get c ref with
      | Some val => Val val
      | None => Val ""
      end in
    (* task result reference: result_name.property *)
    if Contains ref "." then
      match SplitN2 ref "." with
      | [taskName; property] =>
          match Variables.GetTaskResult c taskName with
          | Some result =>
              if String.eqb property "stdout" then Val (TaskResult.Stdout result)
              else if String.eqb property "stderr" then Val (TaskResult.Stderr result)
              else if String.eqb property "exit_code" then
                Val (Itoa (TaskResult.ExitCode result))
              else if String.eqb property "status" then
                Val (TaskStatus_string (TaskResult.Status result))
              else if String.eqb property "changed" then
                Val (Variables.FormatBool (TaskResult.Changed result))
              else Fail (Errorf ("unknown task result property: " +:+ property))
          | None => lookup
          end
      | _ => lookup
      end
    else lookup.

(** One [if strings.Contains(expression, op)] block of
    [evaluateComparison]: [None] when the block is not entered. *)
Definition comparison (c : Variables.t) (w : World) (expression op : string)
    (test : string -> string -> outcome bool) : option (outcome bool) :=
  if Contains expression op then
    match SplitN2 expression op with
    | [l; r] =>
        Some match resolveValue c w (TrimSpace l) with
             | Val left_ =>
                 match resolveValue c w (TrimSpace r) with
                 | Val right_ => test left_ right_
                 | Fail e => Fail e
                 | Panic => Panic
                 end
             | Fail e => Fail e
             | Panic => Panic
             end
    | _ => None
    end
  else None.

Definition numeric (expression : string) (cmp : spec_float -> spec_float -> bool)
    (leftStr rightStr : string) : outcome bool :=
  match ParseFloat leftStr, ParseFloat rightStr with
  | Some left_, Some right_ => Val (cmp left_ right_)
  | _, _ => Fail (Errorf ("numeric comparison requires numeric values: " +:+ expression))
  end.

Definition otherwise {A} (x : option A) (y : A) : A :=
  match x with Some a => a | None => y end.

Definition evaluateComparison (c : Variables.t) (w : World) (expression : string)
  : outcome bool :=
  otherwise (comparison c w expression " not contains "
            (fun left_ right_ => Val (negb (Contains left_ right_)))) (
  otherwise (comparison c w expression " contains "
            (fun left_ right_ => Val (Contains left_ right_))) (
  otherwise (comparison c w expression " != "
            (fun left_ right_ => Val (negb (String.eqb left_ right_)))) (
  otherwise (comparison c w expression " == "
            (fun left_ right_ => Val (String.eqb left_ right_))) (
  otherwise (comparison c w expression " >= "
            (numeric expression (fun left_ right_ => SFleb right_ left_))) (
  otherwise (comparison c w expression " <= "
            (numeric expression (fun left_ right_ => SFleb left_ right_))) (
  otherwise (comparison c w expression " > "
            (numeric expression (fun left_ right_ => SFltb right_ left_))) (
  otherwise (comparison c w expression " < "
            (numeric expression (fun left_ right_ => SFltb left_ right_))) (
  (* single value: truthiness *)
  match resolveValue c w expression with
  | Val val => Val (isTruthy val)
  | Fail e => Fail e
  | Panic => Panic
  end)))))))).

(** The [and] loop: every part is evaluated until one is false or fails. *)
Fixpoint allParts (ev : string -> option (outcome bool)) (parts : list string)
  : option (outcome bool) :=
  match parts with
  | [] => Some (Val true)
  | part :: rest =>
      match ev part with
      | None => None
      | Some (Val true) => allParts ev rest
      | Some (Val false) => Some (Val false)
      | Some (Fail e) => Some (Fail e)
      | Some Panic => Some Panic
      end
  end.

(** The [or] loop: every part is evaluated until one is true or fails. *)
Fixpoint anyPart (ev : string -> option (outcome bool)) (parts : list string)
  : option (outcome bool) :=
  match parts with
  | [] => Some (Val false)
  | part :: rest =>
      match ev part with
      | None => None
      | Some (Val true) => Some (Val true)
      | Some (Val false) => anyPart ev rest
      | Some (Fail e) => Some (Fail e)
      | Some Panic => Some Panic
      end
  end.

(** [Evaluate] calls itself on parts of the expression; [fuel] bounds the
    depth of these calls and [None] is its exhaustion. *)
Fixpoint evaluate (fuel : nat) (c : Variables.t) (w : World) (expression : string)
  : option (outcome bool) :=
  match fuel with
  | O => None
  | S fuel' =>
      let expression := TrimSpace expression in
      if String.eqb expression "" then Some (Val true)
      else if String.eqb expression "true" then Some (Val true)
      else if String.eqb expression "false" then Some (Val false)
      else if (1 <? length (splitOnOperator expression " and "))%nat then
        allParts (evaluate fuel' c w) (splitOnOperator expression " and ")
      else if (1 <? length (splitOnOperator expression " or "))%nat then
        anyPart (evaluate fuel' c w) (splitOnOperator expression " or ")
      else if HasPrefix expression "(" && HasSuffix expression ")" then
        match slice expression 1 (String.length expression - 1) with
        | Some inner => evaluate fuel' c w inner
        | None => Some Panic
        end
      else if HasPrefix expression "not " then
        match evaluate fuel' c w (TrimPrefix expression "not ") with
        | Some (Val result) => Some (Val (negb result))
        | r => r
        end
      else Some (evaluateComparison c w expression)
  end.

(** Every call is on a shorter string, so one more unit of fuel than the
    expression has bytes is enough ([evaluate_fuel] below). *)
Definition Evaluate (c : Variables.t) (w : World) (expression : string) : outcome bool :=
  match evaluate (S (String.length expression)) c w expression with
  | Some r => r
  | None => Panic
  end.

Definition isValidIdentifier (s : string) : bool :=
  let s := TrimSpace s in
  if String.eqb s "" then false
  else if isQuoted s then true
  else if isSome (ParseFloat s) then true
  else match bytesOf s with
       | [] => false
       | c :: r => Variables.identStart c && forallb Variables.varChar r
       end.

(** Whether [validOperatorPattern] matches somewhere in the expression. *)
Definition hasOperator (expression : string) : bool :=
  Contains expression "==" || Contains expression "!=" || Contains expression ">="
  || Contains expression "<=" || Contains expression ">" || Contains expression "<"
  || Contains expression " contains " || Contains expression " not contains "
  || Contains expression " and " || Contains expression " or "
  || HasPrefix expression "not ".

Definition ValidateCondition (expression : string) : option Error :=
  let expression := TrimSpace expression in
  if String.eqb expression "" || String.eqb expression "true"
     || String.eqb expression "false" then None
  else if negb (Nat.eqb (Count expression "(") (Count expression ")")) then
    Some (Errorf ("unbalanced parentheses in condition: " +:+ expression))
  else if negb (hasOperator expression) && negb (isValidIdentifier expression) then
    Some (Errorf ("invalid condition syntax: " +:+ expression))
  else None.
End WithHost.
End Condition.

(* ===================================================================== *)
(** * Parser and schema validator (parser.go) *)
(* ===================================================================== *)

Module Parser.
Record t : Type := mk { platform : string }.

Section WithHost.
Context `{Host}.

Definition NewParser : t :=
  if String.eqb GOOS "windows" || String.eqb GOOS "linux" || String.eqb GOOS "darwin"
  then mk GOOS
  else if Contains GOOS "android" then mk PlatformAndroid
  else mk GOOS.

Definition isSupportedVersion (version : string) : bool :=
  String.eqb version SchemaVersion || String.eqb version "1" || String.eqb version "1.0".

Definition isValidPlatform (plat : string) : bool :=
  String.eqb plat PlatformWindows || String.eqb plat PlatformLinux
  || String.eqb plat PlatformDarwin || String.eqb plat PlatformAndroid.

Definition isPlatformSupported (p : t) (platforms : list string) : bool :=
  existsb (fun plat => String.eqb plat (platform p)) platforms.

Definition isValidAction (action : string) : bool :=
  existsb (String.eqb action)
    [ActionCommand; ActionFile; ActionLineinfile; ActionEnv; ActionService;
     ActionRegistry; ActionSysctl; ActionDefaults; ActionSettings; ActionPackage].

Definition validateActionPlatform (p : t) (action taskPlatform : string) : option Error :=
  let plat := if String.eqb taskPlatform "" then platform p else taskPlatform in
  if String.eqb action ActionRegistry then
    if negb (String.eqb plat PlatformWindows)
    then Some (Errorf "registry action is only available on Windows") else None
  else if String.eqb action ActionSysctl then
    if negb (String.eqb plat PlatformLinux)
    then Some (Errorf "sysctl action is only available on Linux") else None
  else if String.eqb action ActionDefaults then
    if negb (String.eqb plat PlatformDarwin)
    then Some (Errorf "defaults action is only available on macOS") else None
  else if String.eqb action ActionSettings || String.eqb action ActionPackage then
    if negb (String.eqb plat PlatformAndroid)
    then Some (Errorf (action +:+ " action is only available on Android")) else None
  else None.

Definition requireParam (params : ParamMap) (fieldPrefix action key : string)
  : option Error :=
  match param params key with
  | Some _ => None
  | None =>
      Some (ValidationError (fieldPrefix +:+ ".params." +:+ key)
              (action +:+ " action requires '" +:+ key +:+ "' parameter"))
  end.

Definition firstError (a b : option Error) : option Error :=
  match a with Some e => Some e | None => b end.

Definition validateActionParams (action : string) (params : ParamMap)
    (fieldPrefix : string) : option Error :=
  if String.eqb action ActionCommand then requireParam params fieldPrefix "command" "command"
  else if String.eqb action ActionFile then requireParam params fieldPrefix "file" "path"
  else if String.eqb action ActionRegistry then
    requireParam params fieldPrefix "registry" "path"
  else if String.eqb action ActionSysctl then requireParam params fieldPrefix "sysctl" "name"
  else if String.eqb action ActionDefaults then
    firstError (requireParam params fieldPrefix "defaults" "domain")
               (requireParam params fieldPrefix "defaults" "key")
  else if String.eqb action ActionSettings then
    firstError (requireParam params fieldPrefix "settings" "namespace")
               (requireParam params fieldPrefix "settings" "key")
  else if String.eqb action ActionEnv then requireParam params fieldPrefix "env" "name"
  else if String.eqb action ActionService then
    requireParam params fieldPrefix "service" "name"
  else if String.eqb action ActionLineinfile then
    requireParam params fieldPrefix "lineinfile" "path"
  else if String.eqb action ActionPackage then
    requireParam params fieldPrefix "package" "name"
  else None.

Definition validateTask (p : t) (task : Task.t) (index : nat) : option Error :=
  let fieldPrefix := "tasks[" +:+ Itoa (Z.of_nat index) +:+ "]" in
  if String.eqb (Task.Name task) "" then
    Some (ValidationError (fieldPrefix +:+ ".name") "task name is required")
  else if String.eqb (Task.Action task) "" then
    Some (ValidationError (fieldPrefix +:+ ".action") "task action is required")
  else if negb (isValidAction (Task.Action task)) then
    Some (ValidationError (fieldPrefix +:+ ".action")
            ("unknown action '" +:+ Task.Action task +:+ "'"))
  else
    match validateActionPlatform p (Task.Action task) (Task.Platform task) with
    | Some err => Some (ValidationError (fieldPrefix +:+ ".action") (Error_text err))
    | None =>
        match validateActionParams (Task.Action task) (Task.Params task) fieldPrefix with
        | Some err => Some err
        | None =>
            if Task.Retries task <? 0 then
              Some (ValidationError (fieldPrefix +:+ ".retries")
                      "retries cannot be negative")
            else if Task.RetryDelay task <? 0 then
              Some (ValidationError (fieldPrefix +:+ ".retry_delay")
                      "retry_delay cannot be negative")
            else None
        end
    end.

(** [for i, task := range tasks]: the first error, wrapped by [wrap]. *)
Fixpoint validateEach (p : t) (wrap : nat -> Error -> Error) (tasks : list Task.t)
    (i : nat) : option Error :=
  match tasks with
  | [] => None
  | task :: rest =>
      match validateTask p task i with
      | Some err => Some (wrap i err)
      | None => validateEach p wrap rest (S i)
      end
  end.

(** [Validate] writes the default version into the playbook it checks:
    the playbook after the call, and the error. *)
Definition Validate (p : t) (pb : Playbook.t) : Playbook.t * option Error :=
  let pb :=
    if String.eqb (Playbook.Version pb) "" then Playbook.with_Version pb SchemaVersion
    else pb in
  (pb,
   if negb (isSupportedVersion (Playbook.Version pb)) then
     Some (ValidationError "version"
             ("version '" +:+ Playbook.Version pb +:+ "' is not supported, expected '"
              +:+ SchemaVersion +:+ "'"))
   else if String.eqb (Playbook.Name pb) "" then
     Some (ValidationError "name" "playbook name is required")
   else if Nat.eqb (length (Playbook.Tasks pb)) 0 then
     Some (ValidationError "tasks" "playbook must have at least one task")
   else
     let platformError :=
       if (0 <? length (Playbook.Platforms pb))%nat then
         match find (fun plat => negb (isValidPlatform plat)) (Playbook.Platforms pb) with
         | Some plat =>
             Some (ValidationError "platforms" ("invalid platform '" +:+ plat +:+ "'"))
         | None =>
             if negb (isPlatformSupported p (Playbook.Platforms pb)) then
               Some (ValidationError "platforms"
                       ("playbook does not support platform '" +:+ platform p +:+ "'"))
             else None
         end
       else None in
     match platformError with
     | Some err => Some err
     | None =>
         match validateEach p (fun _ err => err) (Playbook.Tasks pb) 0 with
         | Some err => Some err
         | None =>
             validateEach p
               (fun i err =>
                  ValidationError ("handlers[" +:+ Itoa (Z.of_nat i) +:+ "]")
                    (Error_text err))
               (Playbook.Handlers pb) 0
         end
     end).

Definition Parse (p : t) (content : string) : outcome Playbook.t :=
  match yamlUnmarshal content with
  | inl err => Fail (ParseError ("YAML parse failed: " +:+ err) ErrInvalidYAML)
  | inr pb =>
      match Validate p pb with
      | (_, Some err) => Fail err
      | (pb', None) => Val pb'
      end
  end.
End WithHost.
End Parser.

(* ===================================================================== *)
(** * Executor (executor.go) *)
(* ===================================================================== *)

(** A call that returns unless a callee panics. *)
Inductive run (A : Type) : Type :=
| Done (a : A)
| Panicked.
Arguments Done {A} a.
Arguments Panicked {A}.

Module Executor.
Module R := ExecutionReport.

(** What the executor calls outside itself: the progress callback and the
    [Execute] method of an action handler. *)
Inductive Event : Type :=
| Progress (taskName : string) (status : TaskStatus)
| HandlerExecute (action : string) (params : ParamMap).

Section WithHost.
Context `{Host}.

(** The [ActionHandler] interface. [Execute] returns the two results of
    the Go method and the world it leaves. *)
Record ActionHandler : Type := {
  Execute_ : Context -> ParamMap -> Variables.t -> World
             -> (option TaskResult.t * option Error) * World;
  Supports : list string;
  Validate_ : ParamMap -> option Error
}.

Record t : Type := mk {
  verifier : Verifier.t;
  parser : Parser.t;
  handlers : gmap string ActionHandler;
  platform : string;
  deviceID : string;
  onProgress : option (string -> TaskStatus -> World -> World)
}.

Record ExecutorConfig : Type := {
  ServerPublicKey : bytes;
  DeviceID : string;
  OnProgress : option (string -> TaskStatus -> World -> World)
}.

Definition NewExecutor (config : ExecutorConfig) : outcome t :=
  match Verifier.NewVerifier (ServerPublicKey config) with
  | Val v => Val (mk v Parser.NewParser ∅ GOOS (DeviceID config) (OnProgress config))
  | Fail _ => Fail (Errorf ("failed to create verifier: "
                             +:+ Error_text ErrInvalidPublicKey))
  | Panic => Panic
  end.

Definition RegisterHandler (e : t) (actionType : string) (handler : ActionHandler) : t :=
  mk (verifier e) (parser e) (<[actionType := handler]> (handlers e)) (platform e)
     (deviceID e) (onProgress e).

(** The state an execution threads: the world and the calls made so far,
    oldest first. *)
Record State : Type := mkState { world : World; trace : list Event }.

(** [if e.onProgress != nil { e.onProgress(name, status) }] *)
Definition progress (e : t) (taskName : string) (status : TaskStatus) (st : State)
  : State :=
  match onProgress e with
  | Some callback =>
      mkState (callback taskName status (world st)) (trace st ++ [Progress taskName status])
  | None => st
  end.

(** [int] is 64 bits wide. *)
Definition wrap64 (z : Z) : Z := (z + 2 ^ 63) mod 2 ^ 64 - 2 ^ 63.

(** How the retry loop of [executeTask] ends: by a [return] in its body,
    or by running out of attempts. *)
Inductive LoopEnd : Type :=
| Returned (result : TaskResult.t) (st : State)
| Exhausted (result : TaskResult.t) (lastErr : option Error) (st : State).

(** [for attempt := 1; attempt <= maxAttempts; attempt++], with [n] the
    number of iterations left. *)
Fixpoint attempts (e : t) (ctx : Context) (handler : ActionHandler) (task : Task.t)
    (params : ParamMap) (vars : Variables.t) (n : nat) (attempt maxAttempts : Z)
    (result : TaskResult.t) (lastErr : option Error) (st : State) : LoopEnd :=
  match n with
  | O => Exhausted result lastErr st
  | S n' =>
      let result := TaskResult.with_Status result TaskStatusRunning in
      let '(ret, w1) := Execute_ handler ctx params vars (world st) in
      let st := mkState w1 (trace st ++ [HandlerExecute (Task.Action task) params]) in
      match ret with
      | (Some execResult, None) =>
          let result :=
            TaskResult.mk (TaskResult.TaskName result) (TaskResult.TaskID result)
              TaskStatusCompleted (TaskResult.Changed execResult)
              (TaskResult.Stdout execResult) (TaskResult.Stderr execResult)
              (TaskResult.ExitCode execResult) (TaskResult.Error result)
              (TaskResult.Message execResult) (TaskResult.ResultMeta result) in
          Returned result (progress e (Task.Name task) TaskStatusCompleted st)
      | (execResult, execErr) =>
          let lastErr := execErr in
          let result :=
            match execResult with
            | Some r =>
                TaskResult.with_Output result (TaskResult.Stdout r) (TaskResult.Stderr r)
                  (TaskResult.ExitCode r)
            | None => result
            end in
          if (attempt <? maxAttempts) && (0 <? Task.RetryDelay task) then
            let '(cancelled, w2) := waitOrDone ctx (Task.RetryDelay task) (world st) in
            let st := mkState w2 (trace st) in
            if cancelled then
              Returned (TaskResult.with_Error
                          (TaskResult.with_Status result TaskStatusFailed)
                          "cancelled during retry delay") st
            else attempts e ctx handler task params vars n' (attempt + 1) maxAttempts
                   result lastErr st
          else attempts e ctx handler task params vars n' (attempt + 1) maxAttempts
                 result lastErr st
      end
  end.

Fixpoint executeTask (e : t) (ctx : Context) (task : Task.t) (vars : Variables.t)
    (st : State) {struct task} : run (TaskResult.t * State) :=
  let result :=
    TaskResult.mk (Task.Name task) (Task.ID task) TaskStatusPending false "" "" 0 "" ""
      (Task.Result task) in
  (* report progress *)
  let st := progress e (Task.Name task) TaskStatusRunning st in
  (* platform filter *)
  if negb (String.eqb (Task.Platform task) "")
     && negb (String.eqb (Task.Platform task) (platform e)) then
    Done (TaskResult.with_Message (TaskResult.with_Status result TaskStatusSkipped)
            ("Skipped: platform filter '" +:+ Task.Platform task
             +:+ "' doesn't match '" +:+ platform e +:+ "'"), st)
  else
    (* condition *)
    let cond :=
      if negb (String.eqb (Task.When task) "")
      then Condition.Evaluate vars (world st) (Task.When task)
      else Val true in
    match cond with
    | Panic => Panicked
    | Fail err =>
        Done (TaskResult.with_Error (TaskResult.with_Status result TaskStatusFailed)
                ("condition evaluation failed: " +:+ Error_text err), st)
    | Val false =>
        Done (TaskResult.with_Message (TaskResult.with_Status result TaskStatusSkipped)
                ("Skipped: condition '" +:+ Task.When task +:+ "' evaluated to false"),
              st)
    | Val true =>
        (* handler lookup *)
        match handlers e !! Task.Action task with
        | None =>
            Done (TaskResult.with_Error (TaskResult.with_Status result TaskStatusFailed)
                    ("no handler registered for action '" +:+ Task.Action task +:+ "'"),
                  st)
        | Some handler =>
            (* platform support *)
            if negb (existsb (fun p => String.eqb p (platform e) || String.eqb p "all")
                       (Supports handler)) then
              Done (TaskResult.with_Error
                      (TaskResult.with_Status result TaskStatusFailed)
                      ("action '" +:+ Task.Action task +:+ "' does not support platform '"
                       +:+ platform e +:+ "'"), st)
            else
              (* variable substitution *)
              match Variables.SubstituteMap vars (world st) (Task.Params task) with
              | Panic => Panicked
              | Fail err =>
                  Done (TaskResult.with_Error
                          (TaskResult.with_Status result TaskStatusFailed)
                          ("variable substitution failed: " +:+ Error_text err), st)
              | Val params =>
                  (* execute with retries *)
                  let maxAttempts := wrap64 (Task.Retries task + 1) in
                  match attempts e ctx handler task params vars (Z.to_nat maxAttempts)
                          1 maxAttempts result None st with
                  | Returned result st => Done (result, st)
                  | Exhausted result lastErr st =>
                      (* all retries exhausted *)
                      let result := TaskResult.with_Status result TaskStatusFailed in
                      let result :=
                        TaskResult.with_Error result
                          match lastErr with
                          | Some err => Error_text err
                          | None => "task failed after all retries"
                          end in
                      (* rollback if defined *)
                      let afterRollback :=
                        match Task.Rollback task with
                        | Some rollback =>
                            match executeTask e ctx rollback vars st with
                            | Panicked => Panicked
                            | Done (rollbackResult, st) =>
                                if decide (TaskResult.Status rollbackResult
                                           = TaskStatusFailed) then
                                  Done (TaskResult.with_Error result
                                          (TaskResult.Error result
                                           +:+ " (rollback also failed: "
                                           +:+ TaskResult.Error rollbackResult +:+ ")"),
                                        st)
                                else
                                  Done (TaskResult.with_Message result
                                          "Rollback executed successfully", st)
                            end
                        | None => Done (result, st)
                        end in
                      match afterRollback with
                      | Panicked => Panicked
                      | Done (result, st) =>
                          Done (result, progress e (Task.Name task) TaskStatusFailed st)
                      end
                  end
              end
        end
    end.

(** ** [Execute] *)

(** [for _, handlerName := range task.Notify] *)
Definition markNotified (notifiedHandlers : gmap string bool) (task : Task.t)
    (result : TaskResult.t) : gmap string bool :=
  fold_left
    (fun m handlerName =>
       if TaskResult.Changed result then <[handlerName := true]> m else m)
    (Task.Notify task) notifiedHandlers.

(** [playbook.OnError == nil || playbook.OnError.Strategy == "stop"] *)
Definition stopsOnError (playbook : Playbook.t) : bool :=
  match Playbook.OnError playbook with
  | None => true
  | Some h => String.eqb (ErrorHandler.Strategy h) "stop"
  end.

(** How the task loop of [Execute] ends. *)
Inductive TaskLoopEnd : Type :=
| LoopReturn (report : R.t) (err : Error) (st : State)
| LoopDone (report : R.t) (vars : Variables.t)
    (notifiedHandlers : gmap string bool) (st : State).

Fixpoint taskLoop (e : t) (ctx : Context) (playbook : Playbook.t) (tasks : list Task.t)
    (report : R.t) (vars : Variables.t)
    (notifiedHandlers : gmap string bool) (st : State) : run TaskLoopEnd :=
  match tasks with
  | [] => Done (LoopDone report vars notifiedHandlers st)
  | task :: rest =>
      if ctx (world st) then
        Done (LoopReturn (R.setStatus report "cancelled")
                ErrContext st)
      else
        match executeTask e ctx task vars st with
        | Panicked => Panicked
        | Done (result, st) =>
            let report := R.appendResult report result in
            let next report notifiedHandlers :=
              let vars :=
                if negb (String.eqb (Task.Register task) "")
                then Variables.SetTaskResult vars (Task.Register task) result
                else vars in
              taskLoop e ctx playbook rest report vars notifiedHandlers st in
            match TaskResult.Status result with
            | TaskStatusCompleted =>
                next (R.setCounters report (R.TasksCompleted report + 1)
                        (R.TasksFailed report) (R.TasksSkipped report))
                     (markNotified notifiedHandlers task result)
            | TaskStatusFailed =>
                let report :=
                  R.setCounters report (R.TasksCompleted report) (R.TasksFailed report + 1)
                    (R.TasksSkipped report) in
                if negb (Task.IgnoreErrors task) && stopsOnError playbook then
                  Done (LoopReturn (R.setOutcome report "failed" (TaskResult.Error result))
                          (Errorf ("task '" +:+ Task.Name task +:+ "' failed: "
                                   +:+ TaskResult.Error result)) st)
                else next report notifiedHandlers
            | TaskStatusSkipped =>
                next (R.setCounters report (R.TasksCompleted report) (R.TasksFailed report)
                        (R.TasksSkipped report + 1))
                     notifiedHandlers
            | _ => next report notifiedHandlers
            end
        end
  end.

(** STEP 5: the handlers whose name was notified, in the order of the
    list. *)
Fixpoint handlerLoop (e : t) (ctx : Context) (hs : list Task.t)
    (report : R.t) (vars : Variables.t)
    (notifiedHandlers : gmap string bool) (st : State)
  : run (R.t * State) :=
  match hs with
  | [] => Done (report, st)
  | handler :: rest =>
      if default false (notifiedHandlers !! Task.Name handler) then
        match executeTask e ctx handler vars st with
        | Panicked => Panicked
        | Done (result, st) =>
            let report := R.appendResult report result in
            let report :=
              if bool_decide (TaskResult.Status result = TaskStatusFailed)
                 && negb (Task.IgnoreErrors handler)
              then R.setCounters report (R.TasksCompleted report) (R.TasksFailed report + 1)
                     (R.TasksSkipped report)
              else report in
            handlerLoop e ctx rest report vars notifiedHandlers st
        end
      else handlerLoop e ctx rest report vars notifiedHandlers st
  end.

Definition Execute (e : t) (ctx : Context) (sp : SignedPlaybook.t) (st : State)
  : run (R.t * option Error * State) :=
  (* STEP 1: security verification *)
  let '(verificationRecord, verifyErr) := Verifier.Verify (verifier e) sp in
  let report :=
    R.mk (SignedPlaybook.PlaybookID sp) "" (deviceID e) verificationRecord "pending"
       0 0 0 0 [] "" false in
  match verifyErr with
  | Some err =>
      Done (R.setOutcome report "rejected" ("SECURITY: " +:+ Error_text err), Some err, st)
  | None =>
      (* STEP 2: parse the verified content *)
      match Parser.Parse (parser e) (SignedPlaybook.Content sp) with
      | Panic => Panicked
      | Fail parseErr =>
          Done (R.setOutcome report "failed" ("Parse error: " +:+ Error_text parseErr),
                Some parseErr, st)
      | Val playbook =>
          let report := R.setPlaybookName report (Playbook.Name playbook) in
          (* STEP 3: platform compatibility *)
          if (0 <? length (Playbook.Platforms playbook))%nat
             && negb (existsb (fun p => String.eqb p (platform e))
                        (Playbook.Platforms playbook)) then
            Done (R.setOutcome report "rejected"
                    ("Platform '" +:+ platform e +:+ "' not supported by this playbook"),
                  Some ErrPlatformMismatch, st)
          else
            (* STEP 4: execute tasks *)
            let report := R.setStatus report "running" in
            let report :=
              R.setTasksTotal report (Z.of_nat (length (Playbook.Tasks playbook))) in
            let vars :=
              Variables.SetUserVars (Variables.NewVariables (world st)) (world st)
                (Playbook.Variables playbook) in
            match taskLoop e ctx playbook (Playbook.Tasks playbook) report vars ∅ st with
            | Panicked => Panicked
            | Done (LoopReturn report err st) => Done (report, Some err, st)
            | Done (LoopDone report vars notifiedHandlers st) =>
                match handlerLoop e ctx (Playbook.Handlers playbook) report vars
                        notifiedHandlers st with
                | Panicked => Panicked
                | Done (report, st) =>
                    (* STEP 6: complete *)
                    let report := R.setStatus report "completed" in
                    Done (R.setRebootRequired report (Playbook.RequiresReboot playbook),
                          None, st)
                end
            end
      end
  end.

(** ** [DryRun] *)

(** One iteration of the simulation loop: the simulated result and the
    number of issues it adds to [TasksFailed]. *)
Definition simulateTask (e : t) (task : Task.t) : TaskResult.t * Z :=
  let simResult :=
    TaskResult.mk (Task.Name task) (Task.ID task) TaskStatusPending false "" "" 0 "" ""
      None in
  let '(simResult, failed) :=
    if negb (String.eqb (Task.Platform task) "")
       && negb (String.eqb (Task.Platform task) (platform e)) then
      (TaskResult.with_Message (TaskResult.with_Status simResult TaskStatusSkipped)
         "Would skip: platform filter", 0)
    else if negb (String.eqb (Task.When task) "") then
      match Condition.ValidateCondition (Task.When task) with
      | Some err =>
          (TaskResult.with_Error (TaskResult.with_Status simResult TaskStatusFailed)
             ("Invalid condition: " +:+ Error_text err), 1)
      | None =>
          (TaskResult.with_Message simResult
             ("Would execute if condition '" +:+ Task.When task +:+ "' is true"), 0)
      end
    else (TaskResult.with_Message simResult "Would execute", 0) in
  match handlers e !! Task.Action task with
  | Some _ => (simResult, failed)
  | None =>
      (TaskResult.with_Error (TaskResult.with_Status simResult TaskStatusFailed)
         ("No handler for action '" +:+ Task.Action task +:+ "'"), failed + 1)
  end.

Definition simulate (e : t) (report : R.t) (task : Task.t)
  : R.t :=
  let '(simResult, failed) := simulateTask e task in
  R.appendResult
    (R.setCounters report (R.TasksCompleted report) (R.TasksFailed report + failed)
       (R.TasksSkipped report))
    simResult.

(** [DryRun] calls neither a handler nor the progress callback: the state
    is returned as it was received. *)
Definition DryRun (e : t) (ctx : Context) (sp : SignedPlaybook.t) (st : State)
  : run (R.t * option Error * State) :=
  let '(verificationRecord, verifyErr) := Verifier.Verify (verifier e) sp in
  let report :=
    R.mk (SignedPlaybook.PlaybookID sp) "" (deviceID e) verificationRecord "dry_run"
       0 0 0 0 [] "" false in
  match verifyErr with
  | Some err =>
      Done (R.setOutcome report "rejected" ("SECURITY: " +:+ Error_text err), Some err, st)
  | None =>
      match Parser.Parse (parser e) (SignedPlaybook.Content sp) with
      | Panic => Panicked
      | Fail parseErr =>
          Done (R.setOutcome report "failed" ("Parse error: " +:+ Error_text parseErr),
                Some parseErr, st)
      | Val playbook =>
          let report := R.setPlaybookName report (Playbook.Name playbook) in
          let report :=
            R.setTasksTotal report (Z.of_nat (length (Playbook.Tasks playbook))) in
          let report := fold_left (simulate e) (Playbook.Tasks playbook) report in
          if 0 <? R.TasksFailed report then
            Done (R.setStatus report "dry_run_failed",
                  Some (Errorf ("dry run found " +:+ Itoa (R.TasksFailed report)
                                +:+ " issues")), st)
          else Done (R.setStatus report "dry_run_ok", None, st)
      end
  end.
End WithHost.
End Executor.

(* ===================================================================== *)
(** * The [command] action handler (actions/command.go) *)
(* ===================================================================== *)

Module CommandHandler.
Section WithHost.
Context `{Host}.

Definition Supports : list string := ["all"].

Definition Validate (params : ParamMap) : option Error :=
  match param params "command" with
  | Some _ => None
  | None => Some (Errorf "command action requires 'command' parameter")
  end.

(** [fileExists]: whether [test -e path] exits with status 0. *)
Definition fileExists (path : string) (w : World) : bool * World :=
  let '(fin, w') := runProcess (fun _ => false)
                      (Process.mk "test" ["-e"; path] "" None) w in
  (negb (Condition.isSome (Process.Err fin)), w').

Definition timeoutOf (params : ParamMap) : Duration :=
  match param params "timeout" with
  | Some (VInt t) => if 0 <? t then SecondsInt t else FiveMinutes
  | Some (VFloat t) => if SFltb (S754_zero false) t then SecondsFloat t else FiveMinutes
  | _ => FiveMinutes
  end.

(** The shell and the arguments that precede the command string. *)
Definition shellOf (params : ParamMap) : string * list string :=
  let shell := default "" (paramString params "shell") in
  if String.eqb shell "" then
    if String.eqb GOOS "windows" then ("cmd", ["/C"]) else ("/bin/sh", ["-c"])
  else if String.eqb shell "powershell" || String.eqb shell "pwsh" then
    ("powershell", ["-NoProfile"; "-NonInteractive"; "-Command"])
  else if String.eqb shell "bash" then ("/bin/bash", ["-c"])
  else if String.eqb shell "cmd" then ("cmd", ["/C"])
  else (shell, ["-c"]).

(** The command the handler runs. The [environment] parameter is copied
    into a first [exec.Cmd] that is replaced before it runs; it does not
    reach the process. *)
Definition commandOf (params : ParamMap) (cmdStr : string) : Process.t :=
  let '(shell, shellArgs) := shellOf params in
  Process.mk shell (shellArgs ++ [cmdStr]) (default "" (paramString params "chdir"))
    (Some (timeoutOf params)).

Definition Execute (ctx : Context) (params : ParamMap) (vars : Variables.t) (w : World)
  : (option TaskResult.t * option Error) * World :=
  let result := TaskResult.with_Status TaskResult.zero TaskStatusRunning in
  match paramString params "command" with
  | None => ((None, Some (Errorf "command parameter must be a non-empty string")), w)
  | Some cmdStr =>
      if String.eqb cmdStr "" then
        ((None, Some (Errorf "command parameter must be a non-empty string")), w)
      else
        (* execute *)
        let '(fin, w) := runProcess ctx (commandOf params cmdStr) w in
        let result :=
          TaskResult.with_Output result (TrimSpace (Process.Stdout fin))
            (TrimSpace (Process.Stderr fin)) (TaskResult.ExitCode result) in
        match Process.Err fin with
        | Some err =>
            let exitCode :=
              match err with Process.ExitError code => code | Process.OtherError => -1 end in
            let result :=
              TaskResult.with_Output result (TaskResult.Stdout result)
                (TaskResult.Stderr result) exitCode in
            if Process.DeadlineExceeded fin then
              ((Some result,
                Some (Errorf ("command timed out after "
                              +:+ formatDuration (timeoutOf params)))), w)
            else
              match param params "fail_on_error" with
              | Some (VBool false) =>
                  ((Some (TaskResult.with_Changed
                            (TaskResult.with_Status result TaskStatusCompleted) true),
                    None), w)
              | _ =>
                  ((Some result,
                    Some (Errorf ("command failed with exit code " +:+ Itoa exitCode
                                  +:+ ": " +:+ TaskResult.Stderr result))), w)
              end
        | None =>
            let result :=
              TaskResult.with_Output result (TaskResult.Stdout result)
                (TaskResult.Stderr result) 0 in
            let result :=
              TaskResult.with_Changed
                (TaskResult.with_Status result TaskStatusCompleted) true in
            (* creates: the file is looked for after the command has run *)
            match paramString params "creates" with
            | Some creates =>
                if negb (String.eqb creates "") then
                  let '(found, w) := fileExists creates w in
                  if found then
                    ((Some (TaskResult.with_Message
                              (TaskResult.with_Changed result false)
                              ("Skipped: '" +:+ creates +:+ "' already exists")),
                      None), w)
                  else ((Some result, None), w)
                else ((Some result, None), w)
            | None => ((Some result, None), w)
            end
        end
  end.

Definition handler : Executor.ActionHandler :=
  {| Executor.Execute_ := Execute;
     Executor.Supports := Supports;
     Executor.Validate_ := Validate |}.
End WithHost.
End CommandHandler.

(* ===================================================================== *)
(** * A Linux host for the examples *)
(* ===================================================================== *)

(** The examples run on one concrete host: a Linux machine with an empty
    environment, on which a process is recorded when it runs. The decoder
    knows the documents of the examples; the signature check accepts the
    signature [issued] for a digest under the [pinned] key, as the control
    plane issues it. *)
Module Example.

Record world : Type := mkWorld {
  processes : list Process.t;   (* the processes run so far, oldest first *)
  cancelled : bool              (* whether the context is done *)
}.

Definition boot : world := mkWorld [] false.

(** Decimal literals of at most fifteen digits, the numbers of the examples;
    the quotient of two integers that binary64 holds exactly is rounded
    once, as [strconv] does. *)
Definition digitsValue (l : bytes) : Z :=
  fold_left (fun acc c => 10 * acc + (Z.of_N (code c) - 48)) l 0.

Definition parseDecimal (s : string) : option spec_float :=
  let l := bytesOf s in
  let '(neg, l) :=
    match l with
    | c :: r => if Ascii.eqb c "-" then (true, r)
                else if Ascii.eqb c "+" then (false, r) else (false, l)
    | [] => (false, l)
    end in
  let '(ip, r) := Variables.spanWhile Variables.isDigit l in
  let '(fp, r') :=
    match r with
    | c :: r1 => if Ascii.eqb c "." then Variables.spanWhile Variables.isDigit r1
                 else ([], r)
    | [] => ([], r)
    end in
  match r' with
  | _ :: _ => None
  | [] =>
      if Nat.eqb (length ip + length fp) 0 || (15 <? length ip + length fp)%nat then None
      else Some (SFdiv 53 1024
                   (binary_normalize 53 1024 (digitsValue (ip ++ fp)) 0 neg)
                   (binary_normalize 53 1024 (10 ^ Z.of_nat (length fp)) 0 false))
  end.

(** The paths that exist on the machine. *)
Definition existing : list string := ["/"; "/etc"; "/tmp"].

(** A process is recorded and ends at once: [test -e p] succeeds when [p]
    exists, a shell command fails with status 1 when it is [exit 1] and
    succeeds otherwise. *)
Definition spawn (ctx : world -> bool) (p : Process.t) (w : world)
  : Process.Finished * world :=
  let w' := mkWorld (processes w ++ [p]) (cancelled w) in
  let ok := Process.mkFinished "" "" None false in
  let failed := Process.mkFinished "" "" (Some (Process.ExitError 1)) false in
  if String.eqb (Process.Path p) "test" then
    match Process.Args p with
    | [_; path] => if existsb (String.eqb path) existing then (ok, w') else (failed, w')
    | _ => (failed, w')
    end
  else
    match last (Process.Args p) with
    | Some cmd => if String.eqb cmd "exit 1" then (failed, w') else (ok, w')
    | None => (ok, w')
    end.

(** ** The documents the decoder knows *)

Definition commandTask (name command : string) (notify : list string) : Task.t :=
  Task.mk name "" "" "" "command" [("command", VString command)] "" None false 0 0
    notify None.

Definition playbook (name : string) (platforms : list string) (tasks handlers : list Task.t)
    (onError : option ErrorHandler.t) : Playbook.t :=
  Playbook.mk "1.0" name "" "" platforms "" false false [] tasks handlers onError None.

(** S8: a playbook for Windows only. *)
Definition windowsOnlyYAML : string :=
  "{version: '1.0', name: mismatch, platforms: [windows], " +:+
  "tasks: [{name: noop, action: command, params: {command: 'true'}}]}".
Definition windowsOnly : Playbook.t :=
  playbook "mismatch" ["windows"] [commandTask "noop" "true" []] [] None.

(** A failing task followed by another one, under strategy [rollback]. *)
Definition rollbackYAML : string :=
  "{version: '1.0', name: strategy, on_error: {strategy: rollback}, " +:+
  "tasks: [{name: first, action: command, params: {command: 'exit 1'}}, " +:+
  "{name: second, action: command, params: {command: 'true'}}]}".
Definition rollbackStrategy : Playbook.t :=
  playbook "strategy" []
    [commandTask "first" "exit 1" []; commandTask "second" "true" []] []
    (Some (ErrorHandler.mk "rollback" false "")).

(** A task that notifies a handler, followed by a failing task. *)
Definition notifyYAML : string :=
  "{version: '1.0', name: notify, " +:+
  "tasks: [{name: write, action: command, params: {command: 'true'}, notify: [reload]}, " +:+
  "{name: break, action: command, params: {command: 'exit 1'}}], " +:+
  "handlers: [{name: reload, action: command, params: {command: 'true'}}]}".
Definition notifyThenFail : Playbook.t :=
  playbook "notify" []
    [commandTask "write" "true" ["reload"]; commandTask "break" "exit 1" []]
    [commandTask "reload" "true" []] None.

(** Two handlers of one name, both notified by the only task. *)
Definition twinsYAML : string :=
  "{version: '1.0', name: twins, " +:+
  "tasks: [{name: write, action: command, params: {command: 'true'}, notify: [reload]}], " +:+
  "handlers: [{name: reload, action: command, params: {command: 'true'}}, " +:+
  "{name: reload, action: command, params: {command: 'true'}}]}".
Definition twins : Playbook.t :=
  playbook "twins" [] [commandTask "write" "true" ["reload"]]
    [commandTask "reload" "true" []; commandTask "reload" "true" []] None.

Definition documents : list (string * Playbook.t) :=
  [(windowsOnlyYAML, windowsOnly); (rollbackYAML, rollbackStrategy);
   (notifyYAML, notifyThenFail); (twinsYAML, twins)].

Definition unmarshal (content : string) : string + Playbook.t :=
  match find (fun d => String.eqb (fst d) content) documents with
  | Some d => inr (snd d)
  | None => inl "yaml: unmarshal errors"
  end.

(** ** Digest and signature *)

(** The 32 bytes that stand for the digest of a content: its length and
    its first bytes. *)
Definition digest (content : string) : bytes :=
  take 32 (ascii_of_nat (String.length content mod 256) :: bytesOf content
           ++ repeat zero 32).

Definition pinned : bytes := repeat (ascii_of_nat 7) 32.
Definition issued (message : bytes) : bytes := rev message ++ message.

Definition verify (publicKey message sig : bytes) : bool :=
  bool_decide (publicKey = pinned) && bool_decide (sig = issued message).

#[export] Instance linux : Host := {|
  World := world;
  GOOS := "linux";
  GOARCH := "amd64";
  ParseFloat := parseDecimal;
  mapUnicodeLower := fun s => s;
  Sum256 := digest;
  ed25519Verify := verify;
  yamlUnmarshal := unmarshal;
  Getenv := fun _ _ => "";
  Hostname := fun _ => Some "device-1";
  TempDir := fun _ => "/tmp";
  Separator := "/";
  Join := String.concat "/";
  waitOrDone := fun ctx _ w => (ctx w, w);
  runProcess := spawn;
  formatDuration := fun _ => "5m0s"
|}.

(** The envelope the control plane sends for a document. *)
Definition signed (content status : string) : SignedPlaybook.t :=
  SignedPlaybook.mk content (EncodeToString (digest content)) (issued (digest content))
    status "pb-1" "admin".

(** The executor of the agent (agent/jobs.go): the pinned key, the progress
    callback, the [command] handler. *)
Definition executor (callback : bool) : Executor.t :=
  Executor.RegisterHandler
    (Executor.mk (Verifier.mk pinned) Parser.NewParser ∅ GOOS "device-1"
       (if callback then Some (fun _ _ w => w) else None))
    ActionCommand CommandHandler.handler.

Definition ctx : Context := cancelled.
Definition start : Executor.State := Executor.mkState boot [].
End Example.

(* ===================================================================== *)
(** * Vocabulary of the statements *)
(* ===================================================================== *)

Import GoStrings.

Ltac app_eq := repeat first [progress simpl | rewrite <- app_assoc | rewrite app_nil_r]; done.

(** [occurs sep l]: the bytes [sep] stand somewhere in [l]. *)
Definition occurs (sep l : bytes) : Prop := exists p q, l = p ++ sep ++ q.

(** The number of bytes [c] in [l]. *)
Definition cnt (c : ascii) (l : bytes) : nat := length (filter (fun x => x = c) l).

(** [free sp w X]: the word [w] does not stand in [X] between two separating
    bytes [sp], the ends of [X] counting as such. *)
Definition free (sp : ascii) (w X : bytes) : Prop :=
  ~ occurs (sp :: w ++ [sp]) (sp :: X ++ [sp]).

(** Length of the pieces of a split, the separators between them counted. *)
Fixpoint joinLen (n : nat) (ps : list nat) : nat :=
  match ps with
  | [] => 0
  | [p] => p
  | p :: rest => p + n + joinLen n rest
  end.

Definition restWeight (n : nat) (tokens : list string) : nat :=
  fold_right (fun t acc => (n + String.length t + acc)%nat) 0%nat tokens.

Definition partsWeight (n : nat) (parts : list string) : nat :=
  fold_right (fun p acc => (String.length p + n + acc)%nat) 0%nat parts.

(** The loops of [Evaluate] over a total evaluation of the parts. *)
Fixpoint allOf (ev : string -> outcome bool) (parts : list string) : outcome bool :=
  match parts with
  | [] => Val true
  | part :: rest =>
      match ev part with
      | Val true => allOf ev rest
      | r => r
      end
  end.

Fixpoint anyOf (ev : string -> outcome bool) (parts : list string) : outcome bool :=
  match parts with
  | [] => Val false
  | part :: rest =>
      match ev part with
      | Val false => anyOf ev rest
      | r => r
      end
  end.

Definition notOf (r : outcome bool) : outcome bool :=
  match r with Val b => Val (negb b) | _ => r end.

(** The body of [Evaluate] on a trimmed expression, [rec] standing for the
    calls it makes to itself. *)
Definition evaluateStep `{Host} (rec : string -> outcome bool) (c : Variables.t) (w : World)
    (expression : string) : outcome bool :=
  if String.eqb expression "" then Val true
  else if String.eqb expression "true" then Val true
  else if String.eqb expression "false" then Val false
  else if (1 <? length (Condition.splitOnOperator expression " and "))%nat then
    allOf rec (Condition.splitOnOperator expression " and ")
  else if (1 <? length (Condition.splitOnOperator expression " or "))%nat then
    anyOf rec (Condition.splitOnOperator expression " or ")
  else if HasPrefix expression "(" && HasSuffix expression ")" then
    match slice expression 1 (String.length expression - 1) with
    | Some inner => rec inner
    | None => Panic
    end
  else if HasPrefix expression "not " then notOf (rec (TrimPrefix expression "not "))
  else Condition.evaluateComparison c w expression.

Definition space : ascii := " "%char.

(** [X] neither begins nor ends with white space, and is not empty. *)
Definition isTrimmed (X : string) : bool :=
  negb (String.eqb X "") && Nat.eqb (leadSpace (bytesOf X)) 0
  && Nat.eqb (trailSpace (bytesOf X)) 0.

(** [word] does not stand in [X] as a word between spaces. *)
Definition wordFree (word X : string) : bool :=
  negb (Contains (" " +:+ X +:+ " ") (" " +:+ word +:+ " ")).

Definition noParen (X : string) : bool :=
  negb (Contains X "(") && negb (Contains X ")").

(** [x && y] and [x || y] on results, the right operand looked at only when
    the left one does not decide. *)
Definition andThen (x y : outcome bool) : outcome bool :=
  match x with Val true => y | r => r end.
Definition orElse (x y : outcome bool) : outcome bool :=
  match x with Val false => y | r => r end.

(** A sub-expression of a condition without parentheses and without a
    top-level [and] or [or]. *)
Definition operand (X : string) : bool :=
  isTrimmed X && noParen X && wordFree "and" X && wordFree "or" X.

(** The identifier pattern of [isValidIdentifier]: a letter or underscore,
    then letters, digits, underscores and dots. *)
Definition identifier (x : string) : bool :=
  match bytesOf x with
  | c :: r => Variables.identStart c && forallb Variables.varChar r
  | [] => false
  end.

Definition spaceFree (x : string) : bool :=
  forallb (fun c => negb (Ascii.eqb c space)) (bytesOf x).

(** An ASCII byte that is not white space. *)
Definition plain (c : ascii) : bool := negb (asciiSpace c) && (code c <? 128)%N.

(** Words joined by single spaces. *)
Fixpoint joinWords (ws : list bytes) : bytes :=
  match ws with
  | [] => []
  | [x] => x
  | x :: rest => x ++ space :: joinWords rest
  end.

(** The truthiness of what a value resolves to. *)
Definition truthiness `{Host} (r : outcome string) : outcome bool :=
  match r with
  | Val val => Val (Condition.isTruthy val)
  | Fail e => Fail e
  | Panic => Panic
  end.

(** A comparison of two operands: both are resolved, the left one first,
    and [test] is applied to the two strings. *)
Definition compare `{Host} (c : Variables.t) (w : World) (x y : string)
    (test : string -> string -> outcome bool) : outcome bool :=
  match Condition.resolveValue c w x with
  | Val left_ =>
      match Condition.resolveValue c w y with
      | Val right_ => test left_ right_
      | Fail e => Fail e
      | Panic => Panic
      end
  | Fail e => Fail e
  | Panic => Panic
  end.

(** An operand of a comparison: one word, not in parentheses, not the word
    [not]. *)
Definition word (x : string) : bool :=
  spaceFree x && isTrimmed x && negb (HasPrefix x "(") && negb (String.eqb x "not").

(** The task result a reference [name.property] names, when [name] is
    registered. *)
Definition registeredResult (c : Variables.t) (ref : string) : option TaskResult.t :=
  if Contains ref "." then
    match SplitN2 ref "." with
    | [taskName; _] => Variables.GetTaskResult c taskName
    | _ => None
    end
  else None.

(** A trimmed operand that no rule of [resolveValue] knows: not quoted, not
    a number, not [platform] or [arch], not under [env.], not a property of a
    registered task result, not a user variable or built-in. *)
Definition unresolved `{Host} (c : Variables.t) (ref : string) : bool :=
  negb (Condition.isQuoted ref) && negb (Condition.isSome (ParseFloat ref))
  && negb (String.eqb ref "platform") && negb (String.eqb ref "arch")
  && negb (HasPrefix ref "env.") && negb (Condition.isSome (registeredResult c ref))
  && negb (Condition.isSome (Variables.Get c ref)).

(** The five properties [resolveValue] knows of a task result. *)
Definition knownProperty (property : string) : bool :=
  existsb (String.eqb property) ["stdout"; "stderr"; "exit_code"; "status"; "changed"].

(** The strings that are not truthy. *)
Definition falsy : list string :=
  [""; "false"; "0"; "no"; "off"; "null"; "nil"; "none"].

(** A string literal in double quotes. *)
Definition quoted (lit : string) : string := dquote +:+ lit +:+ dquote.

(** The numeric comparison of two operands written [x op y]. *)
Definition numericError (x op y : string) : Error :=
  Errorf ("numeric comparison requires numeric values: " +:+ x +:+ " " +:+ op +:+ " " +:+ y).

(** What is left of a comparison whose left operand resolved to the empty
    string and whose right operand gave [r], when the empty string is not
    a number. *)
Definition numericOutcome (x op y : string) (r : outcome string) : outcome bool :=
  match r with
  | Val _ => Fail (numericError x op y)
  | Fail e => Fail e
  | Panic => Panic
  end.

(** The variables of an execution that has set none, and the same with the
    result of a task registered as [probe]. *)
Definition fresh : Variables.t :=
  Variables.NewVariables (H := Example.linux) Example.boot.

Definition probed : Variables.t :=
  Variables.SetTaskResult fresh "probe"
    (TaskResult.mk "probe" "" TaskStatusCompleted true "installed" "" 0 "" "" None).

(** A digit of lowercase hexadecimal. *)
Definition isLowerHex (ch : ascii) : bool :=
  existsb (Ascii.eqb ch) (bytesOf "0123456789abcdef").

(** The four checks of the verifier, in the order of the pipeline. *)
Definition presenceCheck (sp : SignedPlaybook.t) : Prop :=
  SignedPlaybook.Content sp <> "" /\ SignedPlaybook.SHA256Hash sp <> ""
  /\ SignedPlaybook.Signature sp <> [].

Definition digestCheck `{Host} (sp : SignedPlaybook.t) : Prop :=
  EncodeToString (Sum256 (SignedPlaybook.Content sp)) = SignedPlaybook.SHA256Hash sp.

Definition signatureCheck `{Host} (v : Verifier.t) (sp : SignedPlaybook.t) : Prop :=
  ed25519Verify (Verifier.serverPublicKey v) (Sum256 (SignedPlaybook.Content sp))
    (SignedPlaybook.Signature sp) = true.

Definition approvalCheck (sp : SignedPlaybook.t) : Prop :=
  SignedPlaybook.Status sp = "approved" \/ SignedPlaybook.Status sp = "test".

(** A run that ends in a rejection: the report carries the record of the
    verifier and no task result, the error is the verifier's, and the state
    is the one the run started in. *)
Definition rejects `{Host} (e : Executor.t) (sp : SignedPlaybook.t) (st : Executor.State)
    (r : run (ExecutionReport.t * option Error * Executor.State)) : Prop :=
  exists report err,
    r = Done (report, Some err, st)
    /\ (Verifier.Verify (Executor.verifier e) sp).2 = Some err
    /\ ExecutionReport.Status report = "rejected"
    /\ ExecutionReport.Verification report = (Verifier.Verify (Executor.verifier e) sp).1
    /\ VerificationRecord.AllChecksPass (ExecutionReport.Verification report) = false
    /\ ExecutionReport.TaskResults report = [].

(** The result of a loop of [executeTask], however it ends. *)
Definition loopResult `{Host} (l : Executor.LoopEnd) : TaskResult.t :=
  match l with
  | Executor.Returned result _ => result
  | Executor.Exhausted result _ _ => result
  end.

(** [N] was notified by one of [tasks]: a task that completed with
    [changed] and has [N] in its [notify] list. *)
Definition notifiedBy (tasks : list Task.t) (results : list TaskResult.t) (N : string) : Prop :=
  exists i task result,
    tasks !! i = Some task /\ results !! i = Some result
    /\ TaskResult.Status result = TaskStatusCompleted
    /\ TaskResult.Changed result = true
    /\ N ∈ Task.Notify task.

(** The report after a failed task has been counted. *)
Definition countFailed (report : ExecutionReport.t) (result : TaskResult.t)
  : ExecutionReport.t :=
  ExecutionReport.setCounters (ExecutionReport.appendResult report result)
    (ExecutionReport.TasksCompleted report) (ExecutionReport.TasksFailed report + 1)
    (ExecutionReport.TasksSkipped report).

(** The variables after a task: its result is stored when it is
    registered. *)
Definition registerResult (vars : Variables.t) (task : Task.t) (result : TaskResult.t)
  : Variables.t :=
  if negb (String.eqb (Task.Register task) "")
  then Variables.SetTaskResult vars (Task.Register task) result
  else vars.

(** The tasks of a list executed one after the other from the state [st]:
    each [executeTask] starts in the state the one before it left, with
    the variables [after] makes of the ones before and the result. The
    results in order, the variables and the state at the end. *)
Fixpoint runEach `{Host} (e : Executor.t) (ctx : Context)
    (after : Variables.t -> Task.t -> TaskResult.t -> Variables.t)
    (tasks : list Task.t) (vars : Variables.t) (st : Executor.State)
  : run (list TaskResult.t * Variables.t * Executor.State) :=
  match tasks with
  | [] => Done ([], vars, st)
  | task :: rest =>
      match Executor.executeTask e ctx task vars st with
      | Panicked => Panicked
      | Done (result, st1) =>
          match runEach e ctx after rest (after vars task result) st1 with
          | Panicked => Panicked
          | Done (results, vars', st') => Done (result :: results, vars', st')
          end
      end
  end.

(** The tasks of a playbook register their results as they go; its
    handlers all see the variables the tasks left. *)
Definition runTasks `{Host} (e : Executor.t) (ctx : Context) :=
  runEach e ctx registerResult.

Definition runHandlers `{Host} (e : Executor.t) (ctx : Context) :=
  runEach e ctx (fun vars _ _ => vars).

(** A task for Windows only, as the agent on Linux receives it. *)
Definition windowsTask : Task.t :=
  Task.mk "registry" "" "windows" "" "command" [("command", VString "true")] "" None false
    0 0 [] None.

(** The parameters of a command whose [creates] path exists. *)
Definition touchParams : ParamMap :=
  [("command", VString "touch /tmp/marker"); ("creates", VString "/tmp")].

(** The report [Execute] starts the task loop with. *)
Definition running (name : string) (total : Z) : ExecutionReport.t :=
  ExecutionReport.mk "pb-1" name "device-1"
    (Verifier.Verify (H := Example.linux) (Verifier.mk Example.pinned)
       (Example.signed Example.twinsYAML "approved")).1
    "running" total 0 0 0 [] "" false.

(** An envelope whose expected hash is the digest in uppercase. *)
Definition uppercaseHash : SignedPlaybook.t :=
  SignedPlaybook.mk Example.twinsYAML "AB12" (Example.issued (Example.digest Example.twinsYAML))
    "approved" "pb-1" "admin".

(** What [validateTask] leaves of a task it accepts: a name, a known action
    that is available on the platform of the task (or of the parser when the
    task names none), the parameter its action requires, and no negative
    retry count or delay. *)
Definition wellFormedTask (p : Parser.t) (task : Task.t) : Prop :=
  Task.Name task <> ""
  /\ Parser.isValidAction (Task.Action task) = true
  /\ Parser.validateActionPlatform p (Task.Action task) (Task.Platform task) = None
  /\ (forall fieldPrefix,
        Parser.validateActionParams (Task.Action task) (Task.Params task) fieldPrefix = None)
  /\ (0 <= Task.Retries task)%Z /\ (0 <= Task.RetryDelay task)%Z.

(** The document with the version [Validate] writes into it. *)
Definition withDefaultVersion (doc : Playbook.t) : Playbook.t :=
  if String.eqb (Playbook.Version doc) "" then Playbook.with_Version doc SchemaVersion
  else doc.

(** The three statuses a finished task can have. *)
Definition terminal (s : TaskStatus) : Prop :=
  s = TaskStatusCompleted \/ s = TaskStatusFailed \/ s = TaskStatusSkipped.

(** The calls of a handler's [Execute] among the events of a trace. *)
Definition isHandlerCall (ev : Executor.Event) : bool :=
  match ev with Executor.HandlerExecute _ _ => true | Executor.Progress _ _ => false end.

Definition handlerCalls (events : list Executor.Event) : nat :=
  length (List.filter isHandlerCall events).

(** The state a retry loop ends in. *)
Definition loopState `{Host} (l : Executor.LoopEnd) : Executor.State :=
  match l with
  | Executor.Returned _ st => st
  | Executor.Exhausted _ _ st => st
  end.

(** The iterations of the retry loop of a task, and the most calls of a
    handler a task can make: its own attempts and those of its rollback. *)
Definition maxAttempts (task : Task.t) : nat :=
  Z.to_nat (Executor.wrap64 (Task.Retries task + 1)).

Fixpoint maxCalls (task : Task.t) : nat :=
  match task with
  | Task.mk _ _ _ _ _ _ _ _ _ retries _ _ rollback =>
      (Z.to_nat (Executor.wrap64 (retries + 1))
       + match rollback with Some r => maxCalls r | None => 0 end)%nat
  end.

(** The results with status [s] among [results]. *)
Definition countStatus (s : TaskStatus) (results : list TaskResult.t) : Z :=
  Z.of_nat (length (List.filter (fun r => bool_decide (TaskResult.Status r = s)) results)).

(** The report a task loop ends with. *)
Definition loopReport `{Host} (l : Executor.TaskLoopEnd) : ExecutionReport.t :=
  match l with
  | Executor.LoopReturn report _ _ => report
  | Executor.LoopDone report _ _ _ => report
  end.

(** The entries of [hs] that bear the name of one of [results]. *)
Definition namedBy (results : list TaskResult.t) (hs : list Task.t) : list Task.t :=
  filter (fun h => Task.Name h ∈ map TaskResult.TaskName results) hs.

(** Among handlers and their results, pair by pair, the handlers that
    failed and do not ignore errors. *)
Definition uncaught (hs : list Task.t) (results : list TaskResult.t) : Z :=
  Z.of_nat (length (List.filter
                      (fun hr => bool_decide (TaskResult.Status hr.2 = TaskStatusFailed)
                                 && negb (Task.IgnoreErrors hr.1))
                      (zip hs results))).

(** The platform an action is tied to, from the switch of
    [validateActionPlatform]. *)
Definition actionPlatform (action : string) : option string :=
  if String.eqb action ActionRegistry then Some PlatformWindows
  else if String.eqb action ActionSysctl then Some PlatformLinux
  else if String.eqb action ActionDefaults then Some PlatformDarwin
  else if String.eqb action ActionSettings || String.eqb action ActionPackage
  then Some PlatformAndroid
  else None.

(** Whether the platform filter of a task excludes the executor. *)
Definition platformFiltered `{Host} (e : Executor.t) (task : Task.t) : bool :=
  negb (String.eqb (Task.Platform task) "")
  && negb (String.eqb (Task.Platform task) (Executor.platform e)).

(** The issues a dry run finds in a task: a condition that does not
    validate, unless the platform filter excludes the task, and an action
    without a registered handler. A task can have both. *)
Definition dryRunIssues `{Host} (e : Executor.t) (task : Task.t) : Z :=
  (if negb (platformFiltered e task) && negb (String.eqb (Task.When task) "")
      && Condition.isSome (Condition.ValidateCondition (Task.When task))
   then 1 else 0)
  + (if Condition.isSome (Executor.handlers e !! Task.Action task) then 0 else 1).

Definition issuesOf `{Host} (e : Executor.t) (tasks : list Task.t) : Z :=
  fold_right Z.add 0 (map (dryRunIssues e) tasks).

(** What a dry run reports for a task. *)
Definition simulated `{Host} (e : Executor.t) (task : Task.t) (r : TaskResult.t) : Prop :=
  TaskResult.TaskName r = Task.Name task
  /\ (dryRunIssues e task = 0
      -> TaskResult.Status r
         = if platformFiltered e task then TaskStatusSkipped else TaskStatusPending)
  /\ (0 < dryRunIssues e task -> TaskResult.Status r = TaskStatusFailed).

(** The reference to a variable in a template, in its usual spelling. *)
Definition reference (x : string) : string := "{{ " +:+ x +:+ " }}".

(** The name of an environment variable: a letter or underscore, then
    letters, digits and underscores. *)
Definition envName (n : string) : bool :=
  match bytesOf n with
  | c :: r => Variables.identStart c && forallb Variables.identChar r
  | [] => false
  end.

(** The reference to an environment variable in its shell spelling. *)
Definition shellReference (n : string) : string := "${" +:+ n +:+ "}".

(** The entries of a parameter map that hold no text: numbers, booleans
    and null. *)
Definition scalar (x : Value) : bool :=
  match x with
  | VNil | VBool _ | VInt _ | VFloat _ => true
  | VString _ | VList _ | VMap _ => false
  end.

(** A sub-expression in parentheses. *)
Definition parens (X : string) : string := "(" +:+ X +:+ ")".

(** The exit code the handler records for a process that ended in an
    error. *)
Definition exitCodeOf (err : Process.RunError) : Z :=
  match err with Process.ExitError code => code | Process.OtherError => (-1)%Z end.

(** Whether the parameters turn off the failure on a non-zero exit. *)
Definition toleratesFailure (params : ParamMap) : bool :=
  match param params "fail_on_error" with Some (VBool false) => true | _ => false end.

(** A registry task, as a playbook for every platform may hold it. *)
Definition registryTask : Task.t :=
  Task.mk "policy" "" "windows" "" "registry" [("path", VString "HKLM\Software")] "" None
    false 0 0 [] None.

(** The state of an agent whose context is already done. *)
Definition stopped : Executor.State (H := Example.linux) :=
  Executor.mkState (H := Example.linux) (Example.mkWorld [] true) [].

(** Parameters with a template and a number. *)
Definition mixedParams : ParamMap :=
  [("command", VString "echo {{ platform }}"); ("timeout", VInt 5)].

(* ===================================================================== *)
(** * Properties *)
(* ===================================================================== *)

Section StringFacts.
Lemma ofBytes_bytesOf s : ofBytes (bytesOf s) = s.
Proof. apply string_of_list_ascii_of_string. Qed.

Lemma bytesOf_ofBytes l : bytesOf (ofBytes l) = l.
Proof. apply list_ascii_of_string_of_list_ascii. Qed.

Lemma bytesOf_app a b : bytesOf (a +:+ b) = bytesOf a ++ bytesOf b.
Proof. induction a as [|c a IH]; simpl; [done | by rewrite IH]. Qed.

Lemma bytesOf_length s : length (bytesOf s) = String.length s.
Proof. induction s as [|c s IH]; simpl; [done | by rewrite IH]. Qed.

Lemma bytesOf_inj a b : bytesOf a = bytesOf b -> a = b.
Proof. intros E. rewrite <- (ofBytes_bytesOf a), <- (ofBytes_bytesOf b). by rewrite E. Qed.

Lemma ofBytes_app a b : ofBytes (a ++ b) = ofBytes a +:+ ofBytes b.
Proof. apply bytesOf_inj. by rewrite bytesOf_app, !bytesOf_ofBytes. Qed.

Lemma isPrefix_spec p l : isPrefix p l = true <-> exists r, l = p ++ r.
Proof.
  revert l. induction p as [|a p IH]; intros l; simpl.
  - split; [intros _; by exists l | done].
  - destruct l as [|b l]; simpl.
    + split; [done | intros [r Hr]; discriminate].
    + rewrite andb_true_iff, IH. split.
      * intros [Hab [r ->]]. apply Ascii.eqb_eq in Hab as ->. by exists r.
      * intros [r Hr]. injection Hr as -> ->. split; [apply Ascii.eqb_refl | by exists r].
Qed.

Lemma isPrefix_drop p l : isPrefix p l = true -> l = p ++ drop (length p) l.
Proof.
  intros [r ->]%isPrefix_spec. by rewrite drop_app_length.
Qed.

Lemma cut_Some sep l b a : cut sep l = Some (b, a) -> l = b ++ sep ++ a.
Proof.
  revert b a. induction l as [|c l IH]; intros b a; simpl.
  - destruct (isPrefix sep []) eqn:E; [|done].
    intros [= <- <-]. apply isPrefix_drop in E. by rewrite drop_nil in *.
  - destruct (isPrefix sep (c :: l)) eqn:E.
    + intros [= <- <-]. by apply isPrefix_drop in E.
    + destruct (cut sep l) as [[b' a']|] eqn:C; [|done].
      intros [= <- <-]. simpl. f_equal. by apply IH.
Qed.

Lemma cut_None sep l : cut sep l = None <-> ~ occurs sep l.
Proof.
  induction l as [|c l IH]; simpl.
  - destruct (isPrefix sep []) eqn:E.
    + split; [done|]. intros Hn. exfalso. apply Hn.
      apply isPrefix_spec in E as [r Hr]. by exists [], r.
    + split; [|done]. intros _ (p & q & Hpq).
      destruct p; [|done]. simpl in Hpq.
      assert (isPrefix sep [] = true) by (apply isPrefix_spec; eauto). congruence.
  - destruct (isPrefix sep (c :: l)) eqn:E.
    + split; [done|]. intros Hn. exfalso. apply Hn.
      apply isPrefix_spec in E as [r Hr]. by exists [], r.
    + destruct (cut sep l) as [[b' a']|] eqn:C.
      * split; [done|]. intros Hn. exfalso. apply Hn.
        apply cut_Some in C. exists (c :: b'), a'. simpl. by f_equal.
      * split; [|done]. intros _ (p & q & Hpq).
        destruct p as [|c' p]; simpl in Hpq.
        -- assert (isPrefix sep (c :: l) = true) by (apply isPrefix_spec; eauto). congruence.
        -- injection Hpq as -> ->. apply (proj1 IH); [done | by exists p, q].
Qed.

(** The first occurrence. *)
Lemma cut_first sep b a :
  ~ occurs sep (b ++ removelast sep) -> sep <> [] -> cut sep (b ++ sep ++ a) = Some (b, a).
Proof.
  intros Hno Hne. induction b as [|c b IH]; simpl.
  - assert (E : isPrefix sep (sep ++ a) = true) by (apply isPrefix_spec; eauto).
    destruct sep as [|s0 sep]; [done|]. simpl in *. rewrite E.
    by rewrite drop_app_length.
  - destruct (isPrefix sep (c :: b ++ sep ++ a)) eqn:E.
    + exfalso. apply Hno. apply isPrefix_spec in E as [r Hr].
      (* sep is a prefix of c :: b ++ sep ++ a, hence of (c :: b) ++ removelast sep *)
      exists [], (drop (length sep) ((c :: b) ++ removelast sep)). simpl.
      assert (Hlen : (length sep <= length ((c :: b) ++ removelast sep))%nat).
      { destruct (exists_last Hne) as (s' & x & ->).
        rewrite removelast_last, !length_app. simpl. lia. }
      assert (Hp : take (length sep) ((c :: b) ++ removelast sep) = sep).
      { transitivity (take (length sep) (c :: b ++ sep ++ a)).
        - destruct (exists_last Hne) as (s' & x & ->).
          rewrite removelast_last in *.
          replace (c :: b ++ (s' ++ [x]) ++ a) with (((c :: b) ++ s') ++ x :: a)
            by (rewrite <- !app_assoc; done).
          symmetry. apply take_app_le. exact Hlen.
        - rewrite Hr. by rewrite take_app_length. }
      change (c :: b ++ removelast sep) with ((c :: b) ++ removelast sep).
      rewrite <- (take_drop (length sep) ((c :: b) ++ removelast sep)) at 1.
      by rewrite Hp.
    + rewrite IH; [done|].
      intros (p & q & Hpq). apply Hno. exists (c :: p), q. simpl. by f_equal.
Qed.

Lemma occurs_mono sep l p q : occurs sep l -> occurs sep (p ++ l ++ q).
Proof.
  intros (p' & q' & ->). exists (p ++ p'), (q' ++ q). by rewrite <- !app_assoc.
Qed.

Lemma occurs_length sep l : occurs sep l -> (length sep <= length l)%nat.
Proof. intros (p & q & ->). rewrite !length_app. lia. Qed.

Lemma occurs_prefix_part s1 s2 l : occurs (s1 ++ s2) l -> occurs s1 l.
Proof. intros (p & q & ->). exists p, (s2 ++ q). by rewrite <- app_assoc. Qed.

(** Where an element that is in neither prefix first stands. *)
Lemma first_elem_inj {A} (a : A) l1 l2 r1 r2 :
  a ∉ l1 -> a ∉ l2 -> l1 ++ a :: r1 = l2 ++ a :: r2 -> l1 = l2 /\ r1 = r2.
Proof.
  revert l2. induction l1 as [|x l1 IH]; intros [|y l2] H1 H2 E; simpl in E.
  - by injection E as ->.
  - injection E as -> _. exfalso. apply H2. left.
  - injection E as -> _. exfalso. apply H1. left.
  - injection E as -> E. apply not_elem_of_cons in H1 as [_ H1].
    apply not_elem_of_cons in H2 as [_ H2].
    destruct (IH _ H1 H2 E) as [-> ->]. done.
Qed.

Lemma cnt_app c l k : cnt c (l ++ k) = (cnt c l + cnt c k)%nat.
Proof. unfold cnt. by rewrite filter_app, length_app. Qed.

Lemma cnt_cons_eq c l : cnt c (c :: l) = S (cnt c l).
Proof. unfold cnt. by rewrite filter_cons_True. Qed.

Lemma cnt_notin c l : c ∉ l -> cnt c l = 0%nat.
Proof.
  unfold cnt. induction l as [|x l IH]; [done|].
  intros [Hx Hl]%not_elem_of_cons. rewrite filter_cons_False by congruence. auto.
Qed.

Section Word.
(** A separator that is one word between two separating bytes, like the
    operators [and] and [or] between two spaces. *)
Variable sp : ascii.
Variable w : bytes.
Hypothesis Hw : sp ∉ w.

Let sep := sp :: w ++ [sp].

(** An occurrence of the separator does not run across a separating
    byte. *)
Lemma occurs_across u v :
  occurs sep (u ++ sp :: v) -> occurs sep (u ++ [sp]) \/ occurs sep (sp :: v).
Proof.
  intros (p & q & E). unfold sep in *. simpl in E.
  rewrite <- app_assoc in E. simpl in E.
  apply app_eq_app in E as [l [[-> E]|[-> E]]].
  - (* u = p ++ l *)
    destruct l as [|c l]; simpl in E.
    + right. injection E as <-. exists [], q. app_eq.
    + injection E as <- E. left.
      apply app_eq_app in E as [l' [[-> E]|[-> E]]].
      * destruct l' as [|c' l']; simpl in E.
        -- injection E as <-. rewrite app_nil_r.
           exists p, []. app_eq.
        -- injection E as -> _. exfalso. apply Hw.
           apply elem_of_app. right. left.
      * destruct l' as [|c' l']; simpl in E.
        -- injection E as <-. rewrite app_nil_r.
           exists p, []. app_eq.
        -- injection E as <- E.
           exists p, (l' ++ [sp]). app_eq.
  - (* p = u ++ l *)
    right. destruct l as [|c l]; simpl in E.
    + injection E as ->. exists [], q. app_eq.
    + injection E as <- ->. exists (sp :: l), q. app_eq.
Qed.

Lemma free_join X Y : free sp w X -> free sp w Y -> free sp w (X ++ sp :: Y).
Proof.
  intros HX HY H. unfold free in *.
  replace (sp :: (X ++ sp :: Y) ++ [sp]) with ((sp :: X) ++ sp :: (Y ++ [sp])) in H
    by (simpl; by rewrite <- app_assoc).
  apply occurs_across in H as [H|H]; [by apply HX | by apply HY].
Qed.

Lemma free_absent X : free sp w X -> cut sep X = None.
Proof.
  intros HX. apply cut_None. intros H. apply HX.
  apply (occurs_mono _ _ [sp] [sp]) in H. exact H.
Qed.

Lemma free_first X Y : free sp w X -> cut sep (X ++ sep ++ Y) = Some (X, Y).
Proof.
  intros HX. apply cut_first; [|done].
  unfold sep. replace (removelast (sp :: w ++ [sp])) with (sp :: w).
  2:{ change (sp :: w ++ [sp]) with ((sp :: w) ++ [sp]). by rewrite removelast_last. }
  intros H. apply occurs_across in H as [H|H].
  - apply HX. apply (occurs_mono _ _ [sp] []) in H. by rewrite app_nil_r in H.
  - apply occurs_length in H. simpl in H. rewrite length_app in H. simpl in H. lia.
Qed.

Lemma free_of_spacefree X : sp ∉ X -> X <> w -> free sp w X.
Proof.
  intros HX Hne (p & q & E). unfold sep in E. symmetry in E.
  destruct p as [|c p]; simpl in E.
  - injection E as E. rewrite <- app_assoc in E. simpl in E.
    apply first_elem_inj in E as [E _]; done.
  - injection E as -> E.
    apply (f_equal (cnt sp)) in E.
    rewrite !cnt_app, !cnt_cons_eq, !cnt_app, cnt_cons_eq, (cnt_notin sp X) in E by done.
    simpl in E. lia.
Qed.
End Word.

(** An occurrence has at least as many bytes [c] as what occurs. *)
Lemma occurs_count (c : ascii) sep l : occurs sep l -> (cnt c sep <= cnt c l)%nat.
Proof. intros (p & q & ->). rewrite !cnt_app. lia. Qed.
End StringFacts.

Section SplitFacts.
Lemma leadSpace_le l : (leadSpace l <= length l)%nat.
Proof.
  destruct l as [|a [|b [|c l]]]; simpl; repeat case_match; simpl; lia.
Qed.

Lemma trailSpace_le l : (trailSpace l <= length l)%nat.
Proof.
  unfold trailSpace. rewrite <- (length_rev l).
  destruct (rev l) as [|a [|b [|c l']]]; simpl; repeat case_match; simpl; lia.
Qed.

Lemma trimLeft_length f l : (length (trimLeft f l) <= length l)%nat.
Proof.
  revert l. induction f as [|f IH]; intros l; simpl; [done|].
  destruct (leadSpace l) eqn:E; [done|].
  etrans; [apply IH|]. rewrite length_drop. lia.
Qed.

Lemma trimRight_length f l : (length (trimRight f l) <= length l)%nat.
Proof.
  revert l. induction f as [|f IH]; intros l; simpl; [done|].
  destruct (trailSpace l) eqn:E; [done|].
  etrans; [apply IH|]. rewrite length_take. lia.
Qed.

Lemma TrimSpace_length s : (String.length (TrimSpace s) <= String.length s)%nat.
Proof.
  unfold TrimSpace, trimSpace. rewrite <- !bytesOf_length, bytesOf_ofBytes.
  etrans; [apply trimRight_length|]. apply trimLeft_length.
Qed.

Lemma splitAll_nonempty f sep l : splitAll f sep l <> [].
Proof. destruct f; simpl; repeat case_match; done. Qed.

Lemma joinLen_cons n p ps : ps <> [] -> joinLen n (p :: ps) = (p + n + joinLen n ps)%nat.
Proof. by destruct ps. Qed.

Lemma splitAll_joinLen f sep l :
  (joinLen (length sep) (map length (splitAll f sep l)) <= length l)%nat.
Proof.
  revert l. induction f as [|f IH]; intros l; simpl.
  - repeat case_match; simpl; lia.
  - destruct (cut sep l) as [[b a]|] eqn:C; [|simpl; lia].
    apply cut_Some in C as ->.
    rewrite map_cons, joinLen_cons.
    + specialize (IH a). rewrite !length_app. lia.
    + intros E%map_eq_nil. by apply splitAll_nonempty in E.
Qed.

Lemma Split_joinLen s sep :
  (joinLen (String.length sep) (map String.length (Split s sep)) <= String.length s)%nat.
Proof.
  unfold Split. destruct (bytesOf sep) as [|c sp] eqn:E; [simpl; lia|].
  rewrite <- E, <- !bytesOf_length.
  etrans; [|apply (splitAll_joinLen (String.length s) (bytesOf sep))].
  rewrite (bytesOf_length s), map_map.
  erewrite map_ext; [done|]. intros p. simpl. by rewrite <- bytesOf_length, bytesOf_ofBytes.
Qed.

Context `{Host}.

Lemma joinLen_restWeight n p rest :
  joinLen n (p :: map String.length rest) = (p + restWeight n rest)%nat.
Proof.
  revert p. induction rest as [|t rest IH]; intros p; simpl; [lia|].
  specialize (IH (String.length t)). simpl in IH. rewrite IH. lia.
Qed.

Lemma partsWeight_app n ps qs :
  partsWeight n (ps ++ qs) = (partsWeight n ps + partsWeight n qs)%nat.
Proof. induction ps as [|p ps IH]; simpl; lia. Qed.

Lemma splitLoop_weight op tokens parts current depth :
  (partsWeight (String.length op) (Condition.splitLoop op tokens parts current depth).1.1
   + String.length (Condition.splitLoop op tokens parts current depth).1.2
   <= partsWeight (String.length op) parts + String.length current
      + restWeight (String.length op) tokens)%nat.
Proof.
  revert parts current depth.
  induction tokens as [|token rest IH]; intros parts current depth; simpl; [lia|].
  case_match.
  - etrans; [apply IH|]. rewrite <- !bytesOf_length, !bytesOf_app, !length_app. lia.
  - etrans; [apply IH|]. rewrite partsWeight_app. simpl.
    pose proof (TrimSpace_length current). lia.
Qed.

Lemma partsWeight_elem n p ps : p ∈ ps -> (String.length p + n <= partsWeight n ps)%nat.
Proof.
  induction ps as [|q ps IH]; [by intros ?%elem_of_nil|].
  intros [->|Hin]%elem_of_cons; simpl; [lia|]. specialize (IH Hin). lia.
Qed.

(** Every part of a split in two or more is shorter than the expression. *)
Lemma splitOnOperator_shorter expr op p :
  op <> "" ->
  (1 < length (Condition.splitOnOperator expr op))%nat ->
  p ∈ Condition.splitOnOperator expr op ->
  (String.length p < String.length expr)%nat.
Proof.
  intros Hop. unfold Condition.splitOnOperator.
  pose proof (Split_joinLen expr op) as HS.
  destruct (Split expr op) as [|token rest]; [simpl; lia|].
  rewrite map_cons, joinLen_restWeight in HS.
  pose proof (splitLoop_weight op rest [] token 0) as HW.
  destruct (Condition.splitLoop op rest [] token 0) as [[parts current] depth]. simpl in HW.
  assert (Hn : (0 < String.length op)%nat) by (destruct op; [done | simpl; lia]).
  set (final := if (0 <? String.length current)%nat
                then parts ++ [TrimSpace current] else parts).
  destruct ((length final <=? 1)%nat && Nat.eqb depth 0); [simpl; lia|].
  intros Hlen Hin. subst final.
  assert (Hparts : forall q, q ∈ parts -> (String.length q < String.length expr)%nat).
  { intros q Hq%(partsWeight_elem (String.length op)). lia. }
  destruct (0 <? String.length current)%nat; [|by apply Hparts].
  apply elem_of_app in Hin as [Hin|Hin]; [by apply Hparts|].
  apply list_elem_of_singleton in Hin as ->.
  rewrite length_app in Hlen. simpl in Hlen.
  destruct parts as [|q parts]; [simpl in Hlen; lia|].
  simpl in HW. pose proof (TrimSpace_length current). lia.
Qed.
End SplitFacts.

Section EvaluateFacts.
Context `{Host}.
Variable c : Variables.t.
Variable w : World.

Lemma slice_length s i j r : slice s i j = Some r -> String.length r = (j - i)%nat.
Proof.
  unfold slice. case_match eqn:E; [|done]. intros [= <-].
  apply andb_true_iff in E as [E1 E2]. apply Nat.leb_le in E1, E2.
  rewrite <- bytesOf_length, bytesOf_ofBytes, length_take, length_drop, bytesOf_length. lia.
Qed.

Lemma TrimPrefix_length s p :
  HasPrefix s p = true -> String.length (TrimPrefix s p) = (String.length s - String.length p)%nat.
Proof.
  unfold TrimPrefix. intros ->.
  by rewrite <- !bytesOf_length, bytesOf_ofBytes, length_drop, !bytesOf_length.
Qed.

Lemma HasPrefix_length s p : HasPrefix s p = true -> (String.length p <= String.length s)%nat.
Proof.
  unfold HasPrefix. intros [r Hr]%isPrefix_spec.
  rewrite <- !bytesOf_length, Hr, length_app. lia.
Qed.

Lemma allParts_ext ev1 ev2 parts :
  (forall p, p ∈ parts -> ev1 p = ev2 p) ->
  Condition.allParts ev1 parts = Condition.allParts ev2 parts.
Proof.
  induction parts as [|p parts IH]; intros Hev; simpl; [done|].
  rewrite (Hev p) by left. rewrite IH; [done|]. intros q Hq. apply Hev. by right.
Qed.

Lemma anyPart_ext ev1 ev2 parts :
  (forall p, p ∈ parts -> ev1 p = ev2 p) ->
  Condition.anyPart ev1 parts = Condition.anyPart ev2 parts.
Proof.
  induction parts as [|p parts IH]; intros Hev; simpl; [done|].
  rewrite (Hev p) by left. rewrite IH; [done|]. intros q Hq. apply Hev. by right.
Qed.

Lemma allParts_total ev ev' parts :
  (forall p, p ∈ parts -> ev p = Some (ev' p)) ->
  Condition.allParts ev parts = Some (allOf ev' parts).
Proof.
  induction parts as [|p parts IH]; intros Hev; simpl; [done|].
  rewrite (Hev p) by left.
  destruct (ev' p) as [[]| |]; try done. apply IH. intros q Hq. apply Hev. by right.
Qed.

Lemma anyPart_total ev ev' parts :
  (forall p, p ∈ parts -> ev p = Some (ev' p)) ->
  Condition.anyPart ev parts = Some (anyOf ev' parts).
Proof.
  induction parts as [|p parts IH]; intros Hev; simpl; [done|].
  rewrite (Hev p) by left.
  destruct (ev' p) as [[]| |]; try done. apply IH. intros q Hq. apply Hev. by right.
Qed.

(** The result does not depend on the fuel, once there is more of it than
    the expression has bytes. *)
Lemma evaluate_fuel f1 f2 e :
  (String.length e < f1)%nat -> (String.length e < f2)%nat ->
  Condition.evaluate f1 c w e = Condition.evaluate f2 c w e.
Proof.
  revert f2 e. induction f1 as [|f1 IH]; intros f2 e H1 H2; [lia|].
  destruct f2 as [|f2]; [lia|]. simpl.
  pose proof (TrimSpace_length e) as Ht.
  set (x := TrimSpace e) in *.
  repeat (case_match; [done|]).
  case_match eqn:Eand.
  { apply allParts_ext. intros p Hp. apply Nat.ltb_lt in Eand.
    pose proof (splitOnOperator_shorter x " and " p ltac:(done) Eand Hp).
    apply IH; lia. }
  case_match eqn:Eor.
  { apply anyPart_ext. intros p Hp. apply Nat.ltb_lt in Eor.
    pose proof (splitOnOperator_shorter x " or " p ltac:(done) Eor Hp).
    apply IH; lia. }
  case_match eqn:Eparen.
  { destruct (slice x 1 (String.length x - 1)) as [inner|] eqn:Es; [|done].
    apply slice_length in Es.
    apply andb_true_iff in Eparen as [Ep%HasPrefix_length _]. simpl in Ep.
    apply IH; lia. }
  case_match eqn:Enot; [|done].
  pose proof (TrimPrefix_length _ _ Enot) as El.
  apply HasPrefix_length in Enot. simpl in *.
  rewrite (IH f2 (TrimPrefix x "not ")); [done|lia|lia].
Qed.

Lemma evaluate_some f e :
  (String.length e < f)%nat -> exists r, Condition.evaluate f c w e = Some r.
Proof.
  revert e. induction f as [|f IH]; intros e Hf; [lia|]. simpl.
  pose proof (TrimSpace_length e) as Ht.
  set (x := TrimSpace e) in *.
  repeat (case_match; [by eauto|]).
  case_match eqn:Eand.
  { apply Nat.ltb_lt in Eand.
    exists (allOf (fun p => default Panic (Condition.evaluate f c w p))
              (Condition.splitOnOperator x " and ")).
    apply allParts_total. intros p Hp.
    pose proof (splitOnOperator_shorter x " and " p ltac:(done) Eand Hp).
    destruct (IH p ltac:(lia)) as [r ->]. done. }
  case_match eqn:Eor.
  { apply Nat.ltb_lt in Eor.
    exists (anyOf (fun p => default Panic (Condition.evaluate f c w p))
              (Condition.splitOnOperator x " or ")).
    apply anyPart_total. intros p Hp.
    pose proof (splitOnOperator_shorter x " or " p ltac:(done) Eor Hp).
    destruct (IH p ltac:(lia)) as [r ->]. done. }
  case_match eqn:Eparen.
  { destruct (slice x 1 (String.length x - 1)) as [inner|] eqn:Es; [|eauto].
    apply slice_length in Es.
    apply andb_true_iff in Eparen as [Ep%HasPrefix_length _]. simpl in Ep.
    apply IH; lia. }
  case_match eqn:Enot; [|eauto].
  pose proof (TrimPrefix_length _ _ Enot) as El.
  apply HasPrefix_length in Enot. simpl in *.
  destruct (IH (TrimPrefix x "not ") ltac:(lia)) as [r ->].
  destruct r as [b| |]; eauto.
Qed.

(** [Evaluate] never runs out of fuel ... *)
Lemma Evaluate_fuel f e :
  (String.length e < f)%nat -> Condition.evaluate f c w e = Some (Condition.Evaluate c w e).
Proof.
  intros Hf. unfold Condition.Evaluate.
  rewrite (evaluate_fuel (S (String.length e)) f e) by lia.
  by destruct (evaluate_some f e Hf) as [r ->].
Qed.

Lemma evaluate_step f e :
  (String.length e <= f)%nat ->
  Condition.evaluate (S f) c w e
  = Some (evaluateStep (Condition.Evaluate c w) c w (TrimSpace e)).
Proof.
  intros Hf. simpl. unfold evaluateStep.
  pose proof (TrimSpace_length e) as Ht.
  set (x := TrimSpace e) in *.
  repeat (case_match; [done|]).
  case_match eqn:Eand.
  { apply Nat.ltb_lt in Eand.
    apply allParts_total. intros p Hp.
    pose proof (splitOnOperator_shorter x " and " p ltac:(done) Eand Hp).
    apply Evaluate_fuel. lia. }
  case_match eqn:Eor.
  { apply Nat.ltb_lt in Eor.
    apply anyPart_total. intros p Hp.
    pose proof (splitOnOperator_shorter x " or " p ltac:(done) Eor Hp).
    apply Evaluate_fuel. lia. }
  case_match eqn:Eparen.
  { destruct (slice x 1 (String.length x - 1)) as [inner|] eqn:Es; [|done].
    apply slice_length in Es.
    apply andb_true_iff in Eparen as [Ep%HasPrefix_length _]. simpl in Ep.
    apply Evaluate_fuel. lia. }
  case_match eqn:Enot; [|done].
  pose proof (TrimPrefix_length _ _ Enot) as El.
  apply HasPrefix_length in Enot. simpl in *.
  rewrite Evaluate_fuel by lia.
  by destruct (Condition.Evaluate c w (TrimPrefix x "not ")).
Qed.

(** ... and satisfies the equation of the Go function. *)
Lemma Evaluate_unfold e :
  Condition.Evaluate c w e = evaluateStep (Condition.Evaluate c w) c w (TrimSpace e).
Proof. unfold Condition.Evaluate at 1. by rewrite evaluate_step. Qed.
End EvaluateFacts.

Section TrimFacts.
Lemma spaceRune2_space a : spaceRune2 a (code space) = false.
Proof. unfold spaceRune2. simpl. by rewrite andb_false_r. Qed.

Lemma spaceRune3_space_mid a c : spaceRune3 a (code space) c = false.
Proof. unfold spaceRune3. simpl. by rewrite !andb_false_r. Qed.

Lemma spaceRune3_space_last a b : spaceRune3 a b (code space) = false.
Proof. unfold spaceRune3. simpl. by rewrite !andb_false_r. Qed.

Lemma leadSpace_app_space X r :
  X <> [] -> leadSpace X = 0%nat -> leadSpace (X ++ space :: r) = 0%nat.
Proof.
  intros Hne. destruct X as [|a [|b [|c X]]]; [done| | |done]; simpl.
  - destruct (asciiSpace a); [done|]. intros _.
    rewrite spaceRune2_space. destruct r; [done|]. by rewrite spaceRune3_space_mid.
  - destruct (asciiSpace a); [done|]. destruct (spaceRune2 (code a) (code b)); [done|].
    intros _. by rewrite spaceRune3_space_last.
Qed.

Lemma trailSpace_app_space X r :
  X <> [] -> trailSpace X = 0%nat -> trailSpace (r ++ space :: X) = 0%nat.
Proof.
  intros Hne. unfold trailSpace.
  replace (rev (r ++ space :: X)) with (rev X ++ space :: rev r)
    by (rewrite rev_app_distr; simpl; by rewrite <- app_assoc).
  assert (Hr : rev X <> []).
  { intros E. apply Hne. by rewrite <- (rev_involutive X), E. }
  destruct (rev X) as [|a [|b [|c X']]]; [done| | |done]; cbn [app].
  - destruct (asciiSpace a); [done|]. intros _.
    assert (E2 : spaceRune2 (code space) (code a) = false) by done.
    rewrite E2. destruct (rev r); [done|].
    assert (E3 : forall x, spaceRune3 x (code space) (code a) = false)
      by (intros x; apply spaceRune3_space_mid).
    by rewrite E3.
  - destruct (asciiSpace a); [done|]. destruct (spaceRune2 (code b) (code a)); [done|].
    intros _.
    assert (E3 : spaceRune3 (code space) (code b) (code a) = false) by done.
    by rewrite E3.
Qed.

Lemma trimSpace_id l : leadSpace l = 0%nat -> trailSpace l = 0%nat -> trimSpace l = l.
Proof.
  intros Hl Ht. unfold trimSpace.
  assert (E : forall f, trimLeft f l = l) by (intros [|f]; simpl; [done | by rewrite Hl]).
  rewrite E. destruct (length l); simpl; [done | by rewrite Ht].
Qed.

Lemma isTrimmed_spec X :
  isTrimmed X = true <->
  bytesOf X <> [] /\ leadSpace (bytesOf X) = 0%nat /\ trailSpace (bytesOf X) = 0%nat.
Proof.
  unfold isTrimmed. rewrite !andb_true_iff, negb_true_iff, String.eqb_neq, !Nat.eqb_eq.
  split; intros [[H1 H2] H3] || intros (H1 & H2 & H3); repeat split; try done.
  - intros E. apply H1. apply bytesOf_inj. by rewrite E.
  - intros ->. by apply H1.
Qed.

Lemma TrimSpace_id X : isTrimmed X = true -> TrimSpace X = X.
Proof.
  intros (_ & Hl & Ht)%isTrimmed_spec. unfold TrimSpace.
  rewrite trimSpace_id by done. apply ofBytes_bytesOf.
Qed.

(** Two trimmed texts joined by a text between two spaces are trimmed. *)
Lemma isTrimmed_join X m Y :
  isTrimmed X = true -> isTrimmed Y = true ->
  isTrimmed (X +:+ " " +:+ m +:+ " " +:+ Y) = true.
Proof.
  intros (HX & HXl & HXt)%isTrimmed_spec (HY & HYl & HYt)%isTrimmed_spec.
  apply isTrimmed_spec. rewrite !bytesOf_app. simpl. repeat split.
  - by destruct (bytesOf X).
  - by apply leadSpace_app_space.
  - replace (bytesOf X ++ " "%char :: bytesOf m ++ " "%char :: bytesOf Y)
      with ((bytesOf X ++ space :: bytesOf m) ++ space :: bytesOf Y)
      by (by rewrite <- app_assoc).
    by apply trailSpace_app_space.
Qed.
End TrimFacts.

Section SplitOperator.
Lemma Split_none s sep :
  bytesOf sep <> [] -> cut (bytesOf sep) (bytesOf s) = None -> Split s sep = [s].
Proof.
  intros Hsep Hcut. unfold Split. destruct (bytesOf sep) eqn:E; [done|].
  destruct (String.length s); simpl; rewrite Hcut; simpl; by rewrite ofBytes_bytesOf.
Qed.

Lemma Split_one s sep bX bY :
  bytesOf sep <> [] ->
  cut (bytesOf sep) (bytesOf s) = Some (bX, bY) -> cut (bytesOf sep) bY = None ->
  Split s sep = [ofBytes bX; ofBytes bY].
Proof.
  intros Hsep Hcut Hrest. unfold Split. destruct (bytesOf sep) as [|c sp] eqn:E; [done|].
  pose proof (cut_Some _ _ _ _ Hcut) as Hs.
  assert (Hlen : (0 < String.length s)%nat).
  { rewrite <- bytesOf_length, Hs, !length_app. simpl. lia. }
  destruct (String.length s) as [|f]; [lia|]. simpl. rewrite Hcut.
  destruct f; simpl; by rewrite Hrest.
Qed.

Lemma splitOnOperator_none e op :
  Split e op = [e] -> Condition.splitOnOperator e op = [].
Proof.
  intros HS. unfold Condition.splitOnOperator. rewrite HS. simpl.
  by destruct (0 <? String.length e)%nat.
Qed.

Lemma Count_zero X sub :
  bytesOf sub <> [] -> cut (bytesOf sub) (bytesOf X) = None -> Count X sub = 0%nat.
Proof.
  intros Hsub Hcut. unfold Count. destruct (bytesOf sub) eqn:E; [done|].
  destruct (String.length X); simpl; by rewrite Hcut.
Qed.

Lemma splitOnOperator_two e op X Y :
  Split e op = [X; Y] -> Count X "(" = 0%nat -> Y <> "" ->
  Condition.splitOnOperator e op = [TrimSpace X; TrimSpace Y].
Proof.
  intros HS HX HY. unfold Condition.splitOnOperator. rewrite HS. simpl.
  rewrite HX. simpl. destruct Y; [done|]. done.
Qed.

Lemma wordFree_free word X :
  wordFree word X = true -> free space (bytesOf word) (bytesOf X).
Proof.
  unfold wordFree, Contains, free. rewrite negb_true_iff.
  replace (bytesOf (" " +:+ word +:+ " ")) with (space :: bytesOf word ++ [space])
    by (by rewrite !bytesOf_app).
  replace (bytesOf (" " +:+ X +:+ " ")) with (space :: bytesOf X ++ [space])
    by (by rewrite !bytesOf_app).
  destruct (cut _ _) eqn:E; [done|]. intros _. by apply cut_None in E.
Qed.

Lemma String_eqb_length a b : String.length a <> String.length b -> String.eqb a b = false.
Proof. intros Hl. apply String.eqb_neq. by intros ->. Qed.

Lemma noParen_app X Y : noParen X = true -> noParen Y = true -> forall m,
  noParen m = true -> noParen (X +:+ m +:+ Y) = true.
Proof.
  unfold noParen, Contains. intros HX HY m Hm.
  repeat match goal with
  | H : _ && _ = true |- _ => apply andb_true_iff in H as [? ?]
  | H : negb _ = true |- _ => apply negb_true_iff in H
  end.
  assert (Hsingle : forall (c : ascii) l, match cut [c] l with Some _ => true | None => false end = false <-> c ∉ l).
  { intros c l. destruct (cut [c] l) as [[b a]|] eqn:E.
    - split; [done|]. intros Hn. exfalso. apply Hn. apply cut_Some in E as ->.
      apply elem_of_app. right. left.
    - split; [|done]. intros _ Hin. apply cut_None in E. apply E.
      apply list_elem_of_split in Hin as (l1 & l2 & ->). by exists l1, l2. }
  simpl in *. rewrite !Hsingle in *. rewrite !andb_true_iff, !negb_true_iff, !Hsingle.
  rewrite !bytesOf_app, !elem_of_app. tauto.
Qed.

Lemma free_wordFree word X :
  free space (bytesOf word) (bytesOf X) -> wordFree word X = true.
Proof.
  unfold wordFree, Contains, free. rewrite negb_true_iff.
  replace (bytesOf (" " +:+ word +:+ " ")) with (space :: bytesOf word ++ [space])
    by (by rewrite !bytesOf_app).
  replace (bytesOf (" " +:+ X +:+ " ")) with (space :: bytesOf X ++ [space])
    by (by rewrite !bytesOf_app).
  intros Hf. destruct (cut _ _) as [[b a]|] eqn:E; [|done].
  exfalso. apply Hf. apply cut_Some in E. by exists b, a.
Qed.

Lemma wordFree_join word X m Y :
  space ∉ bytesOf word ->
  wordFree word X = true -> wordFree word m = true -> wordFree word Y = true ->
  wordFree word (X +:+ " " +:+ m +:+ " " +:+ Y) = true.
Proof.
  intros Hw HX%wordFree_free Hm%wordFree_free HY%wordFree_free.
  apply free_wordFree. rewrite !bytesOf_app.
  apply (free_join space _ Hw); [done|]. by apply (free_join space _ Hw).
Qed.

Lemma splitOnOperator_word word X Y :
  space ∉ bytesOf word ->
  wordFree word X = true -> wordFree word Y = true -> noParen X = true -> Y <> "" ->
  Condition.splitOnOperator (X +:+ " " +:+ word +:+ " " +:+ Y) (" " +:+ word +:+ " ")
  = [TrimSpace X; TrimSpace Y].
Proof.
  intros Hw HX%wordFree_free HY%wordFree_free HP HYne.
  assert (Hsep : bytesOf (" " +:+ word +:+ " ") = space :: bytesOf word ++ [space])
    by (by rewrite !bytesOf_app).
  rewrite <- (ofBytes_bytesOf X) at 2. rewrite <- (ofBytes_bytesOf Y) at 2.
  apply splitOnOperator_two; [| |by rewrite ofBytes_bytesOf].
  - apply Split_one.
    + by rewrite Hsep.
    + rewrite Hsep.
      replace (bytesOf (X +:+ " " +:+ word +:+ " " +:+ Y))
        with (bytesOf X ++ (space :: bytesOf word ++ [space]) ++ bytesOf Y)
        by (rewrite !bytesOf_app; app_eq).
      by apply free_first.
    + rewrite Hsep. by apply free_absent.
  - rewrite ofBytes_bytesOf. apply Count_zero; [done|].
    unfold noParen, Contains in HP. apply andb_true_iff in HP as [HP _].
    apply negb_true_iff in HP. by destruct (cut (bytesOf "(") (bytesOf X)).
Qed.

Lemma splitOnOperator_absent word X :
  space ∉ bytesOf word -> wordFree word X = true ->
  Condition.splitOnOperator X (" " +:+ word +:+ " ") = [].
Proof.
  intros Hw HX%wordFree_free.
  assert (Hsep : bytesOf (" " +:+ word +:+ " ") = space :: bytesOf word ++ [space])
    by (by rewrite !bytesOf_app).
  apply splitOnOperator_none, Split_none; rewrite Hsep; [done|].
  by apply free_absent.
Qed.

Lemma space_notin_and : space ∉ bytesOf "and".
Proof. by apply (bool_decide_unpack _). Qed.

Lemma space_notin_or : space ∉ bytesOf "or".
Proof. by apply (bool_decide_unpack _). Qed.

Lemma isTrimmed_nonempty X : isTrimmed X = true -> X <> "".
Proof. intros (HX & _)%isTrimmed_spec ->. by apply HX. Qed.

Lemma String_length_app a b : String.length (a +:+ b) = (String.length a + String.length b)%nat.
Proof. by rewrite <- !bytesOf_length, bytesOf_app, length_app. Qed.

Context `{Host}.
Variable c : Variables.t.
Variable w : World.

(** One top-level [and]: both sides are evaluated in turn. *)
Lemma Evaluate_and X Y :
  isTrimmed X = true -> isTrimmed Y = true -> noParen X = true ->
  wordFree "and" X = true -> wordFree "and" Y = true ->
  Condition.Evaluate c w (X +:+ " and " +:+ Y)
  = andThen (Condition.Evaluate c w X) (Condition.Evaluate c w Y).
Proof.
  intros HX HY HP HfX HfY.
  change (X +:+ " and " +:+ Y) with (X +:+ " " +:+ "and" +:+ " " +:+ Y).
  rewrite Evaluate_unfold.
  rewrite (TrimSpace_id _ (isTrimmed_join X "and" Y HX HY)).
  unfold evaluateStep.
  pose proof (isTrimmed_nonempty _ HX) as HXne.
  pose proof (isTrimmed_nonempty _ HY) as HYne.
  rewrite !String_eqb_length
    by (rewrite !String_length_app; destruct X; [done|]; simpl; lia).
  change " and " with (" " +:+ "and" +:+ " ").
  rewrite (splitOnOperator_word "and" X Y space_notin_and HfX HfY HP HYne).
  rewrite !TrimSpace_id by done. simpl.
  unfold andThen. destruct (Condition.Evaluate c w X) as [[]| |]; try done.
  by destruct (Condition.Evaluate c w Y) as [[]| |].
Qed.

(** One top-level [or] and no [and]. *)
Lemma Evaluate_or X Y :
  isTrimmed X = true -> isTrimmed Y = true -> noParen X = true ->
  wordFree "and" X = true -> wordFree "and" Y = true ->
  wordFree "or" X = true -> wordFree "or" Y = true ->
  Condition.Evaluate c w (X +:+ " or " +:+ Y)
  = orElse (Condition.Evaluate c w X) (Condition.Evaluate c w Y).
Proof.
  intros HX HY HP HaX HaY HoX HoY.
  change (X +:+ " or " +:+ Y) with (X +:+ " " +:+ "or" +:+ " " +:+ Y).
  rewrite Evaluate_unfold.
  rewrite (TrimSpace_id _ (isTrimmed_join X "or" Y HX HY)).
  unfold evaluateStep.
  pose proof (isTrimmed_nonempty _ HX) as HXne.
  pose proof (isTrimmed_nonempty _ HY) as HYne.
  rewrite !String_eqb_length
    by (rewrite !String_length_app; destruct X; [done|]; destruct Y; [done|]; simpl; lia).
  change " and " with (" " +:+ "and" +:+ " ").
  rewrite (splitOnOperator_absent "and" _ space_notin_and
             (wordFree_join "and" X "or" Y space_notin_and HaX eq_refl HaY)).
  change " or " with (" " +:+ "or" +:+ " ").
  rewrite (splitOnOperator_word "or" X Y space_notin_or HoX HoY HP HYne).
  rewrite !TrimSpace_id by done. simpl.
  unfold orElse. destruct (Condition.Evaluate c w X) as [[]| |]; try done.
  by destruct (Condition.Evaluate c w Y) as [[]| |].
Qed.

Lemma operand_spec X :
  operand X = true ->
  isTrimmed X = true /\ noParen X = true /\ wordFree "and" X = true
  /\ wordFree "or" X = true.
Proof. unfold operand. rewrite !andb_true_iff. tauto. Qed.

(** C4, as amended: [and] binds looser than [or]. For sub-expressions
    [A], [B], [C] without parentheses and without an [and] or [or] of their
    own, [A or B and C] is evaluated as [(A or B) and C]; [B] is evaluated
    only when [A] is false, and [C] only when [A or B] is true. *)
Theorem C4_and_binds_looser_than_or A B C :
  operand A = true -> operand B = true -> operand C = true ->
  Condition.Evaluate c w (A +:+ " or " +:+ B +:+ " and " +:+ C)
  = andThen (orElse (Condition.Evaluate c w A) (Condition.Evaluate c w B))
      (Condition.Evaluate c w C).
Proof.
  intros (HA & HPA & HaA & HoA)%operand_spec (HB & HPB & HaB & HoB)%operand_spec
         (HC & HPC & HaC & HoC)%operand_spec.
  replace (A +:+ " or " +:+ B +:+ " and " +:+ C)
    with ((A +:+ " or " +:+ B) +:+ " and " +:+ C).
  2:{ apply bytesOf_inj. rewrite !bytesOf_app. app_eq. }
  rewrite Evaluate_and; try done.
  - by rewrite Evaluate_or.
  - by apply (isTrimmed_join A "or" B).
  - by apply (noParen_app A B HPA HPB " or ").
  - by apply (wordFree_join "and" A "or" B space_notin_and).
Qed.
End SplitOperator.

Section WordFacts.
Lemma plain_lead a b d :
  (code a <? 128)%N = true -> spaceRune2 (code a) b = false /\ spaceRune3 (code a) b d = false.
Proof.
  intros Ha%N.ltb_lt. unfold spaceRune2, spaceRune3.
  repeat match goal with
  | |- context [(code a =? ?k)%N] => destruct (N.eqb_spec (code a) k); [lia|]
  end. done.
Qed.

Lemma plain_trail a b d :
  (code d <? 128)%N = true -> spaceRune2 a (code d) = false /\ spaceRune3 a b (code d) = false.
Proof.
  intros Ha%N.ltb_lt. unfold spaceRune2, spaceRune3.
  repeat match goal with
  | |- context [(code d =? ?k)%N] => destruct (N.eqb_spec (code d) k); [lia|]
  | |- context [(?k <=? code d)%N] => destruct (N.leb_spec k (code d)); [lia|]
  end. by rewrite ?andb_false_r, ?orb_false_r.
Qed.

Lemma leadSpace_plain c l : plain c = true -> leadSpace (c :: l) = 0%nat.
Proof.
  intros [Hs%negb_true_iff Hc]%andb_true_iff. cbn [leadSpace]. rewrite Hs.
  destruct l as [|b [|d l]];
    [done | by rewrite (proj1 (plain_lead c (code b) 0%N Hc)) |].
  rewrite (proj1 (plain_lead c (code b) 0%N Hc)).
  by rewrite (proj2 (plain_lead c (code b) (code d) Hc)).
Qed.

Lemma trailSpace_plain c l : plain c = true -> trailSpace (l ++ [c]) = 0%nat.
Proof.
  intros [Hs%negb_true_iff Hc]%andb_true_iff. unfold trailSpace.
  rewrite rev_unit. rewrite Hs.
  destruct (rev l) as [|b [|a l']];
    [done | by rewrite (proj1 (plain_trail (code b) 0%N c Hc)) |].
  rewrite (proj1 (plain_trail (code b) 0%N c Hc)).
  by rewrite (proj2 (plain_trail (code a) (code b) c Hc)).
Qed.

Lemma varChar_facts c :
  Variables.varChar c = true ->
  plain c = true /\ c <> space /\ Ascii.eqb "(" c = false /\ Ascii.eqb ")" c = false.
Proof. destruct c as [[] [] [] [] [] [] [] []]; vm_compute; intuition congruence. Qed.

Lemma identStart_varChar c : Variables.identStart c = true -> Variables.varChar c = true.
Proof. unfold Variables.varChar, Variables.identChar. by intros ->. Qed.

Lemma occurs_elem sep l c : occurs sep l -> c ∈ sep -> c ∈ l.
Proof. intros (p & q & ->) Hc. rewrite !elem_of_app. tauto. Qed.

Lemma cnt_joinWords_one x : space ∉ x -> cnt space (space :: x) = 1%nat.
Proof. intros Hx. by rewrite cnt_cons_eq, cnt_notin. Qed.

Lemma cnt_sep w : space ∉ w -> cnt space (space :: w ++ [space]) = 2%nat.
Proof. intros Hw. by rewrite cnt_cons_eq, cnt_app, cnt_cons_eq, cnt_notin. Qed.

(** An operator between two spaces occurs in a text of words only as one
    of its inner words. *)
Lemma occurs_words_tail w rest :
  space ∉ w -> Forall (fun m => space ∉ m) rest ->
  occurs (space :: w ++ [space]) (space :: joinWords rest) -> w ∈ removelast rest.
Proof.
  intros Hw. induction rest as [|m rest IH]; intros Hrest Hocc.
  - apply (occurs_count space) in Hocc. rewrite cnt_sep in Hocc by done.
    change (joinWords []) with (@nil ascii) in Hocc.
    rewrite cnt_cons_eq, (cnt_notin space []) in Hocc by apply not_elem_of_nil. lia.
  - apply Forall_cons in Hrest as [Hm Hrest].
    destruct rest as [|m' rest].
    + simpl in Hocc. apply (occurs_count space) in Hocc.
      rewrite cnt_sep, cnt_joinWords_one in Hocc by done. lia.
    + change (space :: joinWords (m :: m' :: rest))
        with ((space :: m) ++ space :: joinWords (m' :: rest)) in Hocc.
      apply (occurs_across space w Hw) in Hocc as [Hocc|Hocc].
      * destruct (decide (m = w)) as [->|Hne]; [left|].
        exfalso. by apply (free_of_spacefree space w Hw m Hm Hne).
      * change (removelast (m :: m' :: rest)) with (m :: removelast (m' :: rest)).
        right. by apply IH.
Qed.

Lemma occurs_words w x rest :
  space ∉ w -> space ∉ x -> Forall (fun m => space ∉ m) rest ->
  occurs (space :: w ++ [space]) (joinWords (x :: rest)) -> w ∈ removelast rest.
Proof.
  intros Hw Hx Hrest Hocc. destruct rest as [|m rest].
  - exfalso. apply Hx. apply (occurs_elem _ _ space Hocc). left.
  - change (joinWords (x :: m :: rest)) with (x ++ space :: joinWords (m :: rest)) in Hocc.
    apply (occurs_across space w Hw) in Hocc as [Hocc|Hocc].
    + apply (occurs_count space) in Hocc.
      rewrite cnt_sep, cnt_app, cnt_cons_eq, (cnt_notin space x) in Hocc by done.
      rewrite (cnt_notin space []) in Hocc by apply not_elem_of_nil. lia.
    + by apply occurs_words_tail.
Qed.

Lemma spaceFree_spec x : spaceFree x = true <-> space ∉ bytesOf x.
Proof.
  unfold spaceFree. rewrite forallb_forall. split.
  - intros Hall Hin%list_elem_of_In. apply Hall in Hin. by rewrite Ascii.eqb_refl in Hin.
  - intros Hn c Hc%list_elem_of_In. apply negb_true_iff, Ascii.eqb_neq. by intros ->.
Qed.

Lemma Contains_spaceFree X op :
  spaceFree X = true -> space ∈ bytesOf op -> Contains X op = false.
Proof.
  intros HX%spaceFree_spec Hop. unfold Contains.
  destruct (cut (bytesOf op) (bytesOf X)) as [[b a]|] eqn:E; [|done].
  exfalso. apply HX. apply cut_Some in E. rewrite E, !elem_of_app. tauto.
Qed.

Lemma HasPrefix_spaceFree X p :
  spaceFree X = true -> space ∈ bytesOf p -> HasPrefix X p = false.
Proof.
  intros HX%spaceFree_spec Hp. unfold HasPrefix.
  destruct (isPrefix (bytesOf p) (bytesOf X)) eqn:E; [|done].
  exfalso. apply HX. apply isPrefix_spec in E as [r ->]. apply elem_of_app. by left.
Qed.

Lemma splitOnOperator_spaceFree X op :
  spaceFree X = true -> space ∈ bytesOf op -> Condition.splitOnOperator X op = [].
Proof.
  intros HX Hop. apply splitOnOperator_none, Split_none.
  - intros E. rewrite E in Hop. by apply elem_of_nil in Hop.
  - pose proof (Contains_spaceFree X op HX Hop) as HC. unfold Contains in HC.
    by destruct (cut (bytesOf op) (bytesOf X)).
Qed.

Context `{Host}.
Variable c : Variables.t.
Variable w : World.

Lemma comparison_spaceFree X op test :
  spaceFree X = true -> space ∈ bytesOf op -> Condition.comparison c w X op test = None.
Proof.
  intros HX Hop. unfold Condition.comparison. by rewrite Contains_spaceFree.
Qed.

(** A single value: no operator is found, and it is true when the string
    it resolves to is truthy. *)
Lemma Evaluate_value X :
  spaceFree X = true -> isTrimmed X = true -> HasPrefix X "(" = false ->
  X <> "true" -> X <> "false" ->
  Condition.Evaluate c w X = truthiness (Condition.resolveValue c w X).
Proof.
  intros HS HT HP Htrue Hfalse.
  rewrite Evaluate_unfold, TrimSpace_id by done. unfold evaluateStep.
  apply String.eqb_neq in Htrue, Hfalse. rewrite Htrue, Hfalse.
  pose proof (isTrimmed_nonempty _ HT) as Hne. apply String.eqb_neq in Hne. rewrite Hne.
  rewrite !splitOnOperator_spaceFree by (done || by apply (bool_decide_unpack _)).
  rewrite HP. simpl.
  rewrite HasPrefix_spaceFree by (done || by apply (bool_decide_unpack _)).
  unfold Condition.evaluateComparison.
  rewrite !comparison_spaceFree by (done || by apply (bool_decide_unpack _)).
  done.
Qed.
End WordFacts.

Section Comparisons.
Context `{Host}.
Variable c : Variables.t.
Variable w : World.

Lemma word_spec x :
  word x = true ->
  (space ∉ bytesOf x) /\ isTrimmed x = true /\ HasPrefix x "(" = false /\ x <> "not".
Proof.
  unfold word. rewrite !andb_true_iff, !negb_true_iff, spaceFree_spec, String.eqb_neq.
  tauto.
Qed.

(** The bytes of [x m y], the operator [m] between two spaces. *)
Lemma bytesOf_binary x m y :
  bytesOf (x +:+ " " +:+ m +:+ " " +:+ y) = joinWords [bytesOf x; bytesOf m; bytesOf y].
Proof. by rewrite !bytesOf_app. Qed.

Lemma bytesOf_sep m : bytesOf (" " +:+ m +:+ " ") = space :: bytesOf m ++ [space].
Proof. by rewrite !bytesOf_app. Qed.

Lemma joinWords_app ms ns :
  ms <> [] -> ns <> [] -> joinWords (ms ++ ns) = joinWords ms ++ space :: joinWords ns.
Proof.
  intros Hms Hns. induction ms as [|u ms IH]; [done|].
  destruct ms as [|u' ms].
  - simpl. by destruct ns.
  - change (joinWords ((u :: u' :: ms) ++ ns)) with (u ++ space :: joinWords ((u' :: ms) ++ ns)).
    rewrite IH by done. simpl. by rewrite <- app_assoc.
Qed.

Lemma cnt_joinWords ms :
  Forall (fun u => space ∉ u) ms -> cnt space (joinWords ms) = (length ms - 1)%nat.
Proof.
  induction ms as [|u ms IH]; intros Hms.
  - by apply cnt_notin, not_elem_of_nil.
  - apply Forall_cons in Hms as [Hu Hms]. destruct ms as [|u' ms].
    + simpl. by apply cnt_notin.
    + change (joinWords (u :: u' :: ms)) with (u ++ space :: joinWords (u' :: ms)).
      rewrite cnt_app, cnt_cons_eq, IH, cnt_notin by done. simpl. lia.
Qed.

Section Binary.
(** [x m y]: two operands and, between two spaces, the operator [m],
    which is made of the words [ms]. *)
Variables x m y : string.
Variable ms : list bytes.
Hypothesis Hx : word x = true.
Hypothesis Hy : word y = true.
Hypothesis Hm : bytesOf m = joinWords ms.
Hypothesis Hms : Forall (fun u => space ∉ u) ms.
Hypothesis Hne : ms <> [].

Let e := x +:+ " " +:+ m +:+ " " +:+ y.

Lemma binary_words : bytesOf e = joinWords (bytesOf x :: ms ++ [bytesOf y]).
Proof.
  unfold e. rewrite bytesOf_binary, Hm.
  destruct ms as [|u ms']; [done|].
  change (joinWords (bytesOf x :: (u :: ms') ++ [bytesOf y]))
    with (bytesOf x ++ space :: joinWords ((u :: ms') ++ [bytesOf y])).
  by rewrite joinWords_app.
Qed.

Lemma binary_absent m' :
  space ∉ bytesOf m' -> bytesOf m' ∉ ms ->
  cut (bytesOf (" " +:+ m' +:+ " ")) (bytesOf e) = None.
Proof.
  intros Hm' Hnin. apply cut_None. rewrite bytesOf_sep, binary_words.
  destruct (word_spec _ Hx) as (Hsx & _). destruct (word_spec _ Hy) as (Hsy & _).
  intros Hocc%occurs_words; [|done|done|].
  - by rewrite removelast_last in Hocc.
  - apply Forall_app. split; [done | by repeat constructor].
Qed.

Lemma binary_cnt : cnt space (bytesOf e) = S (length ms).
Proof.
  destruct (word_spec _ Hx) as (Hsx & _). destruct (word_spec _ Hy) as (Hsy & _).
  rewrite binary_words, cnt_joinWords.
  - simpl. rewrite length_app. simpl. lia.
  - constructor; [done|]. apply Forall_app. split; [done | by repeat constructor].
Qed.

Lemma binary_absent_more sep :
  (S (length ms) < cnt space (bytesOf sep))%nat -> cut (bytesOf sep) (bytesOf e) = None.
Proof.
  intros Hsep. apply cut_None. intros Hocc%(occurs_count space).
  rewrite binary_cnt in Hocc. lia.
Qed.

Lemma binary_present :
  cut (bytesOf (" " +:+ m +:+ " ")) (bytesOf e) = Some (bytesOf x, bytesOf y).
Proof.
  destruct (word_spec _ Hx) as (Hsx & _).
  unfold e. rewrite bytesOf_sep.
  replace (bytesOf (x +:+ " " +:+ m +:+ " " +:+ y))
    with (bytesOf x ++ (space :: bytesOf m ++ [space]) ++ bytesOf y)
    by (rewrite !bytesOf_app; app_eq).
  apply cut_first; [|done].
  replace (removelast (space :: bytesOf m ++ [space])) with (space :: bytesOf m).
  2:{ change (space :: bytesOf m ++ [space]) with ((space :: bytesOf m) ++ [space]).
      by rewrite removelast_last. }
  intros Hocc%(occurs_count space).
  rewrite !cnt_cons_eq, !cnt_app, !cnt_cons_eq, (cnt_notin space (bytesOf x)) in Hocc
    by done.
  rewrite (cnt_notin space []) in Hocc by apply not_elem_of_nil. lia.
Qed.

Lemma binary_trimmed : TrimSpace e = e.
Proof.
  destruct (word_spec _ Hx) as (_ & Htx & _). destruct (word_spec _ Hy) as (_ & Hty & _).
  apply TrimSpace_id. by apply isTrimmed_join.
Qed.

Lemma binary_not_literal s : spaceFree s = true -> String.eqb e s = false.
Proof.
  intros Hs%spaceFree_spec. apply String.eqb_neq. intros E. apply Hs. rewrite <- E.
  unfold e. rewrite bytesOf_binary. simpl. rewrite elem_of_app. right. left.
Qed.

Lemma binary_no_paren : HasPrefix e "(" = false.
Proof.
  destruct (word_spec _ Hx) as (_ & Htx & Hpx & _).
  apply isTrimmed_nonempty in Htx.
  unfold HasPrefix, e in *. rewrite !bytesOf_app.
  destruct x as [|a x']; [done|]. simpl in *.
  by destruct (Ascii.eqb "(" a).
Qed.

Lemma binary_no_not : HasPrefix e "not " = false.
Proof.
  destruct (word_spec _ Hx) as (Hsx & _ & _ & Hnx).
  unfold HasPrefix. destruct (isPrefix _ _) eqn:E; [|done].
  exfalso. apply Hnx. apply bytesOf_inj.
  apply isPrefix_spec in E as [r Hr]. unfold e in Hr. rewrite !bytesOf_app in Hr.
  change (bytesOf "not " ++ r) with (bytesOf "not" ++ space :: r) in Hr.
  change (bytesOf " " ++ ?l) with (space :: l) in Hr.
  apply first_elem_inj in Hr as [Hr _]; [done|done|].
  by apply (bool_decide_unpack _).
Qed.

(** With an operator that has neither [and] nor [or] among its words,
    the expression is one comparison. *)
Lemma Evaluate_binary :
  bytesOf "and" ∉ ms -> bytesOf "or" ∉ ms ->
  Condition.Evaluate c w e = Condition.evaluateComparison c w e.
Proof.
  intros Hand Hor.
  rewrite Evaluate_unfold, binary_trimmed. unfold evaluateStep.
  rewrite !binary_not_literal by done.
  assert (Hsplit : forall op, space ∉ bytesOf op -> bytesOf op ∉ ms ->
            Condition.splitOnOperator e (" " +:+ op +:+ " ") = []).
  { intros op Hop Hnin. apply splitOnOperator_none, Split_none.
    - by rewrite bytesOf_sep.
    - by apply binary_absent. }
  change " and " with (" " +:+ "and" +:+ " ").
  change " or " with (" " +:+ "or" +:+ " ").
  rewrite !Hsplit by (try apply space_notin_and; try apply space_notin_or; done).
  by rewrite binary_no_paren, binary_no_not.
Qed.

Lemma comparison_absent m' test :
  space ∉ bytesOf m' -> bytesOf m' ∉ ms ->
  Condition.comparison c w e (" " +:+ m' +:+ " ") test = None.
Proof.
  intros Hm' Hnin. unfold Condition.comparison, Contains.
  by rewrite binary_absent.
Qed.

Lemma comparison_absent_more sep test :
  (S (length ms) < cnt space (bytesOf sep))%nat ->
  Condition.comparison c w e sep test = None.
Proof.
  intros Hsep. unfold Condition.comparison, Contains. by rewrite binary_absent_more.
Qed.

Lemma comparison_present test :
  Condition.comparison c w e (" " +:+ m +:+ " ") test = Some (compare c w x y test).
Proof.
  destruct (word_spec _ Hx) as (_ & Htx & _). destruct (word_spec _ Hy) as (_ & Hty & _).
  unfold Condition.comparison, Contains, SplitN2. rewrite binary_present.
  by rewrite !ofBytes_bytesOf, !TrimSpace_id.
Qed.
End Binary.

Ltac word_side :=
  first [ done
        | by apply (bool_decide_unpack _)
        | by repeat constructor; apply (bool_decide_unpack _) ].

Section Operators.
Variables x y : string.
Hypothesis Hx : word x = true.
Hypothesis Hy : word y = true.

Lemma Evaluate_not_contains :
  Condition.Evaluate c w (x +:+ " not contains " +:+ y)
  = compare c w x y (fun left_ right_ => Val (negb (Contains left_ right_))).
Proof.
  change (x +:+ " not contains " +:+ y) with (x +:+ " " +:+ "not contains" +:+ " " +:+ y).
  rewrite (Evaluate_binary x "not contains" y [bytesOf "not"; bytesOf "contains"]);
    try word_side.
  unfold Condition.evaluateComparison.
  change " not contains " with (" " +:+ "not contains" +:+ " ").
  by rewrite comparison_present.
Qed.

Lemma Evaluate_contains :
  Condition.Evaluate c w (x +:+ " contains " +:+ y)
  = compare c w x y (fun left_ right_ => Val (Contains left_ right_)).
Proof.
  change (x +:+ " contains " +:+ y) with (x +:+ " " +:+ "contains" +:+ " " +:+ y).
  rewrite (Evaluate_binary x "contains" y [bytesOf "contains"]); try word_side.
  unfold Condition.evaluateComparison.
  rewrite (comparison_absent_more x "contains" y [bytesOf "contains"])
    by (try word_side; vm_compute; lia).
  change " contains " with (" " +:+ "contains" +:+ " ").
  by rewrite comparison_present.
Qed.

Ltac split_operators :=
  change " contains " with (" " +:+ "contains" +:+ " ");
  change " != " with (" " +:+ "!=" +:+ " ");
  change " == " with (" " +:+ "==" +:+ " ");
  change " >= " with (" " +:+ ">=" +:+ " ");
  change " <= " with (" " +:+ "<=" +:+ " ");
  change " > " with (" " +:+ ">" +:+ " ");
  change " < " with (" " +:+ "<" +:+ " ").

Ltac skip_operator m op :=
  try rewrite comparison_absent with (ms := [bytesOf m]) (m' := op) by word_side.

(** The chain of [evaluateComparison] for the one-word operator [m]. *)
Ltac one_comparison m :=
  rewrite (Evaluate_binary x m y [bytesOf m]); try word_side;
  unfold Condition.evaluateComparison;
  rewrite (comparison_absent_more x m y [bytesOf m])
    by (try word_side; vm_compute; lia);
  split_operators;
  skip_operator m "contains"; skip_operator m "!="; skip_operator m "==";
  skip_operator m ">="; skip_operator m "<="; skip_operator m ">";
  by rewrite comparison_present.

Lemma Evaluate_differs :
  Condition.Evaluate c w (x +:+ " != " +:+ y)
  = compare c w x y (fun left_ right_ => Val (negb (String.eqb left_ right_))).
Proof.
  change (x +:+ " != " +:+ y) with (x +:+ " " +:+ "!=" +:+ " " +:+ y).
  one_comparison "!=".
Qed.

Lemma Evaluate_equals :
  Condition.Evaluate c w (x +:+ " == " +:+ y)
  = compare c w x y (fun left_ right_ => Val (String.eqb left_ right_)).
Proof.
  change (x +:+ " == " +:+ y) with (x +:+ " " +:+ "==" +:+ " " +:+ y).
  one_comparison "==".
Qed.

Lemma Evaluate_ge :
  Condition.Evaluate c w (x +:+ " >= " +:+ y)
  = compare c w x y
      (Condition.numeric (x +:+ " >= " +:+ y) (fun left_ right_ => SFleb right_ left_)).
Proof.
  change (x +:+ " >= " +:+ y) with (x +:+ " " +:+ ">=" +:+ " " +:+ y).
  one_comparison ">=".
Qed.

Lemma Evaluate_le :
  Condition.Evaluate c w (x +:+ " <= " +:+ y)
  = compare c w x y
      (Condition.numeric (x +:+ " <= " +:+ y) (fun left_ right_ => SFleb left_ right_)).
Proof.
  change (x +:+ " <= " +:+ y) with (x +:+ " " +:+ "<=" +:+ " " +:+ y).
  one_comparison "<=".
Qed.

Lemma Evaluate_gt :
  Condition.Evaluate c w (x +:+ " > " +:+ y)
  = compare c w x y
      (Condition.numeric (x +:+ " > " +:+ y) (fun left_ right_ => SFltb right_ left_)).
Proof.
  change (x +:+ " > " +:+ y) with (x +:+ " " +:+ ">" +:+ " " +:+ y).
  one_comparison ">".
Qed.

Lemma Evaluate_lt :
  Condition.Evaluate c w (x +:+ " < " +:+ y)
  = compare c w x y
      (Condition.numeric (x +:+ " < " +:+ y) (fun left_ right_ => SFltb left_ right_)).
Proof.
  change (x +:+ " < " +:+ y) with (x +:+ " " +:+ "<" +:+ " " +:+ y).
  one_comparison "<".
Qed.
End Operators.
End Comparisons.

Section Resolve.
Context `{Host}.
Variable c : Variables.t.
Variable w : World.

Lemma resolveValue_unresolved ref :
  unresolved c (TrimSpace ref) = true -> Condition.resolveValue c w ref = Val "".
Proof.
  unfold unresolved, registeredResult, Condition.resolveValue.
  set (r := TrimSpace ref).
  rewrite !andb_true_iff, !negb_true_iff.
  intros ((((((-> & HF) & ->) & ->) & ->) & HR) & HG).
  destruct (ParseFloat r); [done|]. simpl.
  destruct (Variables.Get c r); [done|].
  destruct (Contains r "."); [|done].
  destruct (SplitN2 r ".") as [|t [|p [|? ?]]]; try done.
  by destruct (Variables.GetTaskResult c t).
Qed.

Lemma resolveValue_unknown_property ref taskName property result :
  Condition.isQuoted (TrimSpace ref) = false ->
  ParseFloat (TrimSpace ref) = None ->
  TrimSpace ref <> "platform" -> TrimSpace ref <> "arch" ->
  HasPrefix (TrimSpace ref) "env." = false ->
  SplitN2 (TrimSpace ref) "." = [taskName; property] ->
  Variables.GetTaskResult c taskName = Some result ->
  knownProperty property = false ->
  Condition.resolveValue c w ref
  = Fail (Errorf ("unknown task result property: " +:+ property)).
Proof.
  unfold Condition.resolveValue. set (r := TrimSpace ref).
  intros -> -> Hp%String.eqb_neq Ha%String.eqb_neq -> HS HG HK. simpl.
  rewrite Hp, Ha.
  assert (HC : Contains r "." = true).
  { unfold Contains. unfold SplitN2 in HS. by destruct (cut (bytesOf ".") (bytesOf r)). }
  rewrite HC, HS, HG.
  unfold knownProperty in HK. simpl in HK.
  repeat (apply orb_false_iff in HK as [? HK]).
  repeat match goal with E : String.eqb property _ = false |- _ => rewrite E; clear E end.
  done.
Qed.

Lemma quote_plain : plain (ascii_of_nat 34) = true.
Proof. done. Qed.

Lemma bytesOf_quoted lit :
  bytesOf (quoted lit) = ascii_of_nat 34 :: bytesOf lit ++ [ascii_of_nat 34].
Proof. unfold quoted. by rewrite !bytesOf_app. Qed.

Lemma quoted_trimmed lit : isTrimmed (quoted lit) = true.
Proof.
  apply isTrimmed_spec. rewrite bytesOf_quoted. repeat split; [done| |].
  - by apply leadSpace_plain.
  - change (ascii_of_nat 34 :: bytesOf lit ++ [ascii_of_nat 34])
      with ((ascii_of_nat 34 :: bytesOf lit) ++ [ascii_of_nat 34]).
    by apply trailSpace_plain.
Qed.

Lemma quoted_word lit : spaceFree lit = true -> word (quoted lit) = true.
Proof.
  intros HS%spaceFree_spec. unfold word.
  rewrite quoted_trimmed. rewrite !andb_true_iff, !negb_true_iff.
  split; [split; [split; [|done]|]|].
  - apply spaceFree_spec. rewrite bytesOf_quoted.
    rewrite not_elem_of_cons, not_elem_of_app, not_elem_of_cons. repeat split; try done.
    apply not_elem_of_nil.
  - unfold HasPrefix. by rewrite bytesOf_quoted.
  - apply String.eqb_neq. intros E%(f_equal bytesOf). by rewrite bytesOf_quoted in E.
Qed.

Lemma isSuffix_last p l : isSuffix [p] (l ++ [p]) = true.
Proof. unfold isSuffix. rewrite rev_unit. simpl. by rewrite Ascii.eqb_refl. Qed.

Lemma resolveValue_quoted lit : Condition.resolveValue c w (quoted lit) = Val lit.
Proof.
  unfold Condition.resolveValue. rewrite (TrimSpace_id _ (quoted_trimmed lit)).
  assert (HQ : Condition.isQuoted (quoted lit) = true).
  { unfold Condition.isQuoted, HasPrefix, HasSuffix. rewrite bytesOf_quoted.
    change (ascii_of_nat 34 :: bytesOf lit ++ [ascii_of_nat 34])
      with ((ascii_of_nat 34 :: bytesOf lit) ++ [ascii_of_nat 34]).
    change (bytesOf dquote) with [ascii_of_nat 34].
    by rewrite isSuffix_last. }
  rewrite HQ.
  assert (Hlen : String.length (quoted lit) = S (S (String.length lit))).
  { rewrite <- !bytesOf_length, bytesOf_quoted. simpl. rewrite length_app. simpl. lia. }
  unfold slice. rewrite Hlen.
  replace (S (S (String.length lit)) - 1)%nat with (S (String.length lit)) by lia.
  replace ((1 <=? S (String.length lit))%nat) with true by (symmetry; apply Nat.leb_le; lia).
  replace ((S (String.length lit) <=? S (S (String.length lit)))%nat) with true
    by (symmetry; apply Nat.leb_le; lia).
  rewrite bytesOf_quoted. cbn [andb drop]. rewrite Nat.sub_succ, Nat.sub_0_r.
  rewrite drop_0, <- bytesOf_length, take_app_length. by rewrite ofBytes_bytesOf.
Qed.

Lemma identifier_spec x :
  identifier x = true ->
  spaceFree x = true /\ isTrimmed x = true /\ HasPrefix x "(" = false.
Proof.
  unfold identifier. destruct (bytesOf x) as [|a r] eqn:E; [done|].
  intros [Ha%identStart_varChar Hr]%andb_true_iff.
  assert (Hall : forall b, b ∈ a :: r -> Variables.varChar b = true).
  { intros b [->|Hb]%elem_of_cons; [done|].
    rewrite forallb_forall in Hr. by apply Hr, list_elem_of_In. }
  repeat split.
  - unfold spaceFree. rewrite E. apply forallb_forall. intros b Hb%list_elem_of_In.
    apply Hall, varChar_facts in Hb as (_ & Hb & _).
    by apply negb_true_iff, Ascii.eqb_neq.
  - apply isTrimmed_spec. rewrite E. repeat split; [done| |].
    + apply leadSpace_plain. apply varChar_facts in Ha. tauto.
    + destruct (exists_last (l := a :: r) ltac:(done)) as (l' & z & El).
      rewrite El. apply trailSpace_plain.
      assert (Hz : z ∈ a :: r) by (rewrite El; apply elem_of_app; right; left).
      apply Hall, varChar_facts in Hz. tauto.
  - unfold HasPrefix. rewrite E. cbn [bytesOf list_ascii_of_string isPrefix].
    apply varChar_facts in Ha as (_ & _ & -> & _). done.
Qed.

Lemma Contains_empty lit : Contains "" lit = String.eqb lit "".
Proof. unfold Contains. by destruct lit. Qed.
End Resolve.

Section Claims.
Context `{Host}.
Variable c : Variables.t.
Variable w : World.

Lemma isTruthy_spec val :
  Condition.isTruthy val
  = negb (bool_decide (TrimSpace (ToLower mapUnicodeLower val) ∈ falsy)).
Proof.
  unfold Condition.isTruthy, falsy.
  set (v := TrimSpace (ToLower mapUnicodeLower val)).
  repeat match goal with
  | |- context [String.eqb v ?s] =>
      destruct (String.eqb_spec v s) as [->|?]; [done|]
  end.
  symmetry. apply negb_true_iff, bool_decide_eq_false.
  rewrite !elem_of_cons, elem_of_nil. tauto.
Qed.

Lemma quoted_value lit :
  spaceFree lit = true ->
  Condition.Evaluate c w (quoted lit) = Val (Condition.isTruthy lit).
Proof.
  intros HS. pose proof (quoted_word lit HS) as HW.
  unfold word in HW. rewrite !andb_true_iff, !negb_true_iff in HW.
  destruct HW as (((HS' & HT) & HP) & _).
  rewrite Evaluate_value; try done.
  by rewrite resolveValue_quoted.
Qed.

(** C5, as amended: the empty condition and [true] are true, [false] and
    [0] are false; an identifier is true exactly when the string it
    resolves to is truthy, so an identifier that resolves nowhere is false
    and the literal in quotes is true when its text is truthy; a string is
    truthy when its lowercased, trimmed form is none of the eight. *)
Theorem C5_truthiness x lit :
  Condition.isSome (ParseFloat "0") = true ->
  identifier x = true -> x <> "true" -> x <> "false" -> spaceFree lit = true ->
  Condition.Evaluate c w "" = Val true
  /\ Condition.Evaluate c w "true" = Val true
  /\ Condition.Evaluate c w "false" = Val false
  /\ Condition.Evaluate c w "0" = Val false
  /\ Condition.Evaluate c w x = truthiness (Condition.resolveValue c w x)
  /\ (unresolved c x = true -> Condition.Evaluate c w x = Val false)
  /\ Condition.Evaluate c w (quoted lit) = Val (Condition.isTruthy lit)
  /\ (forall val, Condition.isTruthy val
                  = negb (bool_decide (TrimSpace (ToLower mapUnicodeLower val) ∈ falsy))).
Proof.
  intros H0 Hx Htrue Hfalse Hlit.
  destruct (identifier_spec x Hx) as (HS & HT & HP).
  assert (Hval : Condition.Evaluate c w x = truthiness (Condition.resolveValue c w x))
    by (by apply Evaluate_value).
  repeat split; try done.
  - rewrite Evaluate_value by done.
    unfold Condition.resolveValue.
    change (TrimSpace "0") with "0". change (Condition.isQuoted "0") with false.
    cbn iota. by destruct (ParseFloat "0").
  - intros Hu. rewrite Hval, resolveValue_unresolved; [done|].
    by rewrite TrimSpace_id.
  - by apply quoted_value.
  - apply isTruthy_spec.
Qed.

End Claims.

Section Examples.
Import Example.


(** The claim of C4 fails at [true or false and false]: the code gives
    false, [true or (false and false)] is true. *)
Lemma C4_counterexample :
  Condition.Evaluate (H := linux) fresh boot "true or false and false"
  <> orElse (Condition.Evaluate (H := linux) fresh boot "true")
       (andThen (Condition.Evaluate (H := linux) fresh boot "false")
          (Condition.Evaluate (H := linux) fresh boot "false")).
Proof. vm_compute. discriminate. Qed.

Lemma C4_witness :
  Condition.Evaluate (H := linux) fresh boot ("true" +:+ " or " +:+ "false" +:+ " and " +:+ "false")
  = andThen (orElse (Condition.Evaluate (H := linux) fresh boot "true")
               (Condition.Evaluate (H := linux) fresh boot "false"))
      (Condition.Evaluate (H := linux) fresh boot "false").
Proof. apply (C4_and_binds_looser_than_or (H := linux) fresh boot "true" "false" "false"); reflexivity. Defined.

(** The claim of C5 fails at [x]: an identifier no one defined is false. *)
Lemma C5_counterexample : Condition.Evaluate (H := linux) fresh boot "x" <> Val true.
Proof. vm_compute. discriminate. Qed.

Lemma C5_witness :
  Condition.Evaluate (H := linux) fresh boot "" = Val true
  /\ Condition.Evaluate (H := linux) fresh boot "true" = Val true
  /\ Condition.Evaluate (H := linux) fresh boot "false" = Val false
  /\ Condition.Evaluate (H := linux) fresh boot "0" = Val false
  /\ Condition.Evaluate (H := linux) fresh boot "x" = truthiness (H := linux) (Condition.resolveValue (H := linux) fresh boot "x")
  /\ (unresolved (H := linux) fresh "x" = true -> Condition.Evaluate (H := linux) fresh boot "x" = Val false)
  /\ Condition.Evaluate (H := linux) fresh boot (quoted "x") = Val (Condition.isTruthy (H := linux) "x")
  /\ (forall val, Condition.isTruthy (H := linux) val
                  = negb (bool_decide (TrimSpace (ToLower (mapUnicodeLower (Host := linux)) val) ∈ falsy))).
Proof.
  apply (C5_truthiness (H := linux) fresh boot "x" "x"); [reflexivity | reflexivity | | | reflexivity];
    discriminate.
Defined.

End Examples.

Section Admission.
Context `{Host}.

Lemma hexDigit_lower n : (n < 16)%N -> isLowerHex (hexDigit n) = true.
Proof.
  intros Hn.
  assert (Hcases : n ∈ (N.of_nat <$> seq 0 16)).
  { apply list_elem_of_fmap. exists (N.to_nat n). split; [lia|].
    apply list_elem_of_In, in_seq. lia. }
  simpl in Hcases. rewrite !elem_of_cons, elem_of_nil in Hcases.
  repeat destruct Hcases as [->|Hcases]; done.
Qed.

Lemma code_bound ch : (code ch < 256)%N.
Proof. apply N_ascii_bounded. Qed.

Lemma EncodeToString_lower src :
  Forall (fun ch => isLowerHex ch = true) (bytesOf (EncodeToString src)).
Proof.
  unfold EncodeToString. rewrite bytesOf_ofBytes.
  induction src as [|ch src IH]; simpl; [constructor|].
  pose proof (code_bound ch).
  constructor; [|constructor; [|done]]; apply hexDigit_lower.
  - apply N.Div0.div_lt_upper_bound. lia.
  - apply N.mod_lt. lia.
Qed.

Lemma String_eqb_false_neq a b : String.eqb a b = false <-> a <> b.
Proof. apply String.eqb_neq. Qed.

(** C2. All checks pass exactly when the content, the hash and the
    signature are present, the lowercase hexadecimal SHA-256 of the content
    is the expected hash, the signature verifies over the raw digest under
    the pinned key, and the status is [approved] or [test]. The checks run
    in this order, and the first one to fail gives a record that does not
    pass, with its own failure reason and error. *)
Theorem C2_verify_pipeline (v : Verifier.t) (sp : SignedPlaybook.t) :
  let record := (Verifier.Verify v sp).1 in
  let err := (Verifier.Verify v sp).2 in
  (VerificationRecord.AllChecksPass record = true
   <-> presenceCheck sp /\ digestCheck sp /\ signatureCheck v sp /\ approvalCheck sp)
  /\ (err = None <-> VerificationRecord.AllChecksPass record = true)
  /\ (VerificationRecord.AllChecksPass record = false
      -> VerificationRecord.FailureReason record <> "")
  /\ Forall (fun ch => isLowerHex ch = true)
       (bytesOf (VerificationRecord.CalculatedHash record))
  (* presence *)
  /\ (SignedPlaybook.Content sp = ""
      -> err = Some ErrEmptyContent
         /\ VerificationRecord.FailureReason record = "empty playbook content")
  /\ (SignedPlaybook.Content sp <> "" -> SignedPlaybook.SHA256Hash sp = ""
      -> err = Some ErrMissingHash
         /\ VerificationRecord.FailureReason record = "missing playbook hash")
  /\ (SignedPlaybook.Content sp <> "" -> SignedPlaybook.SHA256Hash sp <> ""
      -> SignedPlaybook.Signature sp = []
      -> err = Some ErrMissingSignature
         /\ VerificationRecord.FailureReason record = "missing playbook signature")
  (* digest *)
  /\ (presenceCheck sp -> ~ digestCheck sp
      -> err = Some ErrHashMismatch
         /\ VerificationRecord.HashVerified record = false
         /\ VerificationRecord.FailureReason record
            = "hash mismatch: expected " +:+ SignedPlaybook.SHA256Hash sp +:+ ", got "
              +:+ EncodeToString (Sum256 (SignedPlaybook.Content sp)))
  (* signature *)
  /\ (presenceCheck sp -> digestCheck sp -> ~ signatureCheck v sp
      -> err = Some ErrInvalidSignature
         /\ VerificationRecord.HashVerified record = true
         /\ VerificationRecord.SignatureVerified record = false
         /\ VerificationRecord.FailureReason record = "signature verification failed")
  (* approval *)
  /\ (presenceCheck sp -> digestCheck sp -> signatureCheck v sp -> ~ approvalCheck sp
      -> err = Some ErrNotApproved
         /\ VerificationRecord.HashVerified record = true
         /\ VerificationRecord.SignatureVerified record = true
         /\ VerificationRecord.ApprovalVerified record = false
         /\ VerificationRecord.FailureReason record
            = "playbook status is '" +:+ SignedPlaybook.Status sp
              +:+ "', expected 'approved' or 'test'").
Proof.
  unfold presenceCheck, digestCheck, signatureCheck, approvalCheck, Verifier.Verify.
  pose proof (EncodeToString_lower (Sum256 (SignedPlaybook.Content sp))) as Hhex.
  destruct (String.eqb_spec (SignedPlaybook.Content sp) "") as [Hc|Hc].
  { cbn. repeat split; try done; try tauto; intros; try tauto; constructor. }
  destruct (String.eqb_spec (SignedPlaybook.SHA256Hash sp) "") as [Hh|Hh].
  { cbn. repeat split; try done; try tauto; intros; try tauto; constructor. }
  destruct (SignedPlaybook.Signature sp) as [|s0 sig] eqn:Hs.
  { cbn. repeat split; try done; try tauto; intros; try tauto; constructor. }
  cbn [length Nat.eqb].
  destruct (String.eqb_spec (EncodeToString (Sum256 (SignedPlaybook.Content sp)))
              (SignedPlaybook.SHA256Hash sp)) as [Hd|Hd].
  2:{ cbn. repeat split; try done; try tauto; intros; try tauto. }
  cbn [negb].
  destruct (ed25519Verify (Verifier.serverPublicKey v)
              (Sum256 (SignedPlaybook.Content sp)) (s0 :: sig)) eqn:Hv.
  2:{ cbn. repeat split; try done; try tauto; intros; try tauto; try congruence. }
  cbn [negb].
  unfold StatusApproved, StatusTest.
  destruct (String.eqb_spec (SignedPlaybook.Status sp) "approved") as [Ha|Ha];
    destruct (String.eqb_spec (SignedPlaybook.Status sp) "test") as [Ht|Ht];
    cbn; repeat split; try done; try tauto; intros; try tauto; try congruence.
Qed.

(** The verifier returns an error exactly when the record does not
    pass. *)
Lemma Verify_error_iff (v : Verifier.t) (sp : SignedPlaybook.t) :
  (Verifier.Verify v sp).2 = None
  <-> VerificationRecord.AllChecksPass (Verifier.Verify v sp).1 = true.
Proof.
  unfold Verifier.Verify. repeat case_match; simpl; split; congruence.
Qed.
End Admission.

Section Rejection.
Context `{Host}.
Import Executor.

Lemma taskLoop_Verification e ctx playbook tasks report vars notified st :
  match taskLoop e ctx playbook tasks report vars notified st with
  | Done (LoopReturn r _ _) | Done (LoopDone r _ _ _) =>
      ExecutionReport.Verification r = ExecutionReport.Verification report
  | Panicked => True
  end.
Proof.
  revert report vars notified st.
  induction tasks as [|task rest IH]; intros report vars notified st; simpl; [done|].
  destruct (ctx (world st)); [done|].
  destruct (executeTask e ctx task vars st) as [[result st']|]; [|done].
  destruct (TaskResult.Status result); simpl;
    repeat match goal with
    | |- context [if ?b then _ else _] => destruct b; simpl
    end; try done;
    match goal with
    | |- context [taskLoop e ctx playbook rest ?r ?v ?n ?s] =>
        specialize (IH r v n s); destruct (taskLoop e ctx playbook rest r v n s) as [[]|];
        done
    end.
Qed.

Lemma handlerLoop_Verification e ctx hs report vars notified st :
  match handlerLoop e ctx hs report vars notified st with
  | Done (r, _) => ExecutionReport.Verification r = ExecutionReport.Verification report
  | Panicked => True
  end.
Proof.
  revert report st.
  induction hs as [|handler rest IH]; intros report st; simpl; [done|].
  destruct (default false (notified !! Task.Name handler)); [|apply IH].
  destruct (executeTask e ctx handler vars st) as [[result st']|]; [|done].
  match goal with
  | |- context [handlerLoop e ctx rest ?r vars notified ?s] =>
      specialize (IH r s); destruct (handlerLoop e ctx rest r vars notified s) as [[]|];
      [|done]
  end.
  rewrite IH. by destruct (_ && _).
Qed.

(** The report of [Execute] carries the record of the verifier, whatever
    the run does next. *)
Lemma Execute_Verification e ctx sp st report err st' :
  Execute e ctx sp st = Done (report, err, st') ->
  ExecutionReport.Verification report = (Verifier.Verify (verifier e) sp).1.
Proof.
  unfold Execute.
  destruct (Verifier.Verify (verifier e) sp) as [record [verr|]]; [by intros [= <- _ _]|].
  destruct (Parser.Parse (parser e) (SignedPlaybook.Content sp)) as [pb|perr|];
    [|by intros [= <- _ _]|done].
  destruct (_ && _); [by intros [= <- _ _]|].
  match goal with
  | |- context [taskLoop e ctx pb ?ts ?r ?v ?n st] =>
      pose proof (taskLoop_Verification e ctx pb ts r v n st) as HT;
      destruct (taskLoop e ctx pb ts r v n st) as [[r1 e1 s1|r1 v1 n1 s1]|]; [| |done]
  end.
  - intros [= <- _ _]. by rewrite HT.
  - pose proof (handlerLoop_Verification e ctx (Playbook.Handlers pb) r1 v1 n1 s1) as HH.
    destruct (handlerLoop e ctx (Playbook.Handlers pb) r1 v1 n1 s1) as [[r2 s2]|]; [|done].
    intros [= <- _ _]. simpl. by rewrite HH, HT.
Qed.

Lemma DryRun_Verification e ctx sp st report err st' :
  DryRun e ctx sp st = Done (report, err, st') ->
  ExecutionReport.Verification report = (Verifier.Verify (verifier e) sp).1.
Proof.
  unfold DryRun.
  destruct (Verifier.Verify (verifier e) sp) as [record [verr|]]; [by intros [= <- _ _]|].
  destruct (Parser.Parse (parser e) (SignedPlaybook.Content sp)) as [pb|perr|];
    [|by intros [= <- _ _]|done].
  set (r0 := ExecutionReport.setTasksTotal _ _).
  assert (HV : forall ts r, ExecutionReport.Verification (fold_left (simulate e) ts r)
                            = ExecutionReport.Verification r).
  { induction ts as [|t ts IH]; intros r; simpl; [done|]. rewrite IH.
    unfold simulate. by destruct (simulateTask e t). }
  destruct (0 <? _)%Z; intros [= <- _ _]; simpl; by rewrite HV.
Qed.

(** C1. When the verifier fails a check, [Execute] and [DryRun] return a
    report with status [rejected] that carries the record of the verifier,
    which does not pass, and no task result; the state they leave is the
    state they found, so that neither a handler nor the progress callback
    was called. The report of any run carries the record of the verifier:
    a report whose record does not pass is such a rejection. *)
Theorem C1_rejected_before_any_dispatch e ctx sp st :
  VerificationRecord.AllChecksPass (Verifier.Verify (verifier e) sp).1 = false ->
  rejects e sp st (Execute e ctx sp st)
  /\ rejects e sp st (DryRun e ctx sp st)
  /\ (forall report err st',
        Execute e ctx sp st = Done (report, err, st')
        \/ DryRun e ctx sp st = Done (report, err, st') ->
        ExecutionReport.Verification report = (Verifier.Verify (verifier e) sp).1
        /\ ExecutionReport.TaskResults report = [] /\ st' = st).
Proof.
  intros Hfail.
  assert (Herr : exists err, (Verifier.Verify (verifier e) sp).2 = Some err).
  { destruct (Verifier.Verify (verifier e) sp).2 as [err|] eqn:E; [by exists err|].
    apply Verify_error_iff in E. congruence. }
  destruct Herr as [err Herr].
  assert (HE : rejects e sp st (Execute e ctx sp st)).
  { unfold rejects, Execute.
    destruct (Verifier.Verify (verifier e) sp) as [record verr]. simpl in *. subst verr.
    eexists _, err. repeat split; done. }
  assert (HD : rejects e sp st (DryRun e ctx sp st)).
  { unfold rejects, DryRun.
    destruct (Verifier.Verify (verifier e) sp) as [record verr]. simpl in *. subst verr.
    eexists _, err. repeat split; done. }
  split; [exact HE|]. split; [exact HD|].
  intros report verr st' Hrun.
  destruct HE as (r1 & e1 & HE & _ & _ & HV1 & _ & HR1).
  destruct HD as (r2 & e2 & HD & _ & _ & HV2 & _ & HR2).
  destruct Hrun as [Hrun|Hrun]; [rewrite HE in Hrun|rewrite HD in Hrun];
    injection Hrun as Hr _ Hs; subst; done.
Qed.
End Rejection.

Section Loop.
Context `{Host}.
Import Executor.

Lemma attempts_TaskName e ctx handler task params vars n attempt maxAttempts result
    lastErr st :
  TaskResult.TaskName
    (loopResult (attempts e ctx handler task params vars n attempt maxAttempts result
                   lastErr st))
  = TaskResult.TaskName result.
Proof.
  revert attempt result lastErr st.
  induction n as [|n IH]; intros attempt result lastErr st; simpl; [done|].
  destruct (Execute_ handler ctx params vars (world st)) as [[[r|] [err|]] w1]; simpl;
    try done;
    repeat match goal with
    | |- context [if ?b then _ else _] => destruct b; simpl
    | |- context [let '(_, _) := ?x in _] => destruct x; simpl
    end; try done; by rewrite IH.
Qed.

Lemma executeTask_TaskName e ctx task vars st result st' :
  executeTask e ctx task vars st = Done (result, st') ->
  TaskResult.TaskName result = Task.Name task.
Proof.
  destruct task as [name id plat when action params reg res ign retries delay notify rb].
  cbn [executeTask Task.Name Task.ID Task.Platform Task.When Task.Action Task.Params
       Task.Result Task.Retries Task.Rollback].
  destruct (_ && _); [by intros [= <- _]|].
  destruct (if negb _ then _ else _) as [[]| |]; try done; try by intros [= <- _].
  destruct (handlers e !! action) as [handler|]; [|by intros [= <- _]].
  destruct (negb _); [by intros [= <- _]|].
  destruct (Variables.SubstituteMap _ _ _) as [ps| |]; try done; [|by intros [= <- _]].
  match goal with
  | |- context [attempts ?a ?b ?c ?d ?e' ?f ?g ?h ?i ?j ?k ?l] =>
      pose proof (attempts_TaskName a b c d e' f g h i j k l) as HA;
      destruct (attempts a b c d e' f g h i j k l) as [r s|r le s]
  end; simpl in HA.
  - by intros [= <- _].
  - destruct rb as [rollback|].
    + destruct (executeTask e ctx rollback vars s) as [[rr rs]|]; [|done].
      destruct (decide _); intros [= <- _]; done.
    + by intros [= <- _].
Qed.

Lemma markNotified_spec notified task result N :
  markNotified notified task result !! N = Some true
  <-> notified !! N = Some true
      \/ (TaskResult.Changed result = true /\ N ∈ Task.Notify task).
Proof.
  unfold markNotified. revert notified.
  induction (Task.Notify task) as [|name names IH]; intros notified; simpl.
  - rewrite elem_of_nil. tauto.
  - rewrite IH, elem_of_cons. destruct (TaskResult.Changed result).
    + destruct (decide (name = N)) as [->|Hne].
      * rewrite lookup_insert_eq. tauto.
      * rewrite lookup_insert_ne by done. intuition congruence.
    + intuition congruence.
Qed.

(** The task loop, when it runs to its end: every task was executed, in
    order, each from the state the one before left, and the names marked
    are the ones notified. *)
Lemma taskLoop_done e ctx playbook tasks report vars notified st report1 vars1
    notified1 st1 :
  taskLoop e ctx playbook tasks report vars notified st
  = Done (LoopDone report1 vars1 notified1 st1) ->
  exists results,
    ExecutionReport.TaskResults report1 = ExecutionReport.TaskResults report ++ results
    /\ runTasks e ctx tasks vars st = Done (results, vars1, st1)
    /\ (forall N, notified1 !! N = Some true
                  <-> notified !! N = Some true \/ notifiedBy tasks results N).
Proof.
  revert report vars notified st.
  induction tasks as [|task rest IH]; intros report vars notified st; simpl.
  - intros [= <- <- <- <-]. exists []. rewrite app_nil_r. split; [done|split; [done|]].
    intros N. split; [tauto|]. intros [?|(i & t & r & Hi & _)]; [done|].
    by rewrite lookup_nil in Hi.
  - destruct (ctx (world st)); [done|].
    unfold runTasks. cbn [runEach].
    destruct (executeTask e ctx task vars st) as [[result st']|] eqn:HE; [|done].
    assert (Hstep : forall report' notified',
      ExecutionReport.TaskResults report'
      = ExecutionReport.TaskResults report ++ [result] ->
      (forall N, notified' !! N = Some true
                 <-> notified !! N = Some true
                     \/ (TaskResult.Status result = TaskStatusCompleted
                         /\ TaskResult.Changed result = true /\ N ∈ Task.Notify task)) ->
      taskLoop e ctx playbook rest report' (registerResult vars task result) notified' st'
      = Done (LoopDone report1 vars1 notified1 st1) ->
      exists results,
        ExecutionReport.TaskResults report1 = ExecutionReport.TaskResults report ++ results
        /\ match runEach e ctx registerResult rest (registerResult vars task result) st'
           with
           | Panicked => Panicked
           | Done (results, vars', st'') => Done (result :: results, vars', st'')
           end = Done (results, vars1, st1)
        /\ (forall N, notified1 !! N = Some true
                      <-> notified !! N = Some true
                          \/ notifiedBy (task :: rest) results N)).
    { intros report' notified' HR HN HL.
      apply IH in HL as (results & HR1 & Hrun & HN1).
      exists (result :: results). split; [|split].
      - rewrite HR1, HR. by rewrite <- app_assoc.
      - unfold runTasks in Hrun. by rewrite Hrun.
      - intros N. rewrite HN1, HN. split.
        + intros [[?|(Hs & Hc & Hn)]|(i & t & r & Hi & Hr & Hrest)]; [tauto| |].
          * right. exists 0%nat, task, result. done.
          * right. exists (S i), t, r. done.
        + intros [?|(i & t & r & Hi & Hr & Hs & Hc & Hn)]; [tauto|].
          destruct i as [|i]; simpl in Hi, Hr.
          * injection Hi as <-. injection Hr as <-. tauto.
          * right. exists i, t, r. done. }
    unfold registerResult in Hstep at 1.
    destruct (TaskResult.Status result) eqn:HS; simpl.
    + apply Hstep; [done|]. intros N. split; [tauto|]. intros [?|(? & _)]; done.
    + apply Hstep; [done|]. intros N. split; [tauto|]. intros [?|(? & _)]; done.
    + apply Hstep; [done|]. intros N. rewrite markNotified_spec. tauto.
    + destruct (_ && _); [done|].
      apply Hstep; [done|]. intros N. split; [tauto|]. intros [?|(? & _)]; done.
    + apply Hstep; [done|]. intros N. split; [tauto|]. intros [?|(? & _)]; done.
Qed.

(** The task loop, when it returns early: the first tasks were executed,
    in order, and the state returned is the one the last of them left. *)
Lemma taskLoop_return e ctx playbook tasks report vars notified st report1 err st1 :
  taskLoop e ctx playbook tasks report vars notified st
  = Done (LoopReturn report1 err st1) ->
  exists results vars1,
    ExecutionReport.TaskResults report1 = ExecutionReport.TaskResults report ++ results
    /\ runTasks e ctx (take (length results) tasks) vars st = Done (results, vars1, st1).
Proof.
  revert report vars notified st.
  induction tasks as [|task rest IH]; intros report vars notified st; simpl; [done|].
  destruct (ctx (world st)).
  { intros [= <- _ <-]. exists [], vars. by rewrite app_nil_r. }
  destruct (executeTask e ctx task vars st) as [[result st']|] eqn:HE; [|done].
  assert (Hstep : forall report' notified',
    ExecutionReport.TaskResults report'
    = ExecutionReport.TaskResults report ++ [result] ->
    taskLoop e ctx playbook rest report' (registerResult vars task result) notified' st'
    = Done (LoopReturn report1 err st1) ->
    exists results vars1,
      ExecutionReport.TaskResults report1 = ExecutionReport.TaskResults report ++ results
      /\ runTasks e ctx (take (length results) (task :: rest)) vars st
         = Done (results, vars1, st1)).
  { intros report' notified' HR HL.
    apply IH in HL as (results & vars1 & HR1 & Hrun).
    exists (result :: results), vars1. split.
    - rewrite HR1, HR. by rewrite <- app_assoc.
    - unfold runTasks in *. simpl. by rewrite HE, Hrun. }
  unfold registerResult in Hstep at 1.
  destruct (TaskResult.Status result) eqn:HS; simpl; try (by apply Hstep).
  destruct (_ && _); [|by apply Hstep].
  intros [= <- _ <-]. exists [result], (registerResult vars task result).
  split; [done|]. unfold runTasks. simpl. by rewrite HE.
Qed.

(** The handler loop: the entries whose name is marked were executed, in
    the order of the list, each once and from the state the one before
    left, all with the variables of the end of the tasks. *)
Lemma handlerLoop_done e ctx hs report vars notified st report2 st2 :
  handlerLoop e ctx hs report vars notified st = Done (report2, st2) ->
  exists results,
    ExecutionReport.TaskResults report2 = ExecutionReport.TaskResults report ++ results
    /\ runHandlers e ctx
         (filter (fun h => default false (notified !! Task.Name h) = true) hs) vars st
       = Done (results, vars, st2).
Proof.
  revert report st. induction hs as [|handler rest IH]; intros report st; simpl.
  - intros [= <- <-]. exists []. by rewrite app_nil_r.
  - destruct (default false (notified !! Task.Name handler)) eqn:HN.
    + rewrite filter_cons_True by done. unfold runHandlers. cbn [runEach].
      destruct (executeTask e ctx handler vars st) as [[result st']|] eqn:HE; [|done].
      intros (results & HR & Hrun)%IH.
      exists (result :: results). split.
      * rewrite HR. destruct (_ && _); simpl; by rewrite <- app_assoc.
      * unfold runHandlers in Hrun. by rewrite Hrun.
    + rewrite filter_cons_False by (rewrite HN; done). apply IH.
Qed.

(** A run gives one result per task. *)
Lemma runEach_length e ctx after tasks vars st results vars1 st1 :
  runEach e ctx after tasks vars st = Done (results, vars1, st1) ->
  length results = length tasks.
Proof.
  revert vars st results vars1 st1.
  induction tasks as [|task rest IH]; intros vars st results vars1 st1; simpl.
  - by intros [= <- _ _].
  - destruct (executeTask e ctx task vars st) as [[result st']|]; [|done].
    destruct (runEach e ctx after rest (after vars task result) st')
      as [[[rs vs] s]|] eqn:HR; [|done].
    intros [= <- _ _]. simpl. f_equal. by eapply IH.
Qed.
End Loop.

Section ExecutorClaims.
Context `{Host}.
Import Executor.

Lemma Validate_platform_mismatch p pb :
  Playbook.Platforms pb <> [] ->
  existsb (fun plat => String.eqb plat (Parser.platform p)) (Playbook.Platforms pb) = false ->
  exists err field message,
    (Parser.Validate p pb).2 = Some err /\ err = ValidationError field message.
Proof.
  intros Hne Hmis. unfold Parser.Validate. cbn [snd].
  set (pb' := if String.eqb (Playbook.Version pb) "" then _ else pb).
  assert (HP : Playbook.Platforms pb' = Playbook.Platforms pb)
    by (subst pb'; by destruct (String.eqb _ _)).
  destruct (negb (Parser.isSupportedVersion _)); [by eexists _, _, _|].
  destruct (String.eqb (Playbook.Name pb') ""); [by eexists _, _, _|].
  destruct (Nat.eqb (length (Playbook.Tasks pb')) 0); [by eexists _, _, _|].
  rewrite HP. destruct (Playbook.Platforms pb) as [|p0 ps] eqn:E; [done|].
  cbn [length Nat.ltb Nat.leb].
  destruct (find _ _); [by eexists _, _, _|].
  unfold Parser.isPlatformSupported. rewrite Hmis. by eexists _, _, _.
Qed.

(** An executor made by [NewExecutor] and its parser are on one platform,
    the one of the Go runtime. *)
Lemma NewExecutor_platform config e :
  NewExecutor config = Val e ->
  Contains GOOS "android" = false \/ GOOS = "android" ->
  Parser.platform (parser e) = platform e.
Proof.
  unfold NewExecutor.
  destruct (Verifier.NewVerifier (ServerPublicKey config)) as [v| |]; [|done|done].
  intros [= <-] Hos. cbn [parser platform]. unfold Parser.NewParser.
  destruct (_ || _); [done|].
  destruct Hos as [->|Hos]; [done|]. by destruct (Contains GOOS "android").
Qed.

(** C3 on the code. With the parser and the executor on one platform, a
    verified playbook whose platforms list is not empty and does not name
    the host is refused by [Parse]: the report has status [failed] and a
    parse error, not [rejected] and a platform mismatch. It has no task
    result, its record passes, and the state is untouched. *)
Theorem C3_platform_mismatch_is_a_parse_failure e ctx sp st pb :
  (Verifier.Verify (verifier e) sp).2 = None ->
  Parser.platform (parser e) = platform e ->
  yamlUnmarshal (SignedPlaybook.Content sp) = inr pb ->
  Playbook.Platforms pb <> [] ->
  existsb (fun plat => String.eqb plat (platform e)) (Playbook.Platforms pb) = false ->
  exists report field message,
    Execute e ctx sp st = Done (report, Some (ValidationError field message), st)
    /\ ExecutionReport.Status report = "failed"
    /\ ExecutionReport.ErrorMessage report
       = "Parse error: " +:+ Error_text (ValidationError field message)
    /\ VerificationRecord.AllChecksPass (ExecutionReport.Verification report) = true
    /\ ExecutionReport.TaskResults report = [].
Proof.
  intros HV HP HY Hne Hmis.
  pose proof (proj1 (Verify_error_iff _ _) HV) as Hpass.
  rewrite <- HP in Hmis.
  destruct (Validate_platform_mismatch (parser e) pb Hne Hmis)
    as (err & field & message & HVal & ->).
  unfold Execute, Parser.Parse.
  destruct (Verifier.Verify (verifier e) sp) as [record verr]. simpl in HV, Hpass.
  subst verr. rewrite HY.
  destruct (Parser.Validate (parser e) pb) as [pb' verr]. simpl in HVal. subst verr.
  by eexists _, field, message.
Qed.

(** C6, as amended. When a task ends [failed] and does not ignore errors,
    the loop returns at once with status [failed] if the playbook has no
    [on_error] or its strategy is [stop]; under any other strategy, among
    them [continue] and [rollback], the loop goes on with the next task. *)
Theorem C6_failed_task_stops_the_loop_under_stop e ctx playbook task rest report vars
    notified st result st1 :
  ctx (world st) = false ->
  executeTask e ctx task vars st = Done (result, st1) ->
  TaskResult.Status result = TaskStatusFailed ->
  Task.IgnoreErrors task = false ->
  ((Playbook.OnError playbook = None
    \/ exists h, Playbook.OnError playbook = Some h /\ ErrorHandler.Strategy h = "stop") ->
   taskLoop e ctx playbook (task :: rest) report vars notified st
   = Done (LoopReturn
             (ExecutionReport.setOutcome (countFailed report result) "failed"
                (TaskResult.Error result))
             (Errorf ("task '" +:+ Task.Name task +:+ "' failed: "
                      +:+ TaskResult.Error result))
             st1))
  /\ (forall h, Playbook.OnError playbook = Some h -> ErrorHandler.Strategy h <> "stop" ->
      taskLoop e ctx playbook (task :: rest) report vars notified st
      = taskLoop e ctx playbook rest (countFailed report result)
          (registerResult vars task result) notified st1).
Proof.
  intros Hctx HE HS HI. cbn [taskLoop]. rewrite Hctx, HE, HS, HI. cbn [negb andb].
  unfold stopsOnError. split.
  - intros [->|(h & -> & ->)]; done.
  - intros h -> Hs%String.eqb_neq. by rewrite Hs.
Qed.

Lemma filter_unmarked (hs : list Task.t) :
  filter (fun handler => (fun _ : string => false) (Task.Name handler) = true) hs = [].
Proof. induction hs as [|h hs IH]; [done|]. by rewrite filter_cons_False. Qed.

(** C7, as amended, on the calls [Execute] makes. Whatever way it
    returns, the state it returns, the world and the calls to the
    handlers and to the progress callback, is the one left by executing
    the first tasks of the playbook, in order, and then entries of the
    handlers list, each once and in the order of the list, every one from
    the state the one before it left; the results of the report are
    theirs, in that order. When [Execute] returns an error no entry of
    the handlers list is executed: the state is the one the tasks left.
    When it returns none, every task was executed, and the entries
    executed after them are exactly those whose name is in the [notify]
    list of a task that completed with [changed]: two entries of one
    name are both executed. *)
Theorem C7_handlers_run_after_a_completed_loop e ctx sp st report err st' playbook :
  Execute e ctx sp st = Done (report, err, st') ->
  Parser.Parse (parser e) (SignedPlaybook.Content sp) = Val playbook ->
  exists taskResults handlerResults (marked : string -> bool) vars1 st1,
    ExecutionReport.TaskResults report = taskResults ++ handlerResults
    /\ runTasks e ctx (take (length taskResults) (Playbook.Tasks playbook))
         (Variables.SetUserVars (Variables.NewVariables (world st)) (world st)
            (Playbook.Variables playbook)) st
       = Done (taskResults, vars1, st1)
    /\ (err = None -> length taskResults = length (Playbook.Tasks playbook))
    /\ (forall N, marked N = true
                  <-> err = None /\ notifiedBy (Playbook.Tasks playbook) taskResults N)
    /\ runHandlers e ctx
         (filter (fun handler => marked (Task.Name handler) = true)
            (Playbook.Handlers playbook)) vars1 st1
       = Done (handlerResults, vars1, st')
    /\ (err <> None -> handlerResults = [] /\ st' = st1).
Proof.
  intros HE HP.
  assert (Hnone : forall results vars1,
    ExecutionReport.TaskResults report = results ->
    runTasks e ctx (take (length results) (Playbook.Tasks playbook))
      (Variables.SetUserVars (Variables.NewVariables (world st)) (world st)
         (Playbook.Variables playbook)) st
    = Done (results, vars1, st') ->
    err <> None ->
    exists taskResults handlerResults (marked : string -> bool) vars1 st1,
      ExecutionReport.TaskResults report = taskResults ++ handlerResults
      /\ runTasks e ctx (take (length taskResults) (Playbook.Tasks playbook))
           (Variables.SetUserVars (Variables.NewVariables (world st)) (world st)
              (Playbook.Variables playbook)) st
         = Done (taskResults, vars1, st1)
      /\ (err = None -> length taskResults = length (Playbook.Tasks playbook))
      /\ (forall N, marked N = true
                    <-> err = None /\ notifiedBy (Playbook.Tasks playbook) taskResults N)
      /\ runHandlers e ctx
           (filter (fun handler => marked (Task.Name handler) = true)
              (Playbook.Handlers playbook)) vars1 st1
         = Done (handlerResults, vars1, st')
      /\ (err <> None -> handlerResults = [] /\ st' = st1)).
  { intros results vars1 HR Hrun Herr. exists results, [], (fun _ => false), vars1, st'.
    split; [by rewrite app_nil_r|]. split; [done|]. split; [done|].
    split; [split; [done|tauto]|]. rewrite filter_unmarked. done. }
  revert HE. unfold Execute. rewrite HP.
  destruct (Verifier.Verify (verifier e) sp) as [record [verr|]].
  { intros [= <- <- <-]. by eapply (Hnone []). }
  destruct (_ && _).
  { intros [= <- <- <-]. by eapply (Hnone []). }
  match goal with
  | |- context [taskLoop e ctx playbook ?ts ?r ?v ?n st] =>
      destruct (taskLoop e ctx playbook ts r v n st) as [[r1 e1 s1|r1 v1 n1 s1]|] eqn:HT;
      [| |done]
  end.
  { intros [= <- <- <-]. apply taskLoop_return in HT as (results & vars1 & HR & Hrun).
    by eapply (Hnone results). }
  destruct (handlerLoop e ctx (Playbook.Handlers playbook) r1 v1 n1 s1) as [[r2 s2]|] eqn:HH;
    [|done].
  intros [= <- <- <-].
  apply taskLoop_done in HT as (taskResults & HR1 & Hrun1 & HN).
  apply handlerLoop_done in HH as (handlerResults & HR2 & Hrun2).
  pose proof (runEach_length _ _ _ _ _ _ _ _ _ Hrun1) as Hlen.
  exists taskResults, handlerResults, (fun N => default false (n1 !! N)), v1, s1.
  split; [simpl; rewrite HR2, HR1; done|].
  split; [by rewrite Hlen, firstn_all|].
  split; [done|].
  split; [|done].
  intros N. transitivity (n1 !! N = Some true).
  { destruct (n1 !! N) as [[]|]; simpl; split; congruence. }
  rewrite HN, lookup_empty. split; [intros [?|?]; [done|tauto]|tauto].
Qed.

(** C8 on the code. With a progress callback, a task that the platform
    filter skips, or whose action has no handler, is notified as [running]
    and never again: [executeTask] returns the [skipped] or [failed]
    result after that one call. *)
Theorem C8_early_return_gets_no_terminal_notification e ctx task vars st callback :
  onProgress e = Some callback ->
  (Task.Platform task <> "" /\ Task.Platform task <> platform e)
  \/ (Task.Platform task = "" /\ Task.When task = ""
      /\ handlers e !! Task.Action task = None) ->
  exists result,
    executeTask e ctx task vars st
    = Done (result,
            mkState (callback (Task.Name task) TaskStatusRunning (world st))
              (trace st ++ [Progress (Task.Name task) TaskStatusRunning]))
    /\ TaskResult.Status result
       = (if String.eqb (Task.Platform task) "" then TaskStatusFailed
          else TaskStatusSkipped).
Proof.
  intros Hcb Hcase.
  destruct task as [name id plat when action params reg res ign retries delay notify rb].
  cbn [executeTask Task.Name Task.ID Task.Platform Task.When Task.Action Task.Params
       Task.Result Task.Retries Task.Rollback] in *.
  unfold progress. rewrite Hcb.
  destruct Hcase as [[Hp1%String.eqb_neq Hp2%String.eqb_neq]|(-> & -> & Hnone)].
  - rewrite Hp1, Hp2. cbn [negb andb]. by eexists.
  - cbn [String.eqb negb andb]. rewrite Hnone. by eexists.
Qed.

(** C9 on the code. With a [creates] path that exists, the handler has
    run the shell command before it looks for the path: the world it
    leaves is the world after the command and after the lookup, and the
    result says [changed=false] and [Skipped]. *)
Theorem C9_command_runs_before_creates_is_checked ctx params vars w cmdStr creates :
  paramString params "command" = Some cmdStr -> cmdStr <> "" ->
  paramString params "creates" = Some creates -> creates <> "" ->
  let ran := runProcess ctx (CommandHandler.commandOf params cmdStr) w in
  let looked := CommandHandler.fileExists creates ran.2 in
  Process.Err ran.1 = None -> looked.1 = true ->
  exists result,
    CommandHandler.Execute ctx params vars w = ((Some result, None), looked.2)
    /\ TaskResult.Changed result = false
    /\ TaskResult.Status result = TaskStatusCompleted
    /\ TaskResult.Message result = "Skipped: '" +:+ creates +:+ "' already exists".
Proof.
  intros Hcmd Hne%String.eqb_neq Hcr Hcne%String.eqb_neq ran looked Herr Hfound.
  unfold CommandHandler.Execute. rewrite Hcmd, Hne.
  subst looked ran.
  destruct (runProcess ctx (CommandHandler.commandOf params cmdStr) w) as [fin w1].
  simpl in Herr, Hfound |- *. rewrite Herr, Hcr, Hcne. cbn [negb].
  destruct (CommandHandler.fileExists creates w1) as [found w2]. simpl in Hfound.
  subst found. by eexists.
Qed.
End ExecutorClaims.

Section Runs.
Import Example Executor.

Lemma C1_witness :
  rejects (H := linux) (executor true) (signed twinsYAML "pending") start
    (Execute (H := linux) (executor true) ctx (signed twinsYAML "pending") start)
  /\ rejects (H := linux) (executor true) (signed twinsYAML "pending") start
       (DryRun (H := linux) (executor true) ctx (signed twinsYAML "pending") start)
  /\ (forall report err st',
        Execute (H := linux) (executor true) ctx (signed twinsYAML "pending") start = Done (report, err, st')
        \/ DryRun (H := linux) (executor true) ctx (signed twinsYAML "pending") start = Done (report, err, st') ->
        ExecutionReport.Verification report
        = (Verifier.Verify (H := linux) (verifier (executor true))
             (signed twinsYAML "pending")).1
        /\ ExecutionReport.TaskResults report = [] /\ st' = start).
Proof.
  apply (C1_rejected_before_any_dispatch (H := linux) (executor true) ctx
           (signed twinsYAML "pending") start).
  vm_compute. reflexivity.
Defined.

Lemma C3_witness :
  exists report field message,
    Execute (H := linux) (executor true) ctx (signed windowsOnlyYAML "approved") start
    = Done (report, Some (ValidationError field message), start)
    /\ ExecutionReport.Status report = "failed"
    /\ ExecutionReport.ErrorMessage report
       = "Parse error: " +:+ Error_text (ValidationError field message)
    /\ VerificationRecord.AllChecksPass (ExecutionReport.Verification report) = true
    /\ ExecutionReport.TaskResults report = [].
Proof.
  apply (C3_platform_mismatch_is_a_parse_failure (H := linux) (executor true) ctx
           (signed windowsOnlyYAML "approved") start windowsOnly).
  - vm_compute. reflexivity.
  - reflexivity.
  - vm_compute. reflexivity.
  - discriminate.
  - reflexivity.
Defined.

(** What [Execute] returns for the Windows-only playbook on Linux. *)
Lemma Execute_windowsOnly :
  exists report,
    Execute (H := linux) (executor true) ctx (signed windowsOnlyYAML "approved") start
    = Done (report,
            Some (ValidationError "platforms" "playbook does not support platform 'linux'"),
            start)
    /\ ExecutionReport.Status report = "failed"
    /\ ExecutionReport.ErrorMessage report
       = "Parse error: validation error in 'platforms': playbook does not support platform 'linux'".
Proof. eexists. split; [reflexivity|]. split; vm_compute; reflexivity. Qed.

(** The claim of C6 fails under strategy [rollback]: the first task fails,
    does not ignore errors, and the second task runs all the same. *)
Lemma C6_counterexample :
  exists playbook handler report st',
    Parser.Parse (H := linux) (parser (executor true)) rollbackYAML = Val playbook
    /\ Playbook.OnError playbook = Some handler
    /\ ErrorHandler.Strategy handler = "rollback"
    /\ map Task.IgnoreErrors (Playbook.Tasks playbook) = [false; false]
    /\ Execute (H := linux) (executor true) ctx (signed rollbackYAML "approved") start = Done (report, None, st')
    /\ ExecutionReport.Status report = "completed"
    /\ map (fun r => (TaskResult.TaskName r, TaskResult.Status r))
         (ExecutionReport.TaskResults report)
       = [("first", TaskStatusFailed); ("second", TaskStatusCompleted)].
Proof.
  eexists _, _, _, _.
  split; [reflexivity|]. split; [reflexivity|]. split; [reflexivity|].
  split; [reflexivity|]. split; [reflexivity|]. split; vm_compute; reflexivity.
Qed.

Lemma C6_witness :
  (exists result st1,
     executeTask (H := linux) (executor true) ctx (commandTask "break" "exit 1" []) fresh start
     = Done (result, st1)
     /\ taskLoop (H := linux) (executor true) ctx notifyThenFail
          [commandTask "break" "exit 1" []] (running "notify" 2) fresh ∅ start
        = Done (LoopReturn
                  (ExecutionReport.setOutcome (countFailed (running "notify" 2) result)
                     "failed" (TaskResult.Error result))
                  (Errorf ("task 'break' failed: " +:+ TaskResult.Error result)) st1))
  /\ (exists result st1,
        executeTask (H := linux) (executor true) ctx (commandTask "first" "exit 1" []) fresh
          start
        = Done (result, st1)
        /\ taskLoop (H := linux) (executor true) ctx rollbackStrategy
             [commandTask "first" "exit 1" []; commandTask "second" "true" []]
             (running "strategy" 2) fresh ∅ start
           = taskLoop (H := linux) (executor true) ctx rollbackStrategy
               [commandTask "second" "true" []]
               (countFailed (running "strategy" 2) result)
               (registerResult fresh (commandTask "first" "exit 1" []) result) ∅ st1).
Proof.
  split.
  - eexists _, _. split; [reflexivity|].
    eapply (C6_failed_task_stops_the_loop_under_stop (H := linux) (executor true) ctx
              notifyThenFail (commandTask "break" "exit 1" []) [] (running "notify" 2)
              fresh ∅ start);
      [reflexivity | reflexivity | reflexivity | reflexivity | by left].
  - eexists _, _. split; [reflexivity|].
    eapply (C6_failed_task_stops_the_loop_under_stop (H := linux) (executor true) ctx
              rollbackStrategy (commandTask "first" "exit 1" [])
              [commandTask "second" "true" []] (running "strategy" 2)
              fresh ∅ start);
      [reflexivity | reflexivity | reflexivity | reflexivity
      | reflexivity | discriminate].
Defined.

(** The claim of C7 fails twice. The task [write] completes with
    [changed] and notifies [reload], the next task fails and [Execute]
    returns: the handler is never executed. And two handlers of one name,
    notified once, are both executed. *)
Lemma C7_counterexample :
  (exists report err st',
     Execute (H := linux) (executor true) ctx (signed notifyYAML "approved") start
     = Done (report, Some err, st')
     /\ map (fun r => (TaskResult.TaskName r, TaskResult.Status r, TaskResult.Changed r))
          (ExecutionReport.TaskResults report)
        = [("write", TaskStatusCompleted, true); ("break", TaskStatusFailed, false)]
     /\ map Task.Notify (Playbook.Tasks notifyThenFail) = [["reload"]; []]
     /\ map Task.Name (Playbook.Handlers notifyThenFail) = ["reload"]
     /\ trace st'
        = [Progress "write" TaskStatusRunning;
           HandlerExecute "command" [("command", VString "true")];
           Progress "write" TaskStatusCompleted;
           Progress "break" TaskStatusRunning;
           HandlerExecute "command" [("command", VString "exit 1")];
           Progress "break" TaskStatusFailed])
  /\ (exists report st',
        Execute (H := linux) (executor true) ctx (signed twinsYAML "approved") start = Done (report, None, st')
        /\ map TaskResult.TaskName (ExecutionReport.TaskResults report)
           = ["write"; "reload"; "reload"]).
Proof.
  split.
  - eexists _, _, _. split; [reflexivity|].
    split; [vm_compute; reflexivity|]. split; [reflexivity|].
    split; [reflexivity|]. vm_compute. reflexivity.
  - eexists _, _. split; [reflexivity|]. vm_compute. reflexivity.
Qed.

Lemma C7_witness :
  exists report st',
    Execute (H := linux) (executor true) ctx (signed twinsYAML "approved") start = Done (report, None, st')
    /\ exists taskResults handlerResults (marked : string -> bool) vars1 st1,
         ExecutionReport.TaskResults report = taskResults ++ handlerResults
         /\ runTasks (H := linux) (executor true) ctx
              (take (length taskResults) (Playbook.Tasks twins))
              (Variables.SetUserVars (H := linux)
                 (Variables.NewVariables (H := linux) (world start)) (world start)
                 (Playbook.Variables twins)) start
            = Done (taskResults, vars1, st1)
         /\ (@None Error = None -> length taskResults = length (Playbook.Tasks twins))
         /\ (forall N, marked N = true
                       <-> @None Error = None /\ notifiedBy (Playbook.Tasks twins) taskResults N)
         /\ runHandlers (H := linux) (executor true) ctx
              (filter (fun handler => marked (Task.Name handler) = true)
                 (Playbook.Handlers twins)) vars1 st1
            = Done (handlerResults, vars1, st')
         /\ (@None Error <> None -> handlerResults = [] /\ st' = st1).
Proof.
  eexists _, _. split; [reflexivity|].
  eapply (C7_handlers_run_after_a_completed_loop (H := linux) (executor true) ctx
            (signed twinsYAML "approved") start _ None _ twins);
    reflexivity.
Defined.

Lemma C8_witness :
  exists result,
    executeTask (H := linux) (executor true) ctx windowsTask fresh start
    = Done (result, mkState (H := linux) boot [Progress "registry" TaskStatusRunning])
    /\ TaskResult.Status result = TaskStatusSkipped.
Proof.
  apply (C8_early_return_gets_no_terminal_notification (H := linux) (executor true) ctx
           windowsTask fresh start (fun _ _ w => w)).
  - reflexivity.
  - left. split; discriminate.
Defined.

(** The command of [touchParams] is run, then [test -e /tmp]. *)
Lemma C9_witness :
  (exists result,
     CommandHandler.Execute (H := linux) ctx touchParams fresh boot
     = (Some result, None,
        (CommandHandler.fileExists (H := linux) "/tmp"
           (runProcess (Host := linux) ctx
              (CommandHandler.commandOf (H := linux) touchParams "touch /tmp/marker")
              boot).2).2)
     /\ TaskResult.Changed result = false
     /\ TaskResult.Status result = TaskStatusCompleted
     /\ TaskResult.Message result = "Skipped: '" +:+ "/tmp" +:+ "' already exists")
  /\ map (fun p => (Process.Path p, Process.Args p))
       (processes (CommandHandler.Execute (H := linux) ctx touchParams fresh boot).2)
     = [("/bin/sh", ["-c"; "touch /tmp/marker"]); ("test", ["-e"; "/tmp"])].
Proof.
  split; [|vm_compute; reflexivity].
  apply (C9_command_runs_before_creates_is_checked (H := linux) ctx touchParams fresh boot
           "touch /tmp/marker" "/tmp");
    [reflexivity | discriminate | reflexivity | discriminate | reflexivity | reflexivity].
Defined.

End Runs.

Section VerifierFacts.
Context `{Host}.
Import SignedPlaybook VerificationRecord.

Lemma hexDigit_code n :
  (n < 16)%N -> code (hexDigit n) = (if (n <? 10)%N then 48 + n else 87 + n)%N.
Proof.
  intros Hn. unfold hexDigit, code.
  destruct (n <? 10)%N eqn:E; apply N_ascii_embedding; lia.
Qed.

Lemma hexDigit_inj a b : (a < 16)%N -> (b < 16)%N -> hexDigit a = hexDigit b -> a = b.
Proof.
  intros Ha Hb E. apply (f_equal code) in E. rewrite !hexDigit_code in E by done.
  destruct (a <? 10)%N eqn:Ea, (b <? 10)%N eqn:Eb;
    rewrite ?N.ltb_lt, ?N.ltb_ge in Ea, Eb; lia.
Qed.

Lemma code_inj a b : code a = code b -> a = b.
Proof.
  intros E. rewrite <- (ascii_N_embedding a), <- (ascii_N_embedding b).
  unfold code in E. by rewrite E.
Qed.

Lemma EncodeToString_inj a b : EncodeToString a = EncodeToString b -> a = b.
Proof.
  unfold EncodeToString. intros E%(f_equal bytesOf). rewrite !bytesOf_ofBytes in E.
  revert b E. induction a as [|x a IH]; intros [|y b] E; simpl in E; try done.
  injection E as Hhi Hlo E. f_equal; [|by apply IH].
  pose proof (code_bound x). pose proof (code_bound y).
  apply hexDigit_inj in Hhi; [|apply N.Div0.div_lt_upper_bound; lia..].
  apply hexDigit_inj in Hlo; [|apply N.mod_lt; lia..].
  apply code_inj.
  rewrite (N.div_mod (code x) 16), (N.div_mod (code y) 16) by lia. by rewrite Hhi, Hlo.
Qed.

Lemma EncodeToString_length src :
  String.length (EncodeToString src) = (2 * length src)%nat.
Proof.
  unfold EncodeToString. rewrite <- bytesOf_length, bytesOf_ofBytes.
  induction src as [|x src IH]; simpl; [done|]. rewrite IH. lia.
Qed.

(** The flags of a verification record are nested. Whatever the envelope,
    the record echoes its expected hash and its status; the signature flag
    is set only with the hash flag, the approval flag only with the
    signature flag, and [AllChecksPass] exactly with the approval flag. A
    record whose hash flag is set has the expected hash as calculated
    hash, and a record that names no failure passes. *)
Theorem Verify_record_is_nested (v : Verifier.t) (sp : SignedPlaybook.t) :
  ExpectedHash (Verifier.Verify v sp).1 = SHA256Hash sp
  /\ ApprovalStatus (Verifier.Verify v sp).1 = Status sp
  /\ (SignatureVerified (Verifier.Verify v sp).1 = true
      -> HashVerified (Verifier.Verify v sp).1 = true)
  /\ (ApprovalVerified (Verifier.Verify v sp).1 = true
      -> SignatureVerified (Verifier.Verify v sp).1 = true)
  /\ AllChecksPass (Verifier.Verify v sp).1 = ApprovalVerified (Verifier.Verify v sp).1
  /\ (HashVerified (Verifier.Verify v sp).1 = true
      -> CalculatedHash (Verifier.Verify v sp).1 = SHA256Hash sp)
  /\ (FailureReason (Verifier.Verify v sp).1 = ""
      <-> AllChecksPass (Verifier.Verify v sp).1 = true).
Proof.
  unfold Verifier.Verify.
  destruct (String.eqb (Content sp) ""); [cbn; intuition congruence|].
  destruct (String.eqb (SHA256Hash sp) ""); [cbn; intuition congruence|].
  destruct (Nat.eqb (length (Signature sp)) 0); [cbn; intuition congruence|].
  destruct (String.eqb_spec (EncodeToString (Sum256 (Content sp))) (SHA256Hash sp))
    as [Hd|Hd]; cbn [negb]; [|cbn; cbv [String.append]; intuition congruence].
  destruct (ed25519Verify _ _ _); cbn [negb]; [|cbn; intuition congruence].
  destruct (_ && _); cbn; cbv [String.append]; intuition congruence.
Qed.

(** An expected hash with a character that is not a lowercase hexadecimal
    digit, such as an uppercase digest, never verifies: with content, hash
    and signature present the verifier answers [ErrHashMismatch]. *)
Theorem Verify_rejects_hash_outside_lowercase_hex (v : Verifier.t) (sp : SignedPlaybook.t) :
  Exists (fun ch => isLowerHex ch = false) (bytesOf (SHA256Hash sp)) ->
  AllChecksPass (Verifier.Verify v sp).1 = false
  /\ (presenceCheck sp -> (Verifier.Verify v sp).2 = Some ErrHashMismatch).
Proof.
  intros Hbad.
  assert (Hd : EncodeToString (Sum256 (Content sp)) <> SHA256Hash sp).
  { intros E. rewrite <- E in Hbad.
    pose proof (EncodeToString_lower (Sum256 (Content sp))) as Hlow.
    apply Exists_exists in Hbad as (ch & Hin & Hch).
    rewrite Forall_forall in Hlow. specialize (Hlow ch Hin). congruence. }
  apply String.eqb_neq in Hd. unfold presenceCheck, Verifier.Verify.
  destruct (String.eqb_spec (Content sp) ""); [cbn; split; [done|tauto]|].
  destruct (String.eqb_spec (SHA256Hash sp) ""); [cbn; split; [done|tauto]|].
  destruct (Signature sp) as [|s0 sig]; [cbn; split; [done|tauto]|].
  cbn [length Nat.eqb]. rewrite Hd. cbn. done.
Qed.

(** [VerifyHashOnly] is the digest step of [Verify]: with content, hash and
    signature present, the hash flag of the record is its answer and the
    calculated hash of the record is [CalculateHash] of the content. *)
Theorem VerifyHashOnly_is_the_digest_step (v : Verifier.t) (sp : SignedPlaybook.t) :
  presenceCheck sp ->
  HashVerified (Verifier.Verify v sp).1
  = (Verifier.VerifyHashOnly (Content sp) (SHA256Hash sp)).1
  /\ CalculatedHash (Verifier.Verify v sp).1 = Verifier.CalculateHash (Content sp)
  /\ (Verifier.VerifyHashOnly (Content sp) (SHA256Hash sp)).2
     = Verifier.CalculateHash (Content sp).
Proof.
  intros (Hc & Hh & Hs). apply String.eqb_neq in Hc, Hh.
  unfold Verifier.Verify, Verifier.VerifyHashOnly, Verifier.CalculateHash.
  rewrite Hc, Hh. destruct (Signature sp) as [|s0 sig]; [done|]. cbn [length Nat.eqb].
  destruct (String.eqb _ (SHA256Hash sp)); cbn [negb]; [|done].
  destruct (ed25519Verify _ _ _); cbn [negb]; [|done].
  by destruct (_ && _).
Qed.

(** The hexadecimal form loses nothing of the digest: two contents have
    the same [CalculateHash] exactly when they have the same digest, and
    the hash of a 32-byte digest is 64 lowercase hexadecimal digits that
    [VerifyHashOnly] accepts for the content. *)
Theorem CalculateHash_is_faithful (a b : string) :
  (Verifier.CalculateHash a = Verifier.CalculateHash b <-> Sum256 a = Sum256 b)
  /\ ((Verifier.VerifyHashOnly a (Verifier.CalculateHash b)).1 = true
      <-> Sum256 a = Sum256 b)
  /\ String.length (Verifier.CalculateHash a) = (2 * length (Sum256 a))%nat
  /\ Forall (fun ch => isLowerHex ch = true) (bytesOf (Verifier.CalculateHash a)).
Proof.
  unfold Verifier.VerifyHashOnly, Verifier.CalculateHash. cbn [fst].
  split; [|split; [|split]].
  - split; [apply EncodeToString_inj|by intros ->].
  - rewrite String.eqb_eq. split; [apply EncodeToString_inj|by intros ->].
  - apply EncodeToString_length.
  - apply EncodeToString_lower.
Qed.
End VerifierFacts.

Section VerifierRuns.
Import Example.

Lemma Verify_rejects_hash_outside_lowercase_hex_witness :
  VerificationRecord.AllChecksPass
    (Verifier.Verify (H := linux) (Verifier.mk pinned) uppercaseHash).1 = false
  /\ (presenceCheck uppercaseHash
      -> (Verifier.Verify (H := linux) (Verifier.mk pinned) uppercaseHash).2
         = Some ErrHashMismatch).
Proof.
  apply (Verify_rejects_hash_outside_lowercase_hex (H := linux) (Verifier.mk pinned)
           uppercaseHash).
  apply Exists_cons_hd. reflexivity.
Defined.

Lemma VerifyHashOnly_is_the_digest_step_witness :
  VerificationRecord.HashVerified
    (Verifier.Verify (H := linux) (Verifier.mk pinned) (signed twinsYAML "pending")).1
  = (Verifier.VerifyHashOnly (H := linux) twinsYAML
       (SignedPlaybook.SHA256Hash (signed twinsYAML "pending"))).1
  /\ VerificationRecord.CalculatedHash
       (Verifier.Verify (H := linux) (Verifier.mk pinned) (signed twinsYAML "pending")).1
     = Verifier.CalculateHash (H := linux) twinsYAML
  /\ (Verifier.VerifyHashOnly (H := linux) twinsYAML
        (SignedPlaybook.SHA256Hash (signed twinsYAML "pending"))).2
     = Verifier.CalculateHash (H := linux) twinsYAML.
Proof.
  apply (VerifyHashOnly_is_the_digest_step (H := linux) (Verifier.mk pinned)
           (signed twinsYAML "pending")).
  split; [discriminate|]. split; discriminate.
Defined.
End VerifierRuns.

Section ParserFacts.
Context `{Host}.

Lemma requireParam_prefix params prefix prefix' action key :
  Parser.requireParam params prefix action key = None ->
  Parser.requireParam params prefix' action key = None.
Proof. unfold Parser.requireParam. by destruct (param params key). Qed.

Lemma firstError_None a b : Parser.firstError a b = None <-> a = None /\ b = None.
Proof. destruct a, b; simpl; intuition congruence. Qed.

Lemma validateActionParams_prefix action params prefix prefix' :
  Parser.validateActionParams action params prefix = None ->
  Parser.validateActionParams action params prefix' = None.
Proof.
  unfold Parser.validateActionParams.
  repeat (destruct (String.eqb action _);
          [rewrite ?firstError_None; intros; destruct_and?;
           repeat split; by eapply requireParam_prefix|]).
  done.
Qed.

Lemma validateTask_wellFormed p task i :
  Parser.validateTask p task i = None -> wellFormedTask p task.
Proof.
  unfold Parser.validateTask, wellFormedTask.
  destruct (String.eqb_spec (Task.Name task) ""); [done|].
  destruct (String.eqb (Task.Action task) ""); [done|].
  destruct (Parser.isValidAction (Task.Action task)); [|done]. cbn [negb].
  destruct (Parser.validateActionPlatform p _ _); [done|].
  destruct (Parser.validateActionParams _ _ _) eqn:HP; [done|].
  destruct (Z.ltb_spec (Task.Retries task) 0); [done|].
  destruct (Z.ltb_spec (Task.RetryDelay task) 0); [done|].
  intros _. repeat split; try done.
  intros prefix. by eapply validateActionParams_prefix.
Qed.

Lemma validateEach_wellFormed p wrap tasks i :
  Parser.validateEach p wrap tasks i = None -> Forall (wellFormedTask p) tasks.
Proof.
  revert i. induction tasks as [|task rest IH]; intros i; simpl; [constructor|].
  destruct (Parser.validateTask p task i) eqn:E; [done|].
  intros HR. constructor; [by eapply validateTask_wellFormed|by eapply IH].
Qed.

Lemma Parse_Val p content pb :
  Parser.Parse p content = Val pb ->
  exists doc, yamlUnmarshal content = inr doc /\ Parser.Validate p doc = (pb, None).
Proof.
  unfold Parser.Parse. destruct (yamlUnmarshal content) as [err|doc]; [done|].
  destruct (Parser.Validate p doc) as [pb' [err|]] eqn:HV; [done|].
  intros [= <-]. by exists doc.
Qed.

(** What [Validate] has checked when it returns no error. *)
Lemma Validate_wellFormed p doc pb :
  Parser.Validate p doc = (pb, None) ->
  pb = withDefaultVersion doc
  /\ Parser.isSupportedVersion (Playbook.Version pb) = true
  /\ Playbook.Name pb <> ""
  /\ Playbook.Tasks pb <> []
  /\ (Playbook.Platforms pb = []
      \/ (Forall (fun plat => Parser.isValidPlatform plat = true) (Playbook.Platforms pb)
          /\ Parser.platform p ∈ Playbook.Platforms pb))
  /\ Forall (wellFormedTask p) (Playbook.Tasks pb)
  /\ Forall (wellFormedTask p) (Playbook.Handlers pb).
Proof.
  unfold Parser.Validate. fold (withDefaultVersion doc).
  set (pb' := withDefaultVersion doc). intros [= <- HV]. revert HV.
  destruct (Parser.isSupportedVersion (Playbook.Version pb')) eqn:HV; [|done]. cbn [negb].
  destruct (String.eqb_spec (Playbook.Name pb') ""); [done|].
  destruct (Playbook.Tasks pb') as [|t0 ts] eqn:HT; [done|]. cbn [length Nat.eqb].
  match goal with
  | |- context [match ?pe with Some err => Some err | None => _ end] =>
      destruct pe as [perr|] eqn:HP; [done|]
  end.
  destruct (Parser.validateEach p _ (t0 :: ts) 0) eqn:HE; [done|].
  intros HH. split; [done|]. split; [done|]. split; [done|]. split; [done|]. split.
  - destruct (Playbook.Platforms pb') as [|p0 ps] eqn:HPl; [by left|]. right.
    cbn [length Nat.ltb Nat.leb] in HP.
    destruct (find _ (p0 :: ps)) eqn:HF; [done|].
    unfold Parser.isPlatformSupported in HP.
    destruct (existsb _ (p0 :: ps)) eqn:HX; [|done]. split.
    + apply Forall_forall. intros plat Hin.
      destruct (Parser.isValidPlatform plat) eqn:Hval; [done|].
      apply list_elem_of_In in Hin.
      eapply find_none in HF; [|exact Hin]. simpl in HF. by rewrite Hval in HF.
    + apply existsb_exists in HX as (plat & Hin & ->%String.eqb_eq).
      by apply list_elem_of_In.
  - split; by eapply validateEach_wellFormed.
Qed.

(** A playbook that [Parse] returns is the decoded document, with the
    current schema version written in when the document names none, and
    it is well formed: a supported version, a name, at least one task, a
    platforms list that is empty or holds only known platforms and among
    them the platform of the parser, and tasks and handlers that
    [validateTask] accepts. *)
Theorem Parse_returns_a_well_formed_playbook p content pb :
  Parser.Parse p content = Val pb ->
  (exists doc, yamlUnmarshal content = inr doc /\ pb = withDefaultVersion doc)
  /\ Parser.isSupportedVersion (Playbook.Version pb) = true
  /\ Playbook.Name pb <> ""
  /\ Playbook.Tasks pb <> []
  /\ (Playbook.Platforms pb = []
      \/ (Forall (fun plat => Parser.isValidPlatform plat = true) (Playbook.Platforms pb)
          /\ Parser.platform p ∈ Playbook.Platforms pb))
  /\ Forall (wellFormedTask p) (Playbook.Tasks pb)
  /\ Forall (wellFormedTask p) (Playbook.Handlers pb).
Proof.
  intros (doc & HY & HV)%Parse_Val.
  apply Validate_wellFormed in HV as (Hpb & Hrest).
  split; [by exists doc|exact Hrest].
Qed.
End ParserFacts.

Section ParserRuns.
Import Example.

Lemma Parse_returns_a_well_formed_playbook_witness :
  (exists doc, yamlUnmarshal (Host := linux) twinsYAML = inr doc
               /\ twins = withDefaultVersion doc)
  /\ Parser.isSupportedVersion (Playbook.Version twins) = true
  /\ Playbook.Name twins <> ""
  /\ Playbook.Tasks twins <> []
  /\ (Playbook.Platforms twins = []
      \/ (Forall (fun plat => Parser.isValidPlatform plat = true) (Playbook.Platforms twins)
          /\ Parser.platform (Parser.NewParser (H := linux)) ∈ Playbook.Platforms twins))
  /\ Forall (wellFormedTask (Parser.NewParser (H := linux))) (Playbook.Tasks twins)
  /\ Forall (wellFormedTask (Parser.NewParser (H := linux))) (Playbook.Handlers twins).
Proof.
  apply (Parse_returns_a_well_formed_playbook (H := linux) (Parser.NewParser (H := linux))
           twinsYAML twins).
  vm_compute. reflexivity.
Defined.
End ParserRuns.

Section TaskRuns.
Context `{Host}.
Import Executor.

Lemma Task_rollback_ind (P : Task.t -> Prop) :
  (forall task,
     match Task.Rollback task with Some r => P r | None => True end -> P task) ->
  forall task, P task.
Proof.
  intros HP. fix IH 1. intros task. apply HP.
  destruct task as [? ? ? ? ? ? ? ? ? ? ? ? rb]. simpl.
  destruct rb as [r|]; [apply IH|exact I].
Qed.

Lemma handlerCalls_app a b : handlerCalls (a ++ b) = (handlerCalls a + handlerCalls b)%nat.
Proof. unfold handlerCalls. by rewrite List.filter_app, length_app. Qed.

Lemma handlerCalls_call action params events :
  handlerCalls (HandlerExecute action params :: events) = S (handlerCalls events).
Proof. done. Qed.

Lemma progress_trace e name status st :
  exists events,
    trace (progress e name status st) = trace st ++ events /\ handlerCalls events = 0%nat.
Proof.
  unfold progress. destruct (onProgress e).
  - by exists [Progress name status].
  - exists []. by rewrite app_nil_r.
Qed.

Lemma maxCalls_unfold task :
  maxCalls task
  = (maxAttempts task
     + match Task.Rollback task with Some r => maxCalls r | None => 0 end)%nat.
Proof. by destruct task. Qed.

(** The retry loop with [n] iterations left calls the handler at most [n]
    times; it returns from its body with [completed], after a call, or
    with [failed]. *)
Lemma attempts_calls e ctx handler task params vars n attempt limit result lastErr st :
  exists events,
    trace (loopState (attempts e ctx handler task params vars n attempt limit result
                        lastErr st))
    = trace st ++ events
    /\ (handlerCalls events <= n)%nat
    /\ match attempts e ctx handler task params vars n attempt limit result lastErr st with
       | Returned r _ =>
           (TaskResult.Status r = TaskStatusCompleted /\ (1 <= handlerCalls events)%nat)
           \/ TaskResult.Status r = TaskStatusFailed
       | Exhausted _ _ _ => True
       end.
Proof.
  revert attempt result lastErr st.
  induction n as [|n IH]; intros attempt result lastErr st.
  { exists []. simpl. by rewrite app_nil_r. }
  cbn [attempts].
  destruct (Execute_ handler ctx params vars (world st)) as [ret w1].
  set (call := HandlerExecute (Task.Action task) params).
  set (st1 := mkState w1 (trace st ++ [call])).
  assert (Hnext : forall attempt' result' lastErr' w2,
    exists events,
      trace (loopState (attempts e ctx handler task params vars n attempt' limit result'
                          lastErr' (mkState w2 (trace st1))))
      = trace st ++ events
      /\ (handlerCalls events <= S n)%nat
      /\ match attempts e ctx handler task params vars n attempt' limit result' lastErr'
                 (mkState w2 (trace st1)) with
         | Returned r _ =>
             (TaskResult.Status r = TaskStatusCompleted /\ (1 <= handlerCalls events)%nat)
             \/ TaskResult.Status r = TaskStatusFailed
         | Exhausted _ _ _ => True
         end).
  { intros attempt' result' lastErr' w2.
    destruct (IH attempt' result' lastErr' (mkState w2 (trace st1)))
      as (events & Htr & Hle & Hend).
    exists (call :: events). split; [|split].
    - rewrite Htr. simpl. by rewrite <- app_assoc.
    - unfold call. rewrite handlerCalls_call. lia.
    - destruct (attempts _ _ _ _ _ _ _ _ _ _ _ _); [|done].
      destruct Hend as [[Hc Hn]|Hf]; [left|by right]. split; [done|].
      unfold call. rewrite handlerCalls_call. lia. }
  assert (Hretry : forall result' lastErr',
    exists events,
      trace (loopState
               (if (attempt <? limit)%Z && (0 <? Task.RetryDelay task)%Z
                then
                  let '(cancelled, w2) := waitOrDone ctx (Task.RetryDelay task) (world st1) in
                  let st2 := mkState w2 (trace st1) in
                  if cancelled
                  then Returned (TaskResult.with_Error
                                   (TaskResult.with_Status result' TaskStatusFailed)
                                   "cancelled during retry delay") st2
                  else attempts e ctx handler task params vars n (attempt + 1) limit
                         result' lastErr' st2
                else attempts e ctx handler task params vars n (attempt + 1) limit
                       result' lastErr' st1))
      = trace st ++ events
      /\ (handlerCalls events <= S n)%nat
      /\ match (if (attempt <? limit)%Z && (0 <? Task.RetryDelay task)%Z
                then
                  let '(cancelled, w2) := waitOrDone ctx (Task.RetryDelay task) (world st1) in
                  let st2 := mkState w2 (trace st1) in
                  if cancelled
                  then Returned (TaskResult.with_Error
                                   (TaskResult.with_Status result' TaskStatusFailed)
                                   "cancelled during retry delay") st2
                  else attempts e ctx handler task params vars n (attempt + 1) limit
                         result' lastErr' st2
                else attempts e ctx handler task params vars n (attempt + 1) limit
                       result' lastErr' st1) with
         | Returned r _ =>
             (TaskResult.Status r = TaskStatusCompleted /\ (1 <= handlerCalls events)%nat)
             \/ TaskResult.Status r = TaskStatusFailed
         | Exhausted _ _ _ => True
         end).
  { intros result' lastErr'. destruct (_ && _).
    - destruct (waitOrDone ctx (Task.RetryDelay task) (world st1)) as [cancelled w2].
      destruct cancelled; [|apply Hnext].
      exists [call]. split; [done|]. split; [|by right].
      unfold call. rewrite handlerCalls_call. unfold handlerCalls. simpl. lia.
    - destruct st1 as [w1' tr1] eqn:E. apply (Hnext _ _ _ w1'). }
  destruct ret as [[execResult|] [execErr|]]; try apply Hretry.
  destruct (progress_trace e (Task.Name task) TaskStatusCompleted st1) as (evs & Htr & Hz).
  exists (call :: evs). cbn [loopState]. split; [|split].
  - rewrite Htr. simpl. by rewrite <- app_assoc.
  - unfold call. rewrite handlerCalls_call, Hz. lia.
  - left. split; [done|]. unfold call. rewrite handlerCalls_call. lia.
Qed.

(** What a call of [executeTask] leaves: events added to the trace, among
    them at most [maxCalls task] calls of a handler, and a result with a
    terminal status, [skipped] only without a call and [completed] only
    after one. *)
Lemma executeTask_calls e ctx vars task : forall st result st',
  executeTask e ctx task vars st = Done (result, st') ->
  exists events,
    trace st' = trace st ++ events
    /\ (handlerCalls events <= maxCalls task)%nat
    /\ terminal (TaskResult.Status result)
    /\ (TaskResult.Status result = TaskStatusSkipped -> handlerCalls events = 0%nat)
    /\ (TaskResult.Status result = TaskStatusCompleted -> (1 <= handlerCalls events)%nat).
Proof.
  revert task. apply (Task_rollback_ind (fun task => forall st result st', _ -> _)).
  intros task IH st result st'. rewrite maxCalls_unfold. unfold maxAttempts.
  destruct task as [name id plat when action params reg res ign retries delay notify rb].
  cbn [executeTask Task.Name Task.ID Task.Platform Task.When Task.Action Task.Params
       Task.Result Task.Retries Task.Rollback] in *.
  destruct (progress_trace e name TaskStatusRunning st) as (evs0 & Htr0 & Hz0).
  set (st0 := progress e name TaskStatusRunning st) in *.
  assert (Hearly : forall r : TaskResult.t,
    TaskResult.Status r = TaskStatusSkipped \/ TaskResult.Status r = TaskStatusFailed ->
    Done (r, st0) = Done (result, st') ->
    exists events,
      trace st' = trace st ++ events
      /\ (handlerCalls events
          <= Z.to_nat (wrap64 (retries + 1))
             + match rb with Some r => maxCalls r | None => 0 end)%nat
      /\ terminal (TaskResult.Status result)
      /\ (TaskResult.Status result = TaskStatusSkipped -> handlerCalls events = 0%nat)
      /\ (TaskResult.Status result = TaskStatusCompleted
          -> (1 <= handlerCalls events)%nat)).
  { intros r Hr [= <- <-]. exists evs0. rewrite Hz0. split; [done|]. split; [lia|].
    unfold terminal. destruct Hr as [Hr|Hr]; rewrite Hr; intuition congruence. }
  destruct (_ && _); [by apply Hearly; left|].
  destruct (if negb _ then _ else _) as [[]| |]; try done;
    [|by apply Hearly; left|by apply Hearly; right].
  destruct (handlers e !! action) as [handler|]; [|by apply Hearly; right].
  destruct (negb _); [by apply Hearly; right|].
  destruct (Variables.SubstituteMap _ _ _) as [ps| |]; try done;
    [|by apply Hearly; right].
  match goal with
  | |- context [attempts ?a ?b ?c ?d ?e' ?f ?g ?h ?i ?j ?k ?l] =>
      destruct (attempts_calls a b c d e' f g h i j k l) as (evs1 & Htr1 & Hle1 & Hend);
      destruct (attempts a b c d e' f g h i j k l) as [r s|r le s]
  end; cbn [loopState] in Htr1.
  - intros [= <- <-]. exists (evs0 ++ evs1). rewrite handlerCalls_app, Hz0.
    split; [by rewrite Htr1, Htr0, <- app_assoc|]. split; [lia|].
    unfold terminal. destruct Hend as [[Hc Hn]|Hf].
    + rewrite Hc. split; [by left|]. split; [done|]. intros _. simpl. lia.
    + rewrite Hf. split; [by right; left|]. split; done.
  - assert (Hfail : forall (r' : TaskResult.t) s' evs2,
      TaskResult.Status r' = TaskStatusFailed ->
      trace s' = trace s ++ evs2 ->
      (handlerCalls evs2 <= match rb with Some r => maxCalls r | None => 0 end)%nat ->
      Done (r', progress e name TaskStatusFailed s') = Done (result, st') ->
      exists events,
        trace st' = trace st ++ events
        /\ (handlerCalls events
            <= Z.to_nat (wrap64 (retries + 1))
               + match rb with Some r => maxCalls r | None => 0 end)%nat
        /\ terminal (TaskResult.Status result)
        /\ (TaskResult.Status result = TaskStatusSkipped -> handlerCalls events = 0%nat)
        /\ (TaskResult.Status result = TaskStatusCompleted
            -> (1 <= handlerCalls events)%nat)).
    { intros r' s' evs2 Hr' Htr2 Hle2 [= <- <-].
      destruct (progress_trace e name TaskStatusFailed s') as (evs3 & Htr3 & Hz3).
      exists (evs0 ++ evs1 ++ evs2 ++ evs3).
      rewrite !handlerCalls_app, Hz0, Hz3.
      split; [by rewrite Htr3, Htr2, Htr1, Htr0, <- !app_assoc|]. split; [lia|].
      unfold terminal. rewrite Hr'. intuition congruence. }
    destruct rb as [rollback|].
    + destruct (executeTask e ctx rollback vars s) as [[rr rs]|] eqn:HR; [|done].
      destruct (IH _ _ _ HR) as (evs2 & Htr2 & Hle2 & _).
      destruct (decide _); by apply (Hfail _ rs evs2).
    + apply (Hfail _ s []); [done|by rewrite app_nil_r|done].
Qed.

(** [executeTask] always ends a task: the status of its result is
    [completed], [failed] or [skipped], never [pending] or [running], and
    the result carries the name of the task. A [completed] result means
    a handler was called; a [skipped] one means none was. *)
Theorem executeTask_result_is_terminal e ctx task vars st result st' :
  executeTask e ctx task vars st = Done (result, st') ->
  terminal (TaskResult.Status result)
  /\ TaskResult.TaskName result = Task.Name task
  /\ exists events,
       trace st' = trace st ++ events
       /\ (TaskResult.Status result = TaskStatusSkipped -> handlerCalls events = 0%nat)
       /\ (TaskResult.Status result = TaskStatusCompleted
           -> (1 <= handlerCalls events)%nat).
Proof.
  intros HE. pose proof (executeTask_TaskName _ _ _ _ _ _ _ HE) as Hname.
  apply executeTask_calls in HE as (events & Htr & _ & Hterm & Hskip & Hdone).
  split; [done|]. split; [done|]. by exists events.
Qed.

(** A task calls handlers at most once per attempt, its own attempts and
    those of its rollback together: without a rollback, and with a retry
    count that [retries + 1] does not overflow, at most [retries + 1]
    times. *)
Theorem executeTask_calls_within_retries e ctx task vars st result st' :
  executeTask e ctx task vars st = Done (result, st') ->
  exists events,
    trace st' = trace st ++ events
    /\ (handlerCalls events <= maxCalls task)%nat
    /\ (Task.Rollback task = None ->
        (0 <= Task.Retries task < 2 ^ 63 - 1)%Z ->
        (Z.of_nat (handlerCalls events) <= Task.Retries task + 1)%Z).
Proof.
  intros HE. apply executeTask_calls in HE as (events & Htr & Hle & _).
  exists events. split; [done|]. split; [done|].
  intros Hrb Hrange. rewrite maxCalls_unfold, Hrb in Hle. unfold maxAttempts in Hle.
  assert (Hw : wrap64 (Task.Retries task + 1) = (Task.Retries task + 1)%Z).
  { unfold wrap64. rewrite Z.mod_small; lia. }
  rewrite Hw in Hle. lia.
Qed.
End TaskRuns.

Section Counters.
Context `{Host}.
Import Executor.

Lemma countStatus_app s a b : countStatus s (a ++ b) = countStatus s a + countStatus s b.
Proof. unfold countStatus. rewrite List.filter_app, length_app. lia. Qed.

Lemma countStatus_one s result :
  countStatus s [result] = if bool_decide (TaskResult.Status result = s) then 1 else 0.
Proof. unfold countStatus. simpl. by destruct (bool_decide _). Qed.

Lemma countStatus_nonneg s results : 0 <= countStatus s results.
Proof. unfold countStatus. lia. Qed.

(** A list of terminal results is as long as its three counts together. *)
Lemma countStatus_terminal results :
  Forall (fun r => terminal (TaskResult.Status r)) results ->
  countStatus TaskStatusCompleted results + countStatus TaskStatusFailed results
  + countStatus TaskStatusSkipped results = Z.of_nat (length results).
Proof.
  induction 1 as [|r results Hr _ IH]; [done|].
  change (r :: results) with ([r] ++ results). rewrite !countStatus_app, !countStatus_one.
  rewrite length_app. simpl length.
  destruct Hr as [Hr|[Hr|Hr]]; rewrite Hr;
    repeat case_bool_decide; try congruence; lia.
Qed.

(** The task loop counts every result it appends, under its status. *)
Lemma taskLoop_counts e ctx playbook tasks : forall report vars notified st l,
  taskLoop e ctx playbook tasks report vars notified st = Done l ->
  exists results,
    R.TaskResults (loopReport l) = R.TaskResults report ++ results
    /\ Forall (fun r => terminal (TaskResult.Status r)) results
    /\ R.TasksCompleted (loopReport l)
       = R.TasksCompleted report + countStatus TaskStatusCompleted results
    /\ R.TasksFailed (loopReport l)
       = R.TasksFailed report + countStatus TaskStatusFailed results
    /\ R.TasksSkipped (loopReport l)
       = R.TasksSkipped report + countStatus TaskStatusSkipped results
    /\ R.TasksTotal (loopReport l) = R.TasksTotal report.
Proof.
  induction tasks as [|task rest IH]; intros report vars notified st l; simpl.
  { intros [= <-]. exists []. simpl. rewrite app_nil_r. unfold countStatus. simpl.
    repeat split; try done; lia. }
  destruct (ctx (world st)).
  { intros [= <-]. exists []. simpl. rewrite app_nil_r. unfold countStatus. simpl.
    repeat split; try done; lia. }
  destruct (executeTask e ctx task vars st) as [[result st']|] eqn:HE; [|done].
  apply executeTask_calls in HE as (_ & _ & _ & Hterm & _).
  assert (Hstep : forall report' vars' notified',
    R.TaskResults report' = R.TaskResults report ++ [result] ->
    R.TasksCompleted report'
    = R.TasksCompleted report + countStatus TaskStatusCompleted [result] ->
    R.TasksFailed report' = R.TasksFailed report + countStatus TaskStatusFailed [result] ->
    R.TasksSkipped report'
    = R.TasksSkipped report + countStatus TaskStatusSkipped [result] ->
    R.TasksTotal report' = R.TasksTotal report ->
    taskLoop e ctx playbook rest report' vars' notified' st' = Done l ->
    exists results,
      R.TaskResults (loopReport l) = R.TaskResults report ++ results
      /\ Forall (fun r => terminal (TaskResult.Status r)) results
      /\ R.TasksCompleted (loopReport l)
         = R.TasksCompleted report + countStatus TaskStatusCompleted results
      /\ R.TasksFailed (loopReport l)
         = R.TasksFailed report + countStatus TaskStatusFailed results
      /\ R.TasksSkipped (loopReport l)
         = R.TasksSkipped report + countStatus TaskStatusSkipped results
      /\ R.TasksTotal (loopReport l) = R.TasksTotal report).
  { intros report' vars' notified' HR HC HF HS HT HL.
    apply IH in HL as (results & HR1 & Hall & HC1 & HF1 & HS1 & HT1).
    exists (result :: results).
    change (result :: results) with ([result] ++ results). rewrite !countStatus_app.
    split; [by rewrite HR1, HR, <- app_assoc|]. split; [by constructor|].
    repeat split; lia. }
  destruct Hterm as [HS|[HS|HS]]; rewrite HS; cbn [negb].
  - apply Hstep; simpl; rewrite ?countStatus_one, ?HS; try done;
      repeat case_bool_decide; try congruence; lia.
  - destruct (_ && _).
    + intros [= <-]. exists [result]. simpl. rewrite !countStatus_one, HS.
      split; [done|]. split; [constructor; [right; by left|constructor]|].
      repeat case_bool_decide; try congruence. repeat split; lia.
    + apply Hstep; simpl; rewrite ?countStatus_one, ?HS; try done;
        repeat case_bool_decide; try congruence; lia.
  - apply Hstep; simpl; rewrite ?countStatus_one, ?HS; try done;
      repeat case_bool_decide; try congruence; lia.
Qed.

Lemma uncaught_cons h hs r rs :
  uncaught (h :: hs) (r :: rs)
  = (if bool_decide (TaskResult.Status r = TaskStatusFailed) && negb (Task.IgnoreErrors h)
     then 1 else 0) + uncaught hs rs.
Proof. unfold uncaught. simpl. destruct (_ && _); simpl; lia. Qed.

Lemma uncaught_bounds hs : forall rs,
  0 <= uncaught hs rs <= countStatus TaskStatusFailed rs.
Proof.
  induction hs as [|h hs IH]; intros [|r rs];
    try (unfold uncaught; simpl; pose proof (countStatus_nonneg TaskStatusFailed rs);
         pose proof (countStatus_nonneg TaskStatusFailed (r :: rs)); lia);
    try (unfold uncaught, countStatus; simpl; lia).
  rewrite uncaught_cons. change (r :: rs) with ([r] ++ rs).
  rewrite countStatus_app, countStatus_one. specialize (IH rs).
  destruct (bool_decide _); destruct (negb _); simpl; lia.
Qed.

(** The handler loop counts only the handlers that fail without
    [ignore_errors], and as failed. *)
Lemma handlerLoop_counts e ctx hs vars notified : forall report st report2 st2,
  handlerLoop e ctx hs report vars notified st = Done (report2, st2) ->
  exists results,
    R.TaskResults report2 = R.TaskResults report ++ results
    /\ Forall (fun r => terminal (TaskResult.Status r)) results
    /\ Forall2 (fun h r => TaskResult.TaskName r = Task.Name h)
         (filter (fun h => default false (notified !! Task.Name h) = true) hs) results
    /\ R.TasksCompleted report2 = R.TasksCompleted report
    /\ R.TasksFailed report2
       = R.TasksFailed report
         + uncaught (filter (fun h => default false (notified !! Task.Name h) = true) hs)
             results
    /\ R.TasksSkipped report2 = R.TasksSkipped report
    /\ R.TasksTotal report2 = R.TasksTotal report.
Proof.
  induction hs as [|handler rest IH]; intros report st report2 st2; simpl.
  { intros [= <- _]. exists []. rewrite app_nil_r. unfold uncaught. simpl.
    repeat split; try done; lia. }
  destruct (default false (notified !! Task.Name handler)) eqn:HN;
    [rewrite filter_cons_True by done
    |rewrite filter_cons_False by (rewrite HN; done); apply IH].
  destruct (executeTask e ctx handler vars st) as [[result st']|] eqn:HE; [|done].
  pose proof (executeTask_TaskName _ _ _ _ _ _ _ HE) as Hname.
  apply executeTask_calls in HE as (_ & _ & _ & Hterm & _).
  intros (results & HR & Hall & Hnames & HC & HF & HS & HT)%IH.
  exists (result :: results). rewrite uncaught_cons.
  split; [rewrite HR; destruct (_ && _); simpl; by rewrite <- app_assoc|].
  split; [by constructor|]. split; [by constructor|].
  destruct (bool_decide (TaskResult.Status result = TaskStatusFailed));
    destruct (negb (Task.IgnoreErrors handler)); simpl in *; repeat split; try done; lia.
Qed.

(** The entries executed are the ones that bear the name of a result. *)
Lemma namedBy_marked (marked : string -> Prop) `{!forall N, Decision (marked N)} hs results :
  Forall2 (fun h r => TaskResult.TaskName r = Task.Name h)
    (filter (fun h => marked (Task.Name h)) hs) results ->
  namedBy results hs = filter (fun h => marked (Task.Name h)) hs.
Proof.
  intros Hall.
  assert (Hnames : map TaskResult.TaskName results
                   = map Task.Name (filter (fun h => marked (Task.Name h)) hs)).
  { clear -Hall. induction Hall as [|h r l rs Hhr _ IH]; [done|]. simpl. by rewrite Hhr, IH. }
  unfold namedBy. rewrite Hnames.
  assert (Hiff : forall h, h ∈ hs ->
    (Task.Name h ∈ map Task.Name (filter (fun h => marked (Task.Name h)) hs)
     <-> marked (Task.Name h))).
  { intros h Hh. split.
    - intros (h' & Heq & [Hm _]%list_elem_of_filter)%(list_elem_of_fmap_1 Task.Name).
      by rewrite Heq.
    - intros Hm. apply (list_elem_of_fmap_2 Task.Name). by apply list_elem_of_filter. }
  clear Hall Hnames. revert Hiff.
  generalize (map Task.Name (filter (fun h => marked (Task.Name h)) hs)).
  intros names. induction hs as [|h hs IH]; intros Hiff; [done|].
  assert (Hh : Task.Name h ∈ names <-> marked (Task.Name h))
    by (apply Hiff; left).
  assert (Hrest : filter (fun h => Task.Name h ∈ names) hs
                  = filter (fun h => marked (Task.Name h)) hs)
    by (apply IH; intros h' Hh'; apply Hiff; by right).
  destruct (decide (marked (Task.Name h))) as [Hm|Hm].
  - rewrite !filter_cons_True by tauto. by rewrite Hrest.
  - rewrite !filter_cons_False by tauto. done.
Qed.

(** The counters of a report. The results are those of the tasks, then
    those of the handlers, all with a terminal status. [TasksCompleted]
    and [TasksSkipped] count the results of the tasks with that status,
    a handler being counted under neither. A run that returns an error
    has no handler result, and [TasksFailed] counts the failed tasks. A
    run that returns none has one result per task of the playbook, and
    then one per entry of the handlers list that bears the name of a
    handler result; [TasksFailed] counts the failed tasks and, among
    these entries, the ones that failed and do not ignore errors.
    [TasksTotal] is zero or the number of tasks of the parsed
    playbook. *)
Theorem Execute_counters e ctx sp st report err st' :
  Execute e ctx sp st = Done (report, err, st') ->
  exists taskResults handlerResults,
    R.TaskResults report = taskResults ++ handlerResults
    /\ Forall (fun r => terminal (TaskResult.Status r)) (taskResults ++ handlerResults)
    /\ R.TasksCompleted report = countStatus TaskStatusCompleted taskResults
    /\ R.TasksSkipped report = countStatus TaskStatusSkipped taskResults
    /\ countStatus TaskStatusFailed taskResults <= R.TasksFailed report
       <= countStatus TaskStatusFailed taskResults
          + countStatus TaskStatusFailed handlerResults
    /\ (err <> None ->
        handlerResults = []
        /\ R.TasksFailed report = countStatus TaskStatusFailed taskResults)
    /\ (err = None ->
        exists playbook,
          Parser.Parse (parser e) (SignedPlaybook.Content sp) = Val playbook
          /\ length taskResults = length (Playbook.Tasks playbook)
          /\ R.TasksTotal report = Z.of_nat (length (Playbook.Tasks playbook))
          /\ Forall2 (fun handler r => TaskResult.TaskName r = Task.Name handler)
               (namedBy handlerResults (Playbook.Handlers playbook)) handlerResults
          /\ R.TasksFailed report
             = countStatus TaskStatusFailed taskResults
               + uncaught (namedBy handlerResults (Playbook.Handlers playbook))
                   handlerResults)
    /\ (R.TasksTotal report = 0 \/ exists playbook,
          Parser.Parse (parser e) (SignedPlaybook.Content sp) = Val playbook
          /\ R.TasksTotal report = Z.of_nat (length (Playbook.Tasks playbook))).
Proof.
  unfold Execute.
  assert (Hnone : forall r : R.t,
    err <> None ->
    R.TaskResults r = [] -> R.TasksCompleted r = 0 -> R.TasksFailed r = 0 ->
    R.TasksSkipped r = 0 -> R.TasksTotal r = 0 ->
    exists taskResults handlerResults,
      R.TaskResults r = taskResults ++ handlerResults
      /\ Forall (fun r => terminal (TaskResult.Status r)) (taskResults ++ handlerResults)
      /\ R.TasksCompleted r = countStatus TaskStatusCompleted taskResults
      /\ R.TasksSkipped r = countStatus TaskStatusSkipped taskResults
      /\ countStatus TaskStatusFailed taskResults <= R.TasksFailed r
         <= countStatus TaskStatusFailed taskResults
            + countStatus TaskStatusFailed handlerResults
      /\ (err <> None ->
          handlerResults = []
          /\ R.TasksFailed r = countStatus TaskStatusFailed taskResults)
      /\ (err = None ->
          exists playbook,
            Parser.Parse (parser e) (SignedPlaybook.Content sp) = Val playbook
            /\ length taskResults = length (Playbook.Tasks playbook)
            /\ R.TasksTotal r = Z.of_nat (length (Playbook.Tasks playbook))
            /\ Forall2 (fun handler r => TaskResult.TaskName r = Task.Name handler)
                 (namedBy handlerResults (Playbook.Handlers playbook)) handlerResults
            /\ R.TasksFailed r
               = countStatus TaskStatusFailed taskResults
                 + uncaught (namedBy handlerResults (Playbook.Handlers playbook))
                     handlerResults)
      /\ (R.TasksTotal r = 0 \/ exists playbook,
            Parser.Parse (parser e) (SignedPlaybook.Content sp) = Val playbook
            /\ R.TasksTotal r = Z.of_nat (length (Playbook.Tasks playbook)))).
  { intros r Herr HR HC HF HS HT. exists [], []. rewrite HR, HC, HF, HS.
    unfold countStatus. simpl. repeat split; try done; try lia. }
  destruct (Verifier.Verify (verifier e) sp) as [record [verr|]].
  { intros [= <- <- _]. by apply Hnone. }
  destruct (Parser.Parse (parser e) (SignedPlaybook.Content sp)) as [pb|perr|] eqn:HP;
    [|intros [= <- <- _]; by apply Hnone|done].
  destruct (_ && _); [intros [= <- <- _]; by apply Hnone|].
  match goal with
  | |- context [taskLoop e ctx pb ?ts ?r ?v ?n st] =>
      destruct (taskLoop e ctx pb ts r v n st) as [l|] eqn:HT; [|done]
  end.
  pose proof HT as HT'.
  apply taskLoop_counts in HT as (taskResults & HR1 & Hall1 & HC1 & HF1 & HS1 & HT1).
  simpl in HR1, HC1, HF1, HS1, HT1.
  destruct l as [r1 e1 s1|r1 v1 n1 s1]; cbn [loopReport] in *.
  { intros [= <- <- _]. exists taskResults, []. rewrite app_nil_r, HR1, HC1, HF1, HS1, HT1.
    pose proof (countStatus_nonneg TaskStatusFailed (@nil TaskResult.t)).
    repeat split; try done; try lia. right. by exists pb. }
  apply taskLoop_done in HT' as (results & HR1' & Hrun & _). simpl in HR1'.
  apply runEach_length in Hrun. rewrite HR1' in HR1. subst results.
  destruct (handlerLoop e ctx (Playbook.Handlers pb) r1 v1 n1 s1) as [[r2 s2]|] eqn:HH;
    [|done].
  apply handlerLoop_counts
    in HH as (handlerResults & HR2 & Hall2 & Hnames & HC2 & HF2 & HS2 & HT2).
  pose proof (namedBy_marked (fun N => default false (n1 !! N) = true)
                (Playbook.Handlers pb) handlerResults Hnames) as Hby.
  pose proof (uncaught_bounds
                (filter (fun h => default false (n1 !! Task.Name h) = true)
                   (Playbook.Handlers pb)) handlerResults) as Hle.
  rewrite <- Hby in Hnames, HF2, Hle.
  intros [= <- <- _]. exists taskResults, handlerResults. simpl.
  rewrite HR2, HR1', HC2, HC1, HS2, HS1, HT2, HT1, HF2, HF1.
  split; [done|]. split; [by apply Forall_app|].
  split; [lia|]. split; [lia|]. split; [lia|]. split; [done|].
  split; [|right; by exists pb].
  intros _. exists pb. repeat split; try done; lia.
Qed.
End Counters.

Section Outcomes.
Context `{Host}.
Import Executor.

Lemma requireParam_error params prefix action key err :
  Parser.requireParam params prefix action key = Some err ->
  exists field message, err = ValidationError field message.
Proof.
  unfold Parser.requireParam. destruct (param params key); [done|].
  intros [= <-]. by eexists _, _.
Qed.

Lemma validateActionParams_error action params prefix err :
  Parser.validateActionParams action params prefix = Some err ->
  exists field message, err = ValidationError field message.
Proof.
  unfold Parser.validateActionParams, Parser.firstError.
  repeat match goal with
  | |- (if ?b then _ else _) = _ -> _ => destruct b
  | |- match Parser.requireParam ?a ?b ?c ?d with _ => _ end = _ -> _ =>
      destruct (Parser.requireParam a b c d) eqn:?;
      [intros [= <-]; by eapply requireParam_error|]
  | |- Parser.requireParam _ _ _ _ = _ -> _ => by apply requireParam_error
  end.
  done.
Qed.

Lemma validateTask_error p task i err :
  Parser.validateTask p task i = Some err ->
  exists field message, err = ValidationError field message.
Proof.
  unfold Parser.validateTask.
  repeat match goal with
  | |- (if ?b then _ else _) = _ -> _ => destruct b; [intros [= <-]; by eexists _, _|]
  end.
  destruct (Parser.validateActionPlatform _ _ _); [intros [= <-]; by eexists _, _|].
  destruct (Parser.validateActionParams _ _ _) eqn:HP;
    [intros [= <-]; by eapply validateActionParams_error|].
  repeat match goal with
  | |- (if ?b then _ else _) = _ -> _ => destruct b; [intros [= <-]; by eexists _, _|]
  end.
  done.
Qed.

Lemma validateEach_error p wrap tasks i err :
  (forall j field message, exists field' message',
      wrap j (ValidationError field message) = ValidationError field' message') ->
  Parser.validateEach p wrap tasks i = Some err ->
  exists field message, err = ValidationError field message.
Proof.
  intros Hwrap. revert i. induction tasks as [|task rest IH]; intros i; simpl; [done|].
  destruct (Parser.validateTask p task i) as [e0|] eqn:E; [|apply IH].
  apply validateTask_error in E as (f & m & ->). intros [= <-]. apply Hwrap.
Qed.

(** The errors of [Parse]: the decoder's, or a validation error. *)
Lemma Parse_error p content err :
  Parser.Parse p content = Fail err ->
  (exists message, err = ParseError message ErrInvalidYAML)
  \/ exists field message, err = ValidationError field message.
Proof.
  unfold Parser.Parse. destruct (yamlUnmarshal content) as [e0|doc].
  { intros [= <-]. left. by eexists. }
  destruct (Parser.Validate p doc) as [pb [e0|]] eqn:HV; [|done].
  intros [= <-]. right. apply (f_equal snd) in HV. revert HV.
  unfold Parser.Validate. cbn [snd].
  repeat match goal with
  | |- (if ?b then _ else _) = _ -> _ => destruct b; [intros [= <-]; by eexists _, _|]
  end.
  match goal with
  | |- context [match ?pe with Some err => Some err | None => _ end] =>
      destruct pe as [perr|] eqn:HP
  end.
  { intros [= <-]. revert HP.
    destruct (_ <? _)%nat; [|done]. destruct (find _ _); [intros [= <-]; by eexists _, _|].
    destruct (negb _); [intros [= <-]; by eexists _, _|done]. }
  destruct (Parser.validateEach p _ (Playbook.Tasks _) 0) eqn:HE.
  { intros [= <-]. eapply validateEach_error; [|exact HE]. intros; by eexists _, _. }
  intros HH. eapply validateEach_error; [|exact HH]. intros; by eexists _, _.
Qed.

(** How the task loop returns early: cancelled, or failed on a task. *)
Lemma taskLoop_return_status e ctx playbook tasks : forall report vars notified st r err s,
  taskLoop e ctx playbook tasks report vars notified st = Done (LoopReturn r err s) ->
  (R.Status r = "cancelled" /\ err = ErrContext)
  \/ (R.Status r = "failed" /\ exists message, err = Errorf message).
Proof.
  induction tasks as [|task rest IH]; intros report vars notified st r err s; simpl; [done|].
  destruct (ctx (world st)); [intros [= <- <- _]; by left|].
  destruct (executeTask e ctx task vars st) as [[result st']|]; [|done].
  destruct (TaskResult.Status result); try apply IH.
  destruct (_ && _); [|apply IH]. intros [= <- <- _]. right. split; [done|]. by eexists.
Qed.

(** A playbook [Parse] returned names the platform of the parser when it
    names platforms at all: step 3 of [Execute] lets it pass. *)
Lemma Parse_platform_listed p content pb :
  Parser.Parse p content = Val pb ->
  (0 <? length (Playbook.Platforms pb))%nat
  && negb (existsb (fun plat => String.eqb plat (Parser.platform p)) (Playbook.Platforms pb))
  = false.
Proof.
  intros (doc & _ & HV)%Parse_Val.
  apply Validate_wellFormed in HV as (_ & _ & _ & _ & [->|[_ Hin]] & _); [done|].
  apply andb_false_iff. right. apply negb_false_iff, existsb_exists.
  exists (Parser.platform p). split; [by apply list_elem_of_In|apply String.eqb_refl].
Qed.

Lemma Verify_error_kind v sp err :
  (Verifier.Verify v sp).2 = Some err ->
  err ∈ [ErrEmptyContent; ErrMissingHash; ErrMissingSignature; ErrHashMismatch;
         ErrInvalidSignature; ErrNotApproved].
Proof.
  unfold Verifier.Verify.
  repeat case_match; simpl; intros [= <-]; rewrite !elem_of_cons; tauto.
Qed.

(** [Execute] rejects only what the verifier rejects. With the parser and
    the executor on one platform, as [NewExecutor] makes them, a report has
    status [rejected] exactly when its verification record does not pass;
    the platform step of [Execute] never answers, so the error is never
    [ErrPlatformMismatch]. The status is one of four, and [completed]
    exactly when no error is returned. *)
Theorem Execute_rejects_only_what_the_verifier_rejects e ctx sp st report err st' :
  Parser.platform (parser e) = platform e ->
  Execute e ctx sp st = Done (report, err, st') ->
  (R.Status report = "rejected"
   <-> VerificationRecord.AllChecksPass (R.Verification report) = false)
  /\ err <> Some ErrPlatformMismatch
  /\ R.Status report ∈ ["rejected"; "failed"; "cancelled"; "completed"]
  /\ (err = None <-> R.Status report = "completed").
Proof.
  intros Hplat HE.
  pose proof (Execute_Verification _ _ _ _ _ _ _ HE) as HV. rewrite HV.
  pose proof (Verify_error_iff (verifier e) sp) as Hiff.
  pose proof (Verify_error_kind (verifier e) sp) as Hkind.
  revert HE. unfold Execute.
  destruct (Verifier.Verify (verifier e) sp) as [record [verr|]]; cbn [fst snd] in *.
  { intros [= <- <- _]. cbn.
    assert (Hfail : VerificationRecord.AllChecksPass record = false).
    { destruct (VerificationRecord.AllChecksPass record); [|done].
      destruct Hiff as [_ Hi]. by specialize (Hi eq_refl). }
    specialize (Hkind verr eq_refl).
    split; [done|]. split; [|split; [rewrite !elem_of_cons; tauto|done]].
    intros [= ->]. rewrite !elem_of_cons, elem_of_nil in Hkind. intuition discriminate. }
  assert (Hpass : VerificationRecord.AllChecksPass record = true) by (by apply Hiff).
  rewrite Hpass.
  destruct (Parser.Parse (parser e) (SignedPlaybook.Content sp)) as [pb|perr|] eqn:HP;
    [| |done].
  2:{ intros [= <- <- _]. cbn. apply Parse_error in HP.
      split; [done|]. split; [|split; [rewrite !elem_of_cons; tauto|done]].
      intros [= ->]. destruct HP as [[m Hm]|(f & m & Hm)]; done. }
  rewrite <- Hplat, (Parse_platform_listed _ _ _ HP).
  match goal with
  | |- context [taskLoop e ctx pb ?ts ?r ?v ?n st] =>
      destruct (taskLoop e ctx pb ts r v n st) as [[r1 e1 s1|r1 v1 n1 s1]|] eqn:HT;
      [| |done]
  end.
  { intros [= <- <- _].
    apply taskLoop_return_status in HT as [[-> ->]|[-> [m ->]]];
      (split; [done|]); (split; [done|]); (split; [rewrite !elem_of_cons; tauto|done]). }
  destruct (handlerLoop e ctx (Playbook.Handlers pb) r1 v1 n1 s1) as [[r2 s2]|]; [|done].
  intros [= <- <- _]. cbn. split; [done|]. split; [done|].
  split; [rewrite !elem_of_cons; tauto|done].
Qed.

(** A context that is already cancelled stops [Execute] before the first
    task: after verification and parsing the report is [cancelled], with
    the total of the tasks, no result, and the state as it was. *)
Theorem Execute_cancelled_before_the_first_task e ctx sp st playbook :
  (Verifier.Verify (verifier e) sp).2 = None ->
  Parser.Parse (parser e) (SignedPlaybook.Content sp) = Val playbook ->
  Parser.platform (parser e) = platform e ->
  ctx (world st) = true ->
  exists report,
    Execute e ctx sp st = Done (report, Some ErrContext, st)
    /\ R.Status report = "cancelled"
    /\ R.TaskResults report = []
    /\ R.TasksTotal report = Z.of_nat (length (Playbook.Tasks playbook))
    /\ R.PlaybookName report = Playbook.Name playbook.
Proof.
  intros HV HP Hplat Hctx. unfold Execute.
  destruct (Verifier.Verify (verifier e) sp) as [record verr]. simpl in HV. subst verr.
  rewrite HP, <- Hplat, (Parse_platform_listed _ _ _ HP).
  apply Parse_Val in HP as (doc & _ & HVal).
  apply Validate_wellFormed in HVal as (_ & _ & _ & Htasks & _).
  destruct (Playbook.Tasks playbook) as [|task rest]; [done|].
  cbn [taskLoop]. rewrite Hctx. by eexists.
Qed.

(** A task whose action belongs to another platform than the host's is
    skipped, never handed to a handler: [validateTask] accepts it only
    when it names that platform, and the platform filter of [executeTask]
    then skips it after the [running] notification. *)
Theorem foreign_action_is_skipped e ctx task vars st p i plat :
  Parser.validateTask p task i = None ->
  Parser.platform p = platform e ->
  actionPlatform (Task.Action task) = Some plat ->
  platform e <> plat ->
  Task.Platform task = plat
  /\ exists result,
       executeTask e ctx task vars st
       = Done (result, progress e (Task.Name task) TaskStatusRunning st)
       /\ TaskResult.Status result = TaskStatusSkipped.
Proof.
  intros HV Hp Hact Hne. apply validateTask_wellFormed in HV as (_ & _ & HVP & _).
  assert (Hplat : Task.Platform task = plat /\ Task.Platform task <> "").
  { revert HVP Hact. unfold Parser.validateActionPlatform, actionPlatform.
    rewrite Hp.
    destruct (String.eqb_spec (Task.Platform task) "") as [Hemp|Hemp];
      repeat match goal with
      | |- context [if String.eqb ?a ?b then _ else _] =>
          destruct (String.eqb_spec a b)
      | |- context [if ?a || ?b then _ else _] => destruct (a || b)
      end; try done; intros HVP [= <-];
      match type of HVP with
      | (if negb (String.eqb ?a ?b) then _ else _) = _ => destruct (String.eqb_spec a b)
      end; try done; split; congruence. }
  destruct Hplat as [Hplat Hemp]. split; [done|].
  destruct task as [name id tp when action params reg res ign retries delay notify rb].
  cbn [executeTask Task.Name Task.ID Task.Platform Task.When Task.Action Task.Params
       Task.Result Task.Retries Task.Rollback] in *.
  apply String.eqb_neq in Hemp. rewrite Hemp.
  assert (Hneq : String.eqb tp (platform e) = false)
    by (apply String.eqb_neq; congruence).
  rewrite Hneq. cbn [negb andb]. by eexists.
Qed.
End Outcomes.

Section DryRuns.
Context `{Host}.
Import Executor.

Lemma simulateTask_issues e task :
  (simulateTask e task).2 = dryRunIssues e task /\ simulated e task (simulateTask e task).1.
Proof.
  unfold simulated, dryRunIssues, platformFiltered, simulateTask.
  destruct (negb (String.eqb (Task.Platform task) "")
            && negb (String.eqb (Task.Platform task) (platform e))); cbn [negb andb];
    [|destruct (negb (String.eqb (Task.When task) "")); cbn [andb];
      [destruct (Condition.ValidateCondition (Task.When task))|]];
    destruct (handlers e !! Task.Action task); cbn;
    (split; [reflexivity|]); (split; [reflexivity|]);
    (split; intros; (reflexivity || lia)).
Qed.

Lemma dryRunIssues_nonneg e task : 0 <= dryRunIssues e task.
Proof. unfold dryRunIssues. repeat case_match; lia. Qed.

Lemma issuesOf_nonneg e tasks : 0 <= issuesOf e tasks.
Proof.
  induction tasks as [|t ts IH]; [done|]. unfold issuesOf in *. simpl.
  pose proof (dryRunIssues_nonneg e t). lia.
Qed.

Lemma simulate_fold e tasks : forall report,
  let report' := fold_left (simulate e) tasks report in
  exists results,
    R.TaskResults report' = R.TaskResults report ++ results
    /\ Forall2 (simulated e) tasks results
    /\ R.TasksFailed report' = R.TasksFailed report + issuesOf e tasks
    /\ R.TasksTotal report' = R.TasksTotal report
    /\ R.PlaybookName report' = R.PlaybookName report.
Proof.
  induction tasks as [|task rest IH]; intros report; simpl.
  { exists []. rewrite app_nil_r. unfold issuesOf. simpl. repeat split; try done; lia. }
  destruct (IH (simulate e report task)) as (results & HR & Hall & HF & HT & HN).
  destruct (simulateTask_issues e task) as [Hiss Hsim].
  unfold simulate in *. destruct (simulateTask e task) as [r n]. simpl in *. subst n.
  exists (r :: results). split; [by rewrite HR, <- app_assoc|].
  split; [by constructor|]. unfold issuesOf in *. simpl. repeat split; try done; lia.
Qed.

(** A dry run of a verified playbook that parses simulates the tasks and
    nothing else: it returns the state it was given, one result per task
    in order and none for the handlers, [failed] for a task with an issue
    and [skipped] or [pending] otherwise. [TasksFailed] is the number of
    issues, which can exceed the number of tasks; the run is
    [dry_run_ok] without error when there is none, and [dry_run_failed]
    with an error that tells their number otherwise. *)
Theorem DryRun_reports_the_issues e ctx sp st playbook :
  (Verifier.Verify (verifier e) sp).2 = None ->
  Parser.Parse (parser e) (SignedPlaybook.Content sp) = Val playbook ->
  exists report err,
    DryRun e ctx sp st = Done (report, err, st)
    /\ Forall2 (simulated e) (Playbook.Tasks playbook) (R.TaskResults report)
    /\ R.TasksFailed report = issuesOf e (Playbook.Tasks playbook)
    /\ R.TasksTotal report = Z.of_nat (length (Playbook.Tasks playbook))
    /\ (issuesOf e (Playbook.Tasks playbook) = 0
        -> err = None /\ R.Status report = "dry_run_ok")
    /\ (0 < issuesOf e (Playbook.Tasks playbook)
        -> R.Status report = "dry_run_failed"
           /\ err = Some (Errorf ("dry run found "
                                  +:+ Itoa (issuesOf e (Playbook.Tasks playbook))
                                  +:+ " issues"))).
Proof.
  intros HV HP. unfold DryRun.
  destruct (Verifier.Verify (verifier e) sp) as [record verr]. simpl in HV. subst verr.
  rewrite HP.
  match goal with
  | |- context [fold_left (simulate e) ?ts ?r] =>
      destruct (simulate_fold e ts r) as (results & HR & Hall & HF & HT & HN);
      set (report := fold_left (simulate e) ts r) in *
  end.
  simpl in HR, HF, HT. rewrite Z.add_0_l in HF.
  destruct (0 <? R.TasksFailed report) eqn:E.
  - apply Z.ltb_lt in E. eexists _, _. split; [done|]. simpl. rewrite HR, HF, HT.
    repeat split; try done; lia.
  - apply Z.ltb_ge in E. eexists _, _. split; [done|]. simpl. rewrite HR, HF, HT.
    repeat split; try done; lia.
Qed.

(** A task whose handler succeeds at the first attempt: the handler is
    called once, whatever the retry count, between the [running] and the
    [completed] notification, and the result takes [changed], the output,
    the exit code and the message of the handler. *)
Theorem executeTask_first_attempt_succeeds e ctx task vars st callback handler params
    execResult w1 :
  onProgress e = Some callback ->
  Task.Platform task = "" \/ Task.Platform task = platform e ->
  Task.When task = "" ->
  handlers e !! Task.Action task = Some handler ->
  existsb (fun p => String.eqb p (platform e) || String.eqb p "all") (Supports handler)
  = true ->
  (0 <= Task.Retries task < 2 ^ 63 - 1) ->
  let w0 := callback (Task.Name task) TaskStatusRunning (world st) in
  Variables.SubstituteMap vars w0 (Task.Params task) = Val params ->
  Execute_ handler ctx params vars w0 = ((Some execResult, None), w1) ->
  exists result,
    executeTask e ctx task vars st
    = Done (result,
            mkState (callback (Task.Name task) TaskStatusCompleted w1)
              (trace st ++ [Progress (Task.Name task) TaskStatusRunning;
                            HandlerExecute (Task.Action task) params;
                            Progress (Task.Name task) TaskStatusCompleted]))
    /\ TaskResult.Status result = TaskStatusCompleted
    /\ TaskResult.Changed result = TaskResult.Changed execResult
    /\ TaskResult.Stdout result = TaskResult.Stdout execResult
    /\ TaskResult.Stderr result = TaskResult.Stderr execResult
    /\ TaskResult.ExitCode result = TaskResult.ExitCode execResult
    /\ TaskResult.Message result = TaskResult.Message execResult
    /\ TaskResult.Error result = "".
Proof.
  intros Hcb Hplat Hwhen Hh Hsup Hret w0 Hsub Hexec.
  destruct task as [name id plat when action ps reg res ign retries delay notify rb].
  cbn [executeTask Task.Name Task.ID Task.Platform Task.When Task.Action Task.Params
       Task.Result Task.Retries Task.Rollback] in *.
  assert (Hfilter : negb (String.eqb plat "") && negb (String.eqb plat (platform e))
                    = false).
  { destruct Hplat as [->| ->]; [done|]. rewrite String.eqb_refl. apply andb_false_r. }
  rewrite Hfilter. subst when. cbn [String.eqb negb].
  rewrite Hh, Hsup. cbn [negb].
  unfold progress at 1 2 3. rewrite Hcb. cbn [world trace]. fold w0. rewrite Hsub.
  assert (Hw : wrap64 (retries + 1) = retries + 1)
    by (unfold wrap64; rewrite Z.mod_small; lia).
  rewrite Hw. destruct (Z.to_nat (retries + 1)) as [|n] eqn:En; [lia|].
  cbn [attempts world trace]. rewrite Hexec. unfold progress. rewrite Hcb.
  cbn [world trace Task.Name Task.Action]. rewrite <- !app_assoc. cbn [app].
  eexists. split; [reflexivity|]. cbn. repeat (split; [reflexivity|]). reflexivity.
Qed.
End DryRuns.

Section Templates.
Context `{Host}.
Import Variables.

Lemma spanWhile_app p a b :
  forallb p a = true -> match b with [] => True | c :: _ => p c = false end ->
  spanWhile p (a ++ b) = (a, b).
Proof.
  intros Ha Hb. induction a as [|x a IH]; simpl in *.
  - destruct b as [|c b]; [done|]. simpl. by rewrite Hb.
  - apply andb_true_iff in Ha as [Hx Ha]. by rewrite Hx, IH.
Qed.

Lemma replaceAll_none pat repl l : forall fuel lastErr,
  (forall k, pat (drop k l) = None) -> (length l < fuel)%nat ->
  replaceAll fuel pat repl l lastErr = (l, lastErr).
Proof.
  induction l as [|c l IH]; intros fuel lastErr Hnone Hlen.
  - destruct fuel as [|f]; [done|]. simpl.
    pose proof (Hnone 0%nat) as H0. simpl in H0. by rewrite H0.
  - destruct fuel as [|f]; [simpl in Hlen; lia|]. cbn [replaceAll].
    pose proof (Hnone 0%nat) as H0. simpl in H0. rewrite H0.
    rewrite IH; [done| |simpl in Hlen; lia].
    intros k. apply (Hnone (S k)).
Qed.

Lemma matchVarPattern_brace l : "{"%char ∉ l -> matchVarPattern l = None.
Proof.
  intros Hl. destruct l as [|a [|b r]]; try done. unfold matchVarPattern.
  destruct (Ascii.eqb_spec a "{") as [->|]; [|done].
  exfalso. apply Hl. by left.
Qed.

Lemma matchEnvPattern_brace l : "{"%char ∉ l -> matchEnvPattern l = None.
Proof.
  intros Hl. destruct l as [|a [|b [|c r]]]; try done. unfold matchEnvPattern.
  destruct (Ascii.eqb_spec b "{") as [->|]; [|by rewrite andb_false_r].
  exfalso. apply Hl. right. by left.
Qed.

Lemma matchEnvPattern_dollar l : "$"%char ∉ l -> matchEnvPattern l = None.
Proof.
  intros Hl. destruct l as [|a [|b [|c r]]]; try done. unfold matchEnvPattern.
  destruct (Ascii.eqb_spec a "$") as [->|]; [|done].
  exfalso. apply Hl. by left.
Qed.

Lemma notin_drop {A} (x : A) k l : x ∉ l -> x ∉ drop k l.
Proof. intros Hl Hin. apply Hl. by apply (subseteq_drop k l). Qed.

Lemma ReplaceAllStringFunc_none pat repl s :
  (forall k, pat (drop k (bytesOf s)) = None) ->
  ReplaceAllStringFunc pat repl s = (s, None).
Proof.
  intros Hnone. unfold ReplaceAllStringFunc.
  rewrite replaceAll_none; [by rewrite ofBytes_bytesOf|done|].
  rewrite bytesOf_length. lia.
Qed.

Lemma resolveEnvVars_dollar w s : "$"%char ∉ bytesOf s -> resolveEnvVars w s = s.
Proof.
  intros Hs. unfold resolveEnvVars. rewrite ReplaceAllStringFunc_none; [done|].
  intros k. by apply matchEnvPattern_dollar, notin_drop.
Qed.

(** A text without an opening brace holds no reference: [Substitute]
    returns it as it is, with no error, whatever the variables. *)
Theorem Substitute_leaves_plain_text v w s :
  "{"%char ∉ bytesOf s -> Substitute v w s = (s, None).
Proof.
  intros Hs. unfold Substitute, resolveEnvVars.
  rewrite (ReplaceAllStringFunc_none matchEnvPattern)
    by (intros k; by apply matchEnvPattern_brace, notin_drop).
  cbn [fst]. apply ReplaceAllStringFunc_none.
  intros k. by apply matchVarPattern_brace, notin_drop.
Qed.

Lemma replaceAll_nil fuel pat repl lastErr :
  pat [] = None -> replaceAll fuel pat repl [] lastErr = ([], lastErr).
Proof. intros Hp. destruct fuel; simpl; [done|]. by rewrite Hp. Qed.

Lemma varChar_not_dollar c : varChar c = true -> c <> "$"%char.
Proof. intros Hc ->. vm_compute in Hc. discriminate. Qed.

Lemma varChar_not_space c : varChar c = true -> reSpace c = false.
Proof. destruct c as [[] [] [] [] [] [] [] []]; vm_compute; congruence. Qed.

Lemma identChar_varChar c : identChar c = true -> varChar c = true.
Proof. unfold varChar. by intros ->. Qed.

Lemma bytesOf_reference x :
  bytesOf (reference x)
  = "{"%char :: "{"%char :: " "%char :: bytesOf x ++ [" "%char; "}"%char; "}"%char].
Proof. unfold reference. by rewrite !bytesOf_app. Qed.

Lemma matchVarPattern_reference x :
  identifier x = true -> matchVarPattern (bytesOf (reference x)) = Some (bytesOf x, []).
Proof.
  unfold identifier. rewrite bytesOf_reference.
  destruct (bytesOf x) as [|c r]; [done|]. intros [Hc Hr]%andb_true_iff.
  unfold matchVarPattern. cbn [Ascii.eqb Bool.eqb andb spanWhile app].
  change (reSpace " ") with true. cbn iota.
  pose proof (varChar_not_space c (identStart_varChar c Hc)) as Hsp. rewrite Hsp, Hc.
  rewrite (spanWhile_app varChar r) by done.
  change (spanWhile reSpace [" "%char; "}"%char; "}"%char])
    with ([" "%char], ["}"%char; "}"%char]). done.
Qed.

Lemma reference_no_dollar x : identifier x = true -> "$"%char ∉ bytesOf (reference x).
Proof.
  unfold identifier. rewrite bytesOf_reference.
  destruct (bytesOf x) as [|c r]; [done|]. intros [Hc Hr]%andb_true_iff.
  rewrite !not_elem_of_cons, not_elem_of_app, !not_elem_of_cons.
  repeat split; try done.
  - intros <-. by vm_compute in Hc.
  - intros Hin. rewrite forallb_forall in Hr. apply list_elem_of_In in Hin.
    by apply Hr, varChar_not_dollar in Hin.
  - apply not_elem_of_nil.
Qed.

(** The closure of [Substitute] is applied once to a lone reference. *)
Lemma Substitute_reference v w x :
  identifier x = true -> Substitute v w (reference x) = substituteMatch v w (reference x) x.
Proof.
  intros Hx. unfold Substitute.
  rewrite resolveEnvVars_dollar by (by apply reference_no_dollar).
  unfold ReplaceAllStringFunc. cbn [replaceAll].
  rewrite matchVarPattern_reference by done.
  cbn [length]. rewrite Nat.sub_0_r, firstn_all, !ofBytes_bytesOf.
  destruct (substituteMatch v w (reference x) x) as [out err].
  rewrite replaceAll_nil by done. rewrite app_nil_r, ofBytes_bytesOf.
  by destruct err.
Qed.

(** A lone reference to a variable, [{{ x }}]: the value of a user
    variable, else of a built-in, taken as it is and not expanded again;
    an unknown name leaves the text and gives [ErrVariableNotFound]. *)
Theorem Substitute_resolves_a_reference v w x :
  identifier x = true -> HasPrefix x "env." = false -> Contains x "." = false ->
  Substitute v w (reference x)
  = match Get v x with
    | Some val => (val, None)
    | None => (reference x, Some (VariableError x ErrVariableNotFound))
    end.
Proof.
  intros Hx Henv Hdot. rewrite Substitute_reference by done.
  unfold substituteMatch. by rewrite Henv, Hdot.
Qed.
End Templates.

Section References.
Context `{Host}.
Import Variables.

Lemma envName_identifier n : envName n = true -> identifier ("env." +:+ n) = true.
Proof.
  unfold envName, identifier. rewrite bytesOf_app.
  destruct (bytesOf n) as [|c r]; [done|]. intros [Hc Hr]%andb_true_iff.
  change (bytesOf "env.") with ["e"%char; "n"%char; "v"%char; "."%char].
  cbn [app forallb]. change (identStart "e") with true.
  change (varChar "n") with true. change (varChar "v") with true.
  change (varChar ".") with true. cbn [andb].
  rewrite (identStart_varChar c Hc). cbn [andb].
  apply forallb_forall. intros ch Hin. rewrite forallb_forall in Hr.
  by apply identChar_varChar, Hr.
Qed.

Lemma HasPrefix_app p s : HasPrefix (p +:+ s) p = true.
Proof. unfold HasPrefix. rewrite bytesOf_app. apply isPrefix_spec. by eexists. Qed.

Lemma TrimPrefix_app p s : TrimPrefix (p +:+ s) p = s.
Proof.
  unfold TrimPrefix. rewrite HasPrefix_app, bytesOf_app, <- bytesOf_length.
  by rewrite drop_app_length, ofBytes_bytesOf.
Qed.

Lemma matchEnvPattern_shell n :
  envName n = true -> matchEnvPattern (bytesOf (shellReference n)) = Some (bytesOf n, []).
Proof.
  unfold envName, shellReference. rewrite !bytesOf_app.
  destruct (bytesOf n) as [|c r]; [done|]. intros [Hc Hr]%andb_true_iff.
  change (bytesOf "${") with ["$"%char; "{"%char].
  change (bytesOf "}") with ["}"%char]. cbn [app]. unfold matchEnvPattern.
  cbn [Ascii.eqb Bool.eqb andb]. rewrite Hc.
  by rewrite (spanWhile_app identChar r).
Qed.

(** References to the environment. [{{ env.NAME }}] in a template and
    [${NAME}] in the value of a user variable become the value of NAME
    when it is set and not empty; otherwise the text stays as written,
    and no error is reported. *)
Theorem environment_references v w n :
  envName n = true ->
  Substitute v w (reference ("env." +:+ n))
  = (if String.eqb (Getenv w n) "" then reference ("env." +:+ n) else Getenv w n, None)
  /\ resolveEnvVars w (shellReference n)
     = (if String.eqb (Getenv w n) "" then shellReference n else Getenv w n).
Proof.
  intros Hn. split.
  - rewrite Substitute_reference by (by apply envName_identifier).
    unfold substituteMatch, nonEmpty. rewrite HasPrefix_app, TrimPrefix_app.
    by destruct (String.eqb (Getenv w n) "").
  - unfold resolveEnvVars, ReplaceAllStringFunc. cbn [replaceAll].
    rewrite matchEnvPattern_shell by done.
    cbn [length]. rewrite Nat.sub_0_r, firstn_all, !ofBytes_bytesOf.
    unfold nonEmpty. destruct (String.eqb (Getenv w n) ""); cbn [negb];
      rewrite replaceAll_nil by done; cbn [fst]; by rewrite app_nil_r, ofBytes_bytesOf.
Qed.

(** In a condition [platform] and [arch] are the values of the Go
    runtime, whatever the variables say; in a template they are
    variables like the others, and a user variable of that name takes
    the place of the built-in. *)
Theorem platform_in_conditions_and_templates v w val :
  ParseFloat "platform" = None -> ParseFloat "arch" = None ->
  Condition.resolveValue (Set_ v "platform" val) w "platform" = Val GOOS
  /\ Condition.resolveValue (Set_ v "arch" val) w "arch" = Val GOARCH
  /\ Substitute (Set_ v "platform" val) w (reference "platform") = (val, None)
  /\ Substitute (Set_ v "arch" val) w (reference "arch") = (val, None)
  /\ Substitute (NewVariables w) w (reference "platform") = (GOOS, None).
Proof.
  intros Hp Ha. split; [|split; [|split; [|split]]].
  - unfold Condition.resolveValue. change (TrimSpace "platform") with "platform".
    change (Condition.isQuoted "platform") with false. by rewrite Hp.
  - unfold Condition.resolveValue. change (TrimSpace "arch") with "arch".
    change (Condition.isQuoted "arch") with false. by rewrite Ha.
  - rewrite Substitute_reference by done. unfold substituteMatch, Get, Set_.
    cbn. by rewrite lookup_insert_eq.
  - rewrite Substitute_reference by done. unfold substituteMatch, Get, Set_.
    cbn. by rewrite lookup_insert_eq.
  - rewrite Substitute_reference by done.
    unfold substituteMatch, Get, NewVariables, initBuiltins. cbn.
    rewrite lookup_empty. destruct (Hostname w); by simplify_map_eq.
Qed.

Lemma cut_dot name rest :
  "."%char ∉ bytesOf name ->
  cut ["."%char] (bytesOf (name +:+ "." +:+ rest)) = Some (bytesOf name, bytesOf rest).
Proof.
  intros Hdot. rewrite !bytesOf_app. change (bytesOf ".") with ["."%char].
  apply cut_first; [|done]. cbn [removelast]. rewrite app_nil_r.
  intros Hocc. apply Hdot. eapply occurs_elem; [exact Hocc|by left].
Qed.

Lemma envName_no_dot name : envName name = true -> "."%char ∉ bytesOf name.
Proof.
  unfold envName. destruct (bytesOf name) as [|c r]; [done|].
  intros [Hc Hr]%andb_true_iff. rewrite not_elem_of_cons. split.
  - intros <-. by vm_compute in Hc.
  - intros Hin. rewrite forallb_forall in Hr. apply list_elem_of_In, Hr in Hin.
    by vm_compute in Hin.
Qed.

Lemma property_identifier name property :
  envName name = true -> identifier property = true ->
  identifier (name +:+ "." +:+ property) = true.
Proof.
  unfold envName, identifier. rewrite !bytesOf_app. change (bytesOf ".") with ["."%char].
  destruct (bytesOf name) as [|c r]; [done|]. intros [Hc Hr]%andb_true_iff.
  destruct (bytesOf property) as [|d q]; [done|]. intros [Hd Hq]%andb_true_iff.
  cbn [app]. rewrite Hc. cbn [andb]. rewrite !forallb_app. cbn [forallb].
  rewrite (identStart_varChar d Hd), Hq. change (varChar ".") with true. cbn [andb].
  rewrite andb_true_r. apply forallb_forall. intros ch Hin.
  rewrite forallb_forall in Hr. by apply identChar_varChar, Hr.
Qed.


(** What [SubstituteMap] keeps of the parameters of a task: the keys, in
    their order, and every number, boolean and null as it is. *)
Theorem SubstituteMap_keeps_keys_and_scalars v w params result :
  SubstituteMap v w params = Val result ->
  map fst result = map fst params
  /\ Forall2 (fun before after => scalar before.2 = true -> after = before) params result.
Proof.
  unfold SubstituteMap. cbn [substituteValue].
  match goal with
  | |- context [match ?walk params with _ => _ end] => set (walkMap := walk)
  end.
  destruct (walkMap params) as [r| |] eqn:HW; try done. intros [= <-].
  revert r HW. induction params as [|[key x] rest IH]; intros r HW.
  { injection HW as <-. split; [done|constructor]. }
  cbn in HW. fold walkMap in HW.
  destruct (substituteValue v w x) as [x'| |] eqn:Hx; try done.
  destruct (walkMap rest) as [r'| |] eqn:Hr; try done.
  injection HW as <-. destruct (IH r' eq_refl) as [Hkeys Hall].
  split; [simpl; by rewrite Hkeys|]. constructor; [|done]. simpl.
  intros Hs. destruct x; try done; cbn in Hx; by injection Hx as <-.
Qed.

(** The built-in variables of a fresh context. [os_family] is the
    platform itself, on every system; [hostname] is defined exactly when
    the host has a name; there is no user variable and no task result. *)
Theorem NewVariables_builtins w name :
  Get (NewVariables w) "platform" = Some GOOS
  /\ Get (NewVariables w) "os_family" = Some GOOS
  /\ Get (NewVariables w) "arch" = Some GOARCH
  /\ Get (NewVariables w) "hostname" = Hostname w
  /\ Get (NewVariables w) "temp_dir" = Some (TempDir w)
  /\ Get (NewVariables w) "path_sep" = Some Separator
  /\ Get (NewVariables w) "user_home" = Some (getUserHome w)
  /\ GetTaskResult (NewVariables w) name = None
  /\ (name ∉ ["platform"; "arch"; "os_family"; "hostname"; "user_home"; "user_config";
              "user_cache"; "system_config"; "temp_dir"; "path_sep"]
      -> Get (NewVariables w) name = None).
Proof.
  assert (Hfam : getOSFamily = GOOS).
  { unfold getOSFamily.
    repeat match goal with
    | |- context [String.eqb GOOS ?s] => destruct (String.eqb_spec GOOS s) as [->|]
    end; done. }
  unfold Get, GetTaskResult, NewVariables, initBuiltins. cbn [userVars builtins taskResults].
  rewrite !lookup_empty, Hfam.
  repeat split; try (destruct (Hostname w); by simplify_map_eq).
  rewrite !not_elem_of_cons. intros Hname. destruct_and?.
  destruct (Hostname w); by simplify_map_eq.
Qed.
End References.

Section Grouping.
Context `{Host}.
Variable c : Variables.t.
Variable w : World.

Lemma free_cons sp wd p X :
  p <> sp -> (forall wd', wd <> p :: wd') -> free sp wd X -> free sp wd (p :: X).
Proof.
  intros Hp Hhead HX (a & b & E). simpl in E.
  destruct a as [|a0 a]; simpl in E.
  - injection E as E. destruct wd as [|w0 wd']; simpl in E.
    + by injection E as ->.
    + injection E as -> _. by eapply Hhead.
  - injection E as <- E. destruct a as [|a1 a]; simpl in E.
    + by injection E as ->.
    + injection E as <- E. apply HX. exists (sp :: a), b. simpl. by rewrite E.
Qed.

Lemma occurs_rev sep l : occurs sep l -> occurs (rev sep) (rev l).
Proof.
  intros (a & b & ->). exists (rev b), (rev a). rewrite !rev_app_distr. by rewrite app_assoc.
Qed.

Lemma free_rev sp wd X : free sp wd (rev X) -> free sp (rev wd) X.
Proof.
  intros HX Hocc. apply HX. apply occurs_rev in Hocc.
  replace (rev (sp :: rev wd ++ [sp])) with (sp :: wd ++ [sp]) in Hocc
    by (simpl; rewrite rev_app_distr, rev_involutive; done).
  replace (rev (sp :: X ++ [sp])) with (sp :: rev X ++ [sp]) in Hocc
    by (simpl; rewrite rev_app_distr; done).
  done.
Qed.

Lemma free_snoc sp wd q X :
  q <> sp -> (forall wd', wd <> wd' ++ [q]) -> free sp wd X -> free sp wd (X ++ [q]).
Proof.
  intros Hq Hlast HX. rewrite <- (rev_involutive wd). apply free_rev.
  rewrite rev_app_distr. simpl. apply free_cons; [done| |].
  - intros wd' E. apply (Hlast (rev wd')). by rewrite <- (rev_involutive wd), E.
  - rewrite <- (rev_involutive (rev wd)). apply free_rev. by rewrite !rev_involutive.
Qed.

(** [strings.Count] of one byte. *)
Lemma cut_single ch l :
  match cut [ch] l with
  | Some (b, a) => l = b ++ ch :: a /\ ch ∉ b
  | None => ch ∉ l
  end.
Proof.
  induction l as [|x l IH]; [simpl; apply not_elem_of_nil|].
  cbn [cut isPrefix]. destruct (Ascii.eqb_spec ch x) as [->|Hne]; cbn [andb].
  - cbn [length drop]. split; [done|apply not_elem_of_nil].
  - destruct (cut [ch] l) as [[b a]|].
    + destruct IH as [-> Hb]. split; [done|]. rewrite not_elem_of_cons. done.
    + rewrite not_elem_of_cons. done.
Qed.

Lemma countAll_single ch : forall fuel l,
  (length l <= fuel)%nat -> countAll fuel [ch] l = cnt ch l.
Proof.
  induction fuel as [|fuel IH]; intros l Hlen.
  - destruct l; [|simpl in Hlen; lia]. done.
  - pose proof (cut_single ch l) as Hcut. cbn [countAll].
    destruct (cut [ch] l) as [[b a]|].
    + destruct Hcut as [-> Hb]. rewrite cnt_app, cnt_cons_eq, (cnt_notin ch b Hb).
      rewrite IH; [done|]. rewrite length_app in Hlen. simpl in Hlen. lia.
    + by rewrite cnt_notin.
Qed.

Lemma Count_single X ch : Count X (String ch "") = cnt ch (bytesOf X).
Proof.
  unfold Count. cbn [bytesOf list_ascii_of_string].
  apply countAll_single. by rewrite bytesOf_length.
Qed.

Lemma noParen_cnt X :
  noParen X = true ->
  cnt "("%char (bytesOf X) = 0%nat /\ cnt ")"%char (bytesOf X) = 0%nat.
Proof.
  unfold noParen, Contains. intros [Ho Hc]%andb_true_iff.
  apply negb_true_iff in Ho, Hc.
  pose proof (cut_single "(" (bytesOf X)) as H1.
  pose proof (cut_single ")" (bytesOf X)) as H2.
  change (bytesOf "(") with ["("%char] in Ho. change (bytesOf ")") with [")"%char] in Hc.
  destruct (cut ["("%char] (bytesOf X)); [done|].
  destruct (cut [")"%char] (bytesOf X)); [done|].
  split; by apply cnt_notin.
Qed.

(** Two tokens, the first with an open parenthesis: the loop joins them
    again and the split gives one part. *)
Lemma splitOnOperator_merged e op X Y :
  Split e op = [X; Y] -> (Count X ")" < Count X "(")%nat ->
  length (Condition.splitOnOperator e op) = 1%nat.
Proof.
  intros HS Hlt. unfold Condition.splitOnOperator. rewrite HS. cbn [Condition.splitLoop].
  apply Nat.ltb_lt in Hlt as Hlt'. rewrite Hlt'. cbn [Condition.splitLoop].
  assert (Hlen : (0 <? String.length (X +:+ op +:+ Y))%nat = true).
  { apply Nat.ltb_lt. rewrite String_length_app.
    destruct X; [by vm_compute in Hlt'|]. simpl. lia. }
  rewrite Hlen. cbn [app length Nat.leb andb].
  assert (Hd : Nat.eqb (Count X "(" - Count X ")") 0 = false)
    by (apply Nat.eqb_neq; lia).
  by rewrite Hd.
Qed.

Lemma and_head p : p <> "a"%char -> forall wd', bytesOf "and" <> p :: wd'.
Proof. intros Hp wd' [= E _]. by apply Hp. Qed.

Lemma or_head p : p <> "o"%char -> forall wd', bytesOf "or" <> p :: wd'.
Proof. intros Hp wd' [= E _]. by apply Hp. Qed.

Lemma and_last q : q <> "d"%char -> forall wd', bytesOf "and" <> wd' ++ [q].
Proof.
  intros Hq wd' E. apply (f_equal (@rev ascii)) in E. rewrite rev_app_distr in E.
  simpl in E. injection E as E _. by apply Hq.
Qed.

Lemma or_last q : q <> "r"%char -> forall wd', bytesOf "or" <> wd' ++ [q].
Proof.
  intros Hq wd' E. apply (f_equal (@rev ascii)) in E. rewrite rev_app_distr in E.
  simpl in E. injection E as E _. by apply Hq.
Qed.

Lemma bytesOf_parens X : bytesOf (parens X) = "("%char :: bytesOf X ++ [")"%char].
Proof. unfold parens. by rewrite !bytesOf_app. Qed.

Lemma parens_trimmed X : isTrimmed (parens X) = true.
Proof.
  apply isTrimmed_spec. rewrite bytesOf_parens. split; [done|]. split.
  - by apply leadSpace_plain.
  - change ("("%char :: bytesOf X ++ [")"%char]) with (("("%char :: bytesOf X) ++ [")"%char]).
    by apply trailSpace_plain.
Qed.

Lemma parens_not_literal X s :
  match bytesOf s with "("%char :: _ => False | _ => True end ->
  String.eqb (parens X) s = false.
Proof.
  intros Hs. apply String.eqb_neq. intros E. apply (f_equal bytesOf) in E.
  rewrite bytesOf_parens in E. rewrite <- E in Hs. done.
Qed.

Lemma parens_slice X :
  slice (parens X) 1 (String.length (parens X) - 1) = Some X.
Proof.
  unfold slice. rewrite <- !bytesOf_length, bytesOf_parens. cbn [length drop].
  rewrite length_app. cbn [length].
  replace (S (length (bytesOf X) + 1) - 1 - 1)%nat with (length (bytesOf X)) by lia.
  rewrite drop_0, take_app_length, ofBytes_bytesOf.
  replace ((1 <=? S (length (bytesOf X) + 1) - 1)%nat
           && (S (length (bytesOf X) + 1) - 1 <=? S (length (bytesOf X) + 1))%nat)
    with true; [done|].
  symmetry. apply andb_true_iff. split; apply Nat.leb_le; lia.
Qed.

Lemma parens_prefix_suffix X :
  HasPrefix (parens X) "(" = true /\ HasSuffix (parens X) ")" = true.
Proof.
  unfold HasPrefix, HasSuffix. rewrite bytesOf_parens. split; [done|].
  change (bytesOf ")") with [")"%char].
  change ("("%char :: bytesOf X ++ [")"%char]) with (("("%char :: bytesOf X) ++ [")"%char]).
  apply isSuffix_last.
Qed.

(** The operands of a conjunction in parentheses, as the splits see
    them. *)
Lemma group_free wd B C :
  space ∉ bytesOf wd ->
  (forall wd', bytesOf wd <> "("%char :: wd') ->
  (forall wd', bytesOf wd <> wd' ++ [")"%char]) ->
  wordFree wd B = true -> wordFree wd C = true ->
  free space (bytesOf wd) ("("%char :: bytesOf B)
  /\ free space (bytesOf wd) (bytesOf C ++ [")"%char]).
Proof.
  intros Hsp Hhead Hlast HB%wordFree_free HC%wordFree_free. split.
  - by apply free_cons.
  - by apply free_snoc.
Qed.

Lemma free_word_other wd m :
  space ∉ bytesOf wd -> space ∉ bytesOf m -> bytesOf m <> bytesOf wd ->
  free space (bytesOf wd) (bytesOf m).
Proof. intros Hw Hm Hne. by apply free_of_spacefree. Qed.

(** The bytes of [(B and C)], cut at the operator. *)
Lemma bytesOf_group B C :
  bytesOf (parens (B +:+ " and " +:+ C))
  = ("("%char :: bytesOf B) ++ (space :: bytesOf "and" ++ [space])
    ++ (bytesOf C ++ [")"%char]).
Proof. rewrite bytesOf_parens, !bytesOf_app. app_eq. Qed.

Lemma group_and_split B C :
  wordFree "and" B = true -> wordFree "and" C = true -> noParen B = true ->
  length (Condition.splitOnOperator (parens (B +:+ " and " +:+ C)) " and ") = 1%nat.
Proof.
  intros HB HC HP.
  destruct (group_free "and" B C space_notin_and (and_head "(" ltac:(discriminate))
              (and_last ")" ltac:(discriminate)) HB HC) as [HfB HfC].
  apply (splitOnOperator_merged _ _ (ofBytes ("("%char :: bytesOf B))
           (ofBytes (bytesOf C ++ [")"%char]))).
  - apply Split_one; [done| |].
    + rewrite bytesOf_group. by apply (free_first space (bytesOf "and") space_notin_and).
    + by apply (free_absent space (bytesOf "and")).
  - rewrite !Count_single, bytesOf_ofBytes.
    destruct (noParen_cnt B HP) as [Ho Hc].
    change ("("%char :: bytesOf B) with (["("%char] ++ bytesOf B).
    rewrite !cnt_app, Ho, Hc. by vm_compute.
Qed.

Lemma group_or_free B C :
  wordFree "or" B = true -> wordFree "or" C = true ->
  wordFree "or" (parens (B +:+ " and " +:+ C)) = true.
Proof.
  intros HB HC.
  destruct (group_free "or" B C space_notin_or (or_head "(" ltac:(discriminate))
              (or_last ")" ltac:(discriminate)) HB HC) as [HfB HfC].
  apply free_wordFree. rewrite bytesOf_group.
  replace (("("%char :: bytesOf B) ++ (space :: bytesOf "and" ++ [space])
           ++ bytesOf C ++ [")"%char])
    with (("("%char :: bytesOf B) ++ space :: (bytesOf "and" ++ space
          :: (bytesOf C ++ [")"%char]))) by app_eq.
  apply (free_join space _ space_notin_or); [done|].
  apply (free_join space _ space_notin_or); [|done].
  apply free_word_other; [apply space_notin_or|apply space_notin_and|discriminate].
Qed.

(** A conjunction in parentheses is evaluated as the conjunction. *)
Lemma Evaluate_group B C :
  operand B = true -> operand C = true ->
  Condition.Evaluate c w (parens (B +:+ " and " +:+ C))
  = andThen (Condition.Evaluate c w B) (Condition.Evaluate c w C).
Proof.
  intros (HB & HPB & HaB & HoB)%operand_spec (HC & HPC & HaC & HoC)%operand_spec.
  rewrite <- (Evaluate_and c w B C) by done.
  rewrite Evaluate_unfold, (TrimSpace_id _ (parens_trimmed _)). unfold evaluateStep.
  rewrite !parens_not_literal by done.
  rewrite group_and_split by done.
  change " or " with (" " +:+ "or" +:+ " ").
  rewrite (splitOnOperator_absent "or" _ space_notin_or (group_or_free B C HoB HoC)).
  cbn [length Nat.ltb Nat.leb].
  destruct (parens_prefix_suffix (B +:+ " and " +:+ C)) as [-> ->]. cbn [andb].
  by rewrite parens_slice.
Qed.

(** Parentheses give [and] the tighter binding: [A or (B and C)] is [A],
    or else [B] and then [C]; [B] and [C] are not looked at when [A] is
    true. *)
Theorem Evaluate_parentheses_group A B C :
  operand A = true -> operand B = true -> operand C = true ->
  Condition.Evaluate c w (A +:+ " or " +:+ parens (B +:+ " and " +:+ C))
  = orElse (Condition.Evaluate c w A)
      (andThen (Condition.Evaluate c w B) (Condition.Evaluate c w C)).
Proof.
  intros HopA HopB HopC. rewrite <- (Evaluate_group B C HopB HopC).
  apply operand_spec in HopA as (HA & HPA & HaA & HoA).
  apply operand_spec in HopB as (HB & HPB & HaB & HoB).
  apply operand_spec in HopC as (HC & HPC & HaC & HoC).
  set (P := parens (B +:+ " and " +:+ C)).
  pose proof (parens_trimmed (B +:+ " and " +:+ C)) as HP. fold P in HP.
  change (A +:+ " or " +:+ P) with (A +:+ " " +:+ "or" +:+ " " +:+ P).
  rewrite Evaluate_unfold, (TrimSpace_id _ (isTrimmed_join A "or" P HA HP)).
  unfold evaluateStep.
  pose proof (isTrimmed_nonempty _ HA) as HAne.
  pose proof (isTrimmed_nonempty _ HP) as HPne.
  rewrite !String_eqb_length
    by (rewrite !String_length_app; destruct A; [done|]; destruct P; [done|]; simpl; lia).
  (* the split on [and] joins its two tokens again *)
  assert (Hand : length (Condition.splitOnOperator
                           (A +:+ " " +:+ "or" +:+ " " +:+ P) " and ") = 1%nat).
  { destruct (group_free "and" B C space_notin_and (and_head "(" ltac:(discriminate))
                (and_last ")" ltac:(discriminate)) HaB HaC) as [HfB HfC].
    apply (splitOnOperator_merged _ _
             (ofBytes (bytesOf A ++ space :: bytesOf "or" ++ space :: "("%char :: bytesOf B))
             (ofBytes (bytesOf C ++ [")"%char]))).
    - apply Split_one; [done| |].
      + replace (bytesOf (A +:+ " " +:+ "or" +:+ " " +:+ P))
          with ((bytesOf A ++ space :: bytesOf "or" ++ space :: "("%char :: bytesOf B)
                ++ (space :: bytesOf "and" ++ [space]) ++ (bytesOf C ++ [")"%char]))
          by (unfold P; rewrite !bytesOf_app, bytesOf_group; app_eq).
        apply (free_first space (bytesOf "and") space_notin_and).
        apply (free_join space _ space_notin_and); [by apply wordFree_free|].
        apply (free_join space _ space_notin_and); [|done].
        apply free_word_other; [apply space_notin_and|apply space_notin_or|discriminate].
      + by apply (free_absent space (bytesOf "and")).
    - rewrite !Count_single, bytesOf_ofBytes.
      destruct (noParen_cnt A HPA) as [HoA' HcA']. destruct (noParen_cnt B HPB) as [Ho Hc].
      change (bytesOf A ++ space :: bytesOf "or" ++ space :: "("%char :: bytesOf B)
        with (bytesOf A ++ [space; "o"%char; "r"%char; space; "("%char] ++ bytesOf B).
      rewrite !cnt_app, Ho, Hc, HoA', HcA'. by vm_compute. }
  rewrite Hand. cbn [Nat.ltb Nat.leb].
  change " or " with (" " +:+ "or" +:+ " ").
  rewrite (splitOnOperator_word "or" A P space_notin_or HoA
             (group_or_free B C HoB HoC) HPA HPne).
  rewrite !TrimSpace_id by done. simpl.
  unfold orElse. destruct (Condition.Evaluate c w A) as [[]| |]; try done.
  by destruct (Condition.Evaluate c w P) as [[]| |].
Qed.

(** [not] negates what follows it: for an operand [X], [not X] is the
    negation of [X], an error of [X] staying an error. It binds looser
    than a comparison, [not a == b] being the negation of [a == b]. *)
Theorem Evaluate_negates_an_operand X :
  operand X = true ->
  Condition.Evaluate c w ("not " +:+ X) = notOf (Condition.Evaluate c w X).
Proof.
  intros (HX & HPX & HaX & HoX)%operand_spec.
  pose proof (isTrimmed_nonempty _ HX) as HXne.
  assert (Hbytes : bytesOf ("not " +:+ X) = bytesOf "not" ++ space :: bytesOf X)
    by (by rewrite bytesOf_app).
  assert (Htrim : isTrimmed ("not " +:+ X) = true).
  { apply isTrimmed_spec in HX as (HXb & _ & HXt).
    apply isTrimmed_spec. rewrite Hbytes. split; [done|]. split.
    - by apply leadSpace_plain.
    - by apply trailSpace_app_space. }
  assert (Hfree : forall wd, space ∉ bytesOf wd -> bytesOf "not" <> bytesOf wd ->
                    wordFree wd X = true -> wordFree wd ("not " +:+ X) = true).
  { intros wd Hsp Hne HfX%wordFree_free. apply free_wordFree. rewrite Hbytes.
    apply (free_join space _ Hsp); [|done].
    apply (free_word_other wd "not"); [done| |done].
    rewrite <- spaceFree_spec. done. }
  rewrite Evaluate_unfold, (TrimSpace_id _ Htrim). unfold evaluateStep.
  rewrite !String_eqb_length
    by (rewrite String_length_app; destruct X; [done|]; simpl; lia).
  change " and " with (" " +:+ "and" +:+ " ").
  rewrite (splitOnOperator_absent "and" _ space_notin_and
             (Hfree "and" space_notin_and ltac:(done) HaX)).
  change " or " with (" " +:+ "or" +:+ " ").
  rewrite (splitOnOperator_absent "or" _ space_notin_or
             (Hfree "or" space_notin_or ltac:(done) HoX)).
  cbn [length Nat.ltb Nat.leb].
  assert (Hparen : HasPrefix ("not " +:+ X) "(" = false).
  { unfold HasPrefix. by rewrite Hbytes. }
  rewrite Hparen. cbn [andb]. by rewrite HasPrefix_app, TrimPrefix_app.
Qed.

(** [Evaluate] returns on every expression: each call it makes to itself
    is on a shorter string, so the depth of the calls is at most the
    length of the expression, and it is the body of the Go function with
    the calls to itself. *)
Theorem Evaluate_terminates expression :
  (forall fuel, (String.length expression < fuel)%nat ->
                Condition.evaluate fuel c w expression
                = Some (Condition.Evaluate c w expression))
  /\ Condition.Evaluate c w expression
     = evaluateStep (Condition.Evaluate c w) c w (TrimSpace expression)
  /\ (forall op part, op <> "" ->
         (1 < length (Condition.splitOnOperator expression op))%nat ->
         part ∈ Condition.splitOnOperator expression op ->
         (String.length part < String.length expression)%nat).
Proof.
  split; [intros fuel Hf; by apply Evaluate_fuel|]. split; [apply Evaluate_unfold|].
  intros op part Hop Hlen Hin. by eapply splitOnOperator_shorter.
Qed.
End Grouping.

Section Commands.
Context `{Host}.

(** The handler runs nothing without a command that is a non-empty
    string: it answers with an error and leaves the world as it is. The
    validation of the parser and of the handler only look for the key, so
    a command that is a number, a list or the empty string passes both
    and fails here. *)
Theorem command_must_be_a_non_empty_string ctx params vars w :
  (forall s, param params "command" = Some (VString s) -> s = "") ->
  CommandHandler.Execute ctx params vars w
  = ((None, Some (Errorf "command parameter must be a non-empty string")), w)
  /\ (param params "command" <> None ->
      CommandHandler.Validate params = None
      /\ forall prefix, Parser.validateActionParams ActionCommand params prefix = None).
Proof.
  intros Hcmd. split.
  - unfold CommandHandler.Execute, paramString.
    destruct (param params "command") as [[]|]; try done.
    by rewrite (Hcmd s eq_refl).
  - intros Hsome. unfold CommandHandler.Validate, Parser.validateActionParams,
      Parser.requireParam. cbn [String.eqb Ascii.eqb Bool.eqb ActionCommand].
    by destruct (param params "command").
Qed.

(** A command whose process ends in an error. The result carries the
    trimmed output and the exit code, [-1] when the process gave none.
    A deadline that passed is an error whatever [fail_on_error] says;
    otherwise [fail_on_error: false] turns the failure into a completed,
    changed result, and without it the error tells the exit code. The
    [creates] path is not looked for: the world is the one the process
    left. *)
Theorem command_that_fails ctx params vars w cmdStr err :
  paramString params "command" = Some cmdStr -> cmdStr <> "" ->
  Process.Err (runProcess ctx (CommandHandler.commandOf params cmdStr) w).1 = Some err ->
  let fin := (runProcess ctx (CommandHandler.commandOf params cmdStr) w).1 in
  exists result,
    CommandHandler.Execute ctx params vars w
    = ((Some result,
        if Process.DeadlineExceeded fin then
          Some (Errorf ("command timed out after "
                        +:+ formatDuration (CommandHandler.timeoutOf params)))
        else if toleratesFailure params then None
        else Some (Errorf ("command failed with exit code " +:+ Itoa (exitCodeOf err)
                           +:+ ": " +:+ TrimSpace (Process.Stderr fin)))),
       (runProcess ctx (CommandHandler.commandOf params cmdStr) w).2)
    /\ TaskResult.ExitCode result = exitCodeOf err
    /\ TaskResult.Stdout result = TrimSpace (Process.Stdout fin)
    /\ TaskResult.Stderr result = TrimSpace (Process.Stderr fin)
    /\ TaskResult.Status result
       = (if negb (Process.DeadlineExceeded fin) && toleratesFailure params
          then TaskStatusCompleted else TaskStatusRunning)
    /\ TaskResult.Changed result
       = negb (Process.DeadlineExceeded fin) && toleratesFailure params.
Proof.
  intros Hcmd Hne%String.eqb_neq Herr fin. subst fin.
  unfold CommandHandler.Execute, toleratesFailure. rewrite Hcmd, Hne.
  destruct (runProcess ctx (CommandHandler.commandOf params cmdStr) w) as [fin w1].
  cbn [fst snd] in *. rewrite Herr. fold (exitCodeOf err).
  destruct (Process.DeadlineExceeded fin); cbn [negb andb].
  - eexists. split; [reflexivity|]. by cbn.
  - destruct (param params "fail_on_error") as [[| |[]| | | |]|];
      (eexists; split; [reflexivity|]; by cbn).
Qed.
End Commands.

Section Instances.
Import Example Executor.

Lemma executeTask_result_is_terminal_witness :
  exists result st',
    executeTask (H := linux) (executor true) ctx (commandTask "write" "true" []) fresh start
    = Done (result, st')
    /\ terminal (TaskResult.Status result)
    /\ TaskResult.TaskName result = Task.Name (commandTask "write" "true" [])
    /\ exists events,
         trace st' = trace start ++ events
         /\ (TaskResult.Status result = TaskStatusSkipped -> handlerCalls events = 0%nat)
         /\ (TaskResult.Status result = TaskStatusCompleted
             -> (1 <= handlerCalls events)%nat).
Proof.
  eexists _, _. split; [reflexivity|].
  eapply (executeTask_result_is_terminal (H := linux) (executor true) ctx
            (commandTask "write" "true" []) fresh start).
  reflexivity.
Defined.

Lemma executeTask_calls_within_retries_witness :
  exists result st',
    executeTask (H := linux) (executor true) ctx (commandTask "break" "exit 1" []) fresh start
    = Done (result, st')
    /\ exists events,
         trace st' = trace start ++ events
         /\ (handlerCalls events <= maxCalls (commandTask "break" "exit 1" []))%nat
         /\ (Task.Rollback (commandTask "break" "exit 1" []) = None ->
             (0 <= Task.Retries (commandTask "break" "exit 1" []) < 2 ^ 63 - 1)%Z ->
             (Z.of_nat (handlerCalls events)
              <= Task.Retries (commandTask "break" "exit 1" []) + 1)%Z).
Proof.
  eexists _, _. split; [reflexivity|].
  eapply (executeTask_calls_within_retries (H := linux) (executor true) ctx
            (commandTask "break" "exit 1" []) fresh start).
  reflexivity.
Defined.

Lemma Execute_counters_witness :
  exists report err st',
    Execute (H := linux) (executor true) ctx (signed twinsYAML "approved") start
    = Done (report, err, st')
    /\ exists taskResults handlerResults,
         R.TaskResults report = taskResults ++ handlerResults
         /\ Forall (fun r => terminal (TaskResult.Status r)) (taskResults ++ handlerResults)
         /\ R.TasksCompleted report = countStatus TaskStatusCompleted taskResults
         /\ R.TasksSkipped report = countStatus TaskStatusSkipped taskResults
         /\ (countStatus TaskStatusFailed taskResults <= R.TasksFailed report
             <= countStatus TaskStatusFailed taskResults
                + countStatus TaskStatusFailed handlerResults)%Z
         /\ (err <> None ->
             handlerResults = []
             /\ R.TasksFailed report = countStatus TaskStatusFailed taskResults)
         /\ (err = None ->
             exists playbook,
               Parser.Parse (H := linux) (parser (executor true))
                 (SignedPlaybook.Content (signed twinsYAML "approved")) = Val playbook
               /\ length taskResults = length (Playbook.Tasks playbook)
               /\ R.TasksTotal report = Z.of_nat (length (Playbook.Tasks playbook))
               /\ Forall2 (fun handler r => TaskResult.TaskName r = Task.Name handler)
                    (namedBy handlerResults (Playbook.Handlers playbook)) handlerResults
               /\ R.TasksFailed report
                  = (countStatus TaskStatusFailed taskResults
                     + uncaught (namedBy handlerResults (Playbook.Handlers playbook))
                         handlerResults)%Z)
         /\ (R.TasksTotal report = 0%Z \/ exists playbook,
               Parser.Parse (H := linux) (parser (executor true))
                 (SignedPlaybook.Content (signed twinsYAML "approved")) = Val playbook
               /\ R.TasksTotal report = Z.of_nat (length (Playbook.Tasks playbook))).
Proof.
  eexists _, _, _. split; [reflexivity|].
  eapply (Execute_counters (H := linux) (executor true) ctx (signed twinsYAML "approved")
            start).
  reflexivity.
Defined.

Lemma Execute_rejects_only_what_the_verifier_rejects_witness :
  exists report err st',
    Execute (H := linux) (executor true) ctx (signed twinsYAML "pending") start
    = Done (report, err, st')
    /\ (R.Status report = "rejected"
        <-> VerificationRecord.AllChecksPass (R.Verification report) = false)
    /\ err <> Some ErrPlatformMismatch
    /\ R.Status report ∈ ["rejected"; "failed"; "cancelled"; "completed"]
    /\ (err = None <-> R.Status report = "completed").
Proof.
  eexists _, _, _. split; [reflexivity|].
  eapply (Execute_rejects_only_what_the_verifier_rejects (H := linux) (executor true) ctx
            (signed twinsYAML "pending") start);
    reflexivity.
Defined.

Lemma Execute_cancelled_before_the_first_task_witness :
  exists report,
    Execute (H := linux) (executor true) ctx (signed notifyYAML "approved") stopped
    = Done (report, Some ErrContext, stopped)
    /\ R.Status report = "cancelled"
    /\ R.TaskResults report = []
    /\ R.TasksTotal report = Z.of_nat (length (Playbook.Tasks notifyThenFail))
    /\ R.PlaybookName report = Playbook.Name notifyThenFail.
Proof.
  apply (Execute_cancelled_before_the_first_task (H := linux) (executor true) ctx
           (signed notifyYAML "approved") stopped notifyThenFail);
    [vm_compute; reflexivity | reflexivity | reflexivity | reflexivity].
Defined.

Lemma foreign_action_is_skipped_witness :
  Task.Platform registryTask = "windows"
  /\ exists result,
       executeTask (H := linux) (executor true) ctx registryTask fresh start
       = Done (result,
               progress (H := linux) (executor true) (Task.Name registryTask)
                 TaskStatusRunning start)
       /\ TaskResult.Status result = TaskStatusSkipped.
Proof.
  apply (foreign_action_is_skipped (H := linux) (executor true) ctx registryTask fresh start
           (Parser.NewParser (H := linux)) 0%nat "windows");
    [vm_compute; reflexivity | reflexivity | reflexivity | discriminate].
Defined.

Lemma DryRun_reports_the_issues_witness :
  exists report err,
    DryRun (H := linux) (executor true) ctx (signed twinsYAML "approved") start
    = Done (report, err, start)
    /\ Forall2 (simulated (H := linux) (executor true)) (Playbook.Tasks twins)
         (R.TaskResults report)
    /\ R.TasksFailed report = issuesOf (H := linux) (executor true) (Playbook.Tasks twins)
    /\ R.TasksTotal report = Z.of_nat (length (Playbook.Tasks twins))
    /\ (issuesOf (H := linux) (executor true) (Playbook.Tasks twins) = 0%Z
        -> err = None /\ R.Status report = "dry_run_ok")
    /\ ((0 < issuesOf (H := linux) (executor true) (Playbook.Tasks twins))%Z
        -> R.Status report = "dry_run_failed"
           /\ err = Some (Errorf ("dry run found "
                                  +:+ Itoa (issuesOf (H := linux) (executor true)
                                              (Playbook.Tasks twins))
                                  +:+ " issues"))).
Proof.
  apply (DryRun_reports_the_issues (H := linux) (executor true) ctx
           (signed twinsYAML "approved") start twins);
    [vm_compute; reflexivity | reflexivity].
Defined.

Lemma executeTask_first_attempt_succeeds_witness :
  exists execResult w1 result,
    executeTask (H := linux) (executor true) ctx (commandTask "write" "true" []) fresh start
    = Done (result,
            mkState w1
              (trace start ++ [Progress "write" TaskStatusRunning;
                               HandlerExecute "command" [("command", VString "true")];
                               Progress "write" TaskStatusCompleted]))
    /\ TaskResult.Status result = TaskStatusCompleted
    /\ TaskResult.Changed result = TaskResult.Changed execResult
    /\ TaskResult.Stdout result = TaskResult.Stdout execResult
    /\ TaskResult.Stderr result = TaskResult.Stderr execResult
    /\ TaskResult.ExitCode result = TaskResult.ExitCode execResult
    /\ TaskResult.Message result = TaskResult.Message execResult
    /\ TaskResult.Error result = "".
Proof.
  eexists _, _.
  eapply (executeTask_first_attempt_succeeds (H := linux) (executor true) ctx
            (commandTask "write" "true" []) fresh start (fun _ _ w => w)
            CommandHandler.handler [("command", VString "true")]);
    [reflexivity | by left | reflexivity | reflexivity | reflexivity | cbn; lia
    | reflexivity | reflexivity].
Defined.

Lemma Substitute_leaves_plain_text_witness :
  Variables.Substitute (H := linux) fresh boot "echo hello" = ("echo hello", None).
Proof.
  apply (Substitute_leaves_plain_text (H := linux) fresh boot "echo hello").
  apply (bool_decide_unpack _). vm_compute. exact I.
Defined.

Lemma Substitute_resolves_a_reference_witness :
  Variables.Substitute (H := linux) fresh boot (reference "platform")
  = match Variables.Get fresh "platform" with
    | Some val => (val, None)
    | None => (reference "platform", Some (VariableError "platform" ErrVariableNotFound))
    end.
Proof.
  apply (Substitute_resolves_a_reference (H := linux) fresh boot "platform");
    vm_compute; reflexivity.
Defined.

Lemma environment_references_witness :
  Variables.Substitute (H := linux) fresh boot (reference ("env." +:+ "HOME"))
  = (if String.eqb (Getenv (Host := linux) boot "HOME") ""
     then reference ("env." +:+ "HOME") else Getenv (Host := linux) boot "HOME", None)
  /\ Variables.resolveEnvVars (H := linux) boot (shellReference "HOME")
     = (if String.eqb (Getenv (Host := linux) boot "HOME") ""
        then shellReference "HOME" else Getenv (Host := linux) boot "HOME").
Proof.
  apply (environment_references (H := linux) fresh boot "HOME").
  vm_compute. reflexivity.
Defined.

Lemma platform_in_conditions_and_templates_witness :
  Condition.resolveValue (H := linux) (Variables.Set_ fresh "platform" "windows") boot
    "platform" = Val (GOOS (Host := linux))
  /\ Condition.resolveValue (H := linux) (Variables.Set_ fresh "arch" "windows") boot "arch"
     = Val (GOARCH (Host := linux))
  /\ Variables.Substitute (H := linux) (Variables.Set_ fresh "platform" "windows") boot
       (reference "platform") = ("windows", None)
  /\ Variables.Substitute (H := linux) (Variables.Set_ fresh "arch" "windows") boot
       (reference "arch") = ("windows", None)
  /\ Variables.Substitute (H := linux) (Variables.NewVariables (H := linux) boot) boot
       (reference "platform") = (GOOS (Host := linux), None).
Proof.
  apply (platform_in_conditions_and_templates (H := linux) fresh boot "windows");
    vm_compute; reflexivity.
Defined.


Lemma SubstituteMap_keeps_keys_and_scalars_witness :
  exists result,
    Variables.SubstituteMap (H := linux) fresh boot mixedParams = Val result
    /\ map fst result = map fst mixedParams
    /\ Forall2 (fun before after => scalar before.2 = true -> after = before)
         mixedParams result.
Proof.
  eexists. split; [reflexivity|].
  apply (SubstituteMap_keeps_keys_and_scalars (H := linux) fresh boot mixedParams).
  reflexivity.
Defined.

Lemma Evaluate_parentheses_group_witness :
  Condition.Evaluate (H := linux) fresh boot
    ("true" +:+ " or " +:+ parens ("false" +:+ " and " +:+ "false"))
  = orElse (Condition.Evaluate (H := linux) fresh boot "true")
      (andThen (Condition.Evaluate (H := linux) fresh boot "false")
         (Condition.Evaluate (H := linux) fresh boot "false")).
Proof.
  apply (Evaluate_parentheses_group (H := linux) fresh boot "true" "false" "false");
    vm_compute; reflexivity.
Defined.

Lemma Evaluate_negates_an_operand_witness :
  Condition.Evaluate (H := linux) fresh boot ("not " +:+ "false")
  = notOf (Condition.Evaluate (H := linux) fresh boot "false").
Proof.
  apply (Evaluate_negates_an_operand (H := linux) fresh boot "false"). vm_compute. reflexivity.
Defined.

Lemma command_must_be_a_non_empty_string_witness :
  CommandHandler.Execute (H := linux) ctx [("command", VInt 5)] fresh boot
  = ((None, Some (Errorf "command parameter must be a non-empty string")), boot)
  /\ (param [("command", VInt 5)] "command" <> None ->
      CommandHandler.Validate [("command", VInt 5)] = None
      /\ forall prefix,
           Parser.validateActionParams ActionCommand [("command", VInt 5)] prefix = None).
Proof.
  apply (command_must_be_a_non_empty_string (H := linux) ctx [("command", VInt 5)] fresh
           boot).
  intros s Hs. discriminate Hs.
Defined.

Lemma command_that_fails_witness :
  exists result,
    CommandHandler.Execute (H := linux) ctx [("command", VString "exit 1")] fresh boot
    = ((Some result,
        if Process.DeadlineExceeded
             (runProcess (Host := linux) ctx
                (CommandHandler.commandOf (H := linux) [("command", VString "exit 1")]
                   "exit 1") boot).1
        then Some (Errorf ("command timed out after "
                           +:+ formatDuration (Host := linux)
                                 (CommandHandler.timeoutOf
                                    [("command", VString "exit 1")])))
        else if toleratesFailure [("command", VString "exit 1")] then None
        else Some (Errorf ("command failed with exit code "
                           +:+ Itoa (exitCodeOf (Process.ExitError 1)) +:+ ": "
                           +:+ TrimSpace
                                 (Process.Stderr
                                    (runProcess (Host := linux) ctx
                                       (CommandHandler.commandOf (H := linux)
                                          [("command", VString "exit 1")] "exit 1")
                                       boot).1)))),
       (runProcess (Host := linux) ctx
          (CommandHandler.commandOf (H := linux) [("command", VString "exit 1")] "exit 1")
          boot).2)
    /\ TaskResult.ExitCode result = exitCodeOf (Process.ExitError 1)
    /\ TaskResult.Stdout result
       = TrimSpace (Process.Stdout
                      (runProcess (Host := linux) ctx
                         (CommandHandler.commandOf (H := linux)
                            [("command", VString "exit 1")] "exit 1") boot).1)
    /\ TaskResult.Stderr result
       = TrimSpace (Process.Stderr
                      (runProcess (Host := linux) ctx
                         (CommandHandler.commandOf (H := linux)
                            [("command", VString "exit 1")] "exit 1") boot).1)
    /\ TaskResult.Status result
       = (if negb (Process.DeadlineExceeded
                     (runProcess (Host := linux) ctx
                        (CommandHandler.commandOf (H := linux)
                           [("command", VString "exit 1")] "exit 1") boot).1)
             && toleratesFailure [("command", VString "exit 1")]
          then TaskStatusCompleted else TaskStatusRunning)
    /\ TaskResult.Changed result
       = negb (Process.DeadlineExceeded
                 (runProcess (Host := linux) ctx
                    (CommandHandler.commandOf (H := linux)
                       [("command", VString "exit 1")] "exit 1") boot).1)
         && toleratesFailure [("command", VString "exit 1")].
Proof.
  apply (command_that_fails (H := linux) ctx [("command", VString "exit 1")] fresh boot
           "exit 1" (Process.ExitError 1));
    [reflexivity | discriminate | reflexivity].
Defined.
End Instances.
